(** * The upto payment scheme of the facilitator

    A shallow embedding of

    - [toBigInt], [UptoEvmScheme.verify] and [UptoEvmScheme.settle]
      (the EIP-2612 permit handler of the "upto" scheme),
    - [settleUptoSession] (src/upto/settlement.ts, the settlement
      orchestrator of the session engine),
    - [ExactStarknetScheme.getExtra] and [getSigners] (the metadata
      of the Starknet scheme), and
    - [getCacheKey] and [createUptoPaymentPayload]
      (examples/smokeClient.ts, the permit cache of the example
      client),

    followed by the properties of the facilitator's specification that
    speak about them, and by further properties read off the code.

    Conventions.  A [bigint] is a [Z].  A JavaScript string is the
    [string] of its UTF-8 bytes.  [undefined] (and [null]) is [None].
    Code that calls the signer, the facilitator client, the session
    store or the clock is written in a state-and-exception monad whose
    state carries the outside world and a log of the calls made. *)

From Stdlib Require Import ZArith QArith.QArith_base QArith.Qreduction.
From Stdlib Require Import String Ascii List Bool Lia.
From Stdlib Require Import DecimalString DecimalPos DecimalZ.
From stdpp Require Import base option gmap strings.

Local Open Scope string_scope.
Local Open Scope Z_scope.

(** ** JavaScript values *)

Module Js.

(** A [number]: a finite double (a rational), NaN or an infinity. *)
Inductive number : Type :=
| finite (q : Q)
| NaN
| infinity (negative : bool).

Definition Number_isFinite (n : number) : bool :=
  match n with finite _ => true | _ => false end.

(** What a [throw] carries: an [Error] instance (with the name of its
    class and its message) or any other value.  The text of the
    messages of built-in errors is the engine's; only the class
    matters below. *)
Inductive Thrown : Type :=
| ThrownError (name message : string)
| ThrownOther.

Inductive Completion (A : Type) : Type :=
| Normal (a : A)
| Throw (e : Thrown).
Arguments Normal {A} a.
Arguments Throw {A} e.

Definition RangeError (message : string) : Thrown := ThrownError "RangeError" message.

(** [BigInt(n)] for a number: the integer itself, a RangeError when
    [n] has a fractional part or is not finite. *)
Definition BigInt_of_number (n : number) : Completion Z :=
  match n with
  | finite q =>
      if (Qden (Qred q) =? 1)%positive then Normal (Qnum (Qred q))
      else Throw (RangeError "not an integer")
  | _ => Throw (RangeError "not an integer")
  end.

(** Truthiness of a [string | undefined]: the empty string and
    [undefined] are falsy. *)
Definition truthy (v : option string) : bool :=
  match v with
  | Some s => negb (String.eqb s "")
  | None => false
  end.

(** [a ?? b] *)
Definition nullish {A} (a b : option A) : option A :=
  match a with Some _ => a | None => b end.

(** *** [BigInt(string)]

    StringToBigInt: white space is trimmed; the empty string is [0n];
    otherwise an optionally signed run of decimal digits, or an
    unsigned run of digits after [0x], [0o] or [0b]; anything else is a
    SyntaxError, here [None]. *)

Definition digit_value (c : ascii) : option Z :=
  let n := Z.of_N (N_of_ascii c) in
  if (48 <=? n) && (n <=? 57) then Some (n - 48)
  else if (97 <=? n) && (n <=? 102) then Some (n - 87)
  else if (65 <=? n) && (n <=? 70) then Some (n - 55)
  else None.

Fixpoint digits_value (radix acc : Z) (s : string) : option Z :=
  match s with
  | EmptyString => Some acc
  | String c rest =>
      match digit_value c with
      | Some d => if d <? radix then digits_value radix (acc * radix + d) rest else None
      | None => None
      end
  end.

Definition digits (radix : Z) (s : string) : option Z :=
  match s with
  | EmptyString => None
  | _ => digits_value radix 0 s
  end.

Definition string_of_codes (l : list N) : string :=
  string_of_list_ascii (map ascii_of_N l).

(** StrWhiteSpaceChar, each as its UTF-8 bytes: TAB, LF, VT, FF, CR,
    SP, U+00A0, U+1680, U+2000..U+200A, U+2028, U+2029, U+202F, U+205F,
    U+3000, U+FEFF. *)
Definition StrWhiteSpaceChar : list string :=
  map string_of_codes
    (app [ [9]; [10]; [11]; [12]; [13]; [32]; [194; 160]; [225; 154; 128] ]
    (app (map (fun b => [226; 128; b]) [128; 129; 130; 131; 132; 133; 134; 135; 136; 137; 138])
         [ [226; 128; 168]; [226; 128; 169]; [226; 128; 175]; [226; 129; 159];
           [227; 128; 128]; [239; 187; 191] ]))%N.

Fixpoint strip_prefix (p s : string) : option string :=
  match p, s with
  | EmptyString, _ => Some s
  | String a p', String b s' => if Ascii.eqb a b then strip_prefix p' s' else None
  | String _ _, EmptyString => None
  end.

Fixpoint strip_one (tokens : list string) (s : string) : option string :=
  match tokens with
  | [] => None
  | t :: tokens' =>
      match strip_prefix t s with
      | Some rest => Some rest
      | None => strip_one tokens' s
      end
  end.

Fixpoint strip_all (fuel : nat) (tokens : list string) (s : string) : string :=
  match fuel with
  | O => s
  | S fuel' =>
      match strip_one tokens s with
      | Some rest => strip_all fuel' tokens rest
      | None => s
      end
  end.

Definition trimStart (s : string) : string :=
  strip_all (String.length s) StrWhiteSpaceChar s.

Definition trimEnd (s : string) : string :=
  String.rev (strip_all (String.length s) (map String.rev StrWhiteSpaceChar) (String.rev s)).

Definition trim (s : string) : string := trimEnd (trimStart s).

Definition BigInt_of_string (s : string) : option Z :=
  match trim s with
  | EmptyString => Some 0
  | String "0" (String ("x" | "X") rest) => digits 16 rest
  | String "0" (String ("o" | "O") rest) => digits 8 rest
  | String "0" (String ("b" | "B") rest) => digits 2 rest
  | String "+" rest => digits 10 rest
  | String "-" rest => Z.opp <$> digits 10 rest
  | t => digits 10 t
  end.

(** [n.toString()] of a bigint: decimal, with a minus sign when negative. *)
Definition toString (n : Z) : string := NilZero.string_of_int (Z.to_int n).

(** [s.split(sep)] for a one-character separator. *)
Fixpoint split (sep : ascii) (s : string) : list string :=
  match s with
  | EmptyString => [EmptyString]
  | String c rest =>
      if Ascii.eqb c sep then EmptyString :: split sep rest
      else match split sep rest with
           | h :: t => String c h :: t
           | [] => [String c EmptyString]
           end
  end.

End Js.
Export Js.

(** ** The state-and-exception monad

    [M S A] is a computation over a state [S] that either completes
    with an [A] or throws; the state reached is kept in both cases, as
    a [catch] block sees the effects made before the [throw]. *)

Definition M (S A : Type) : Type := S -> Completion A * S.

Global Instance M_ret {S} : MRet (M S) := fun A a st => (Normal a, st).

Global Instance M_bind {S} : MBind (M S) := fun A B f m st =>
  match m st with
  | (Normal a, st') => f a st'
  | (Throw e, st') => (Throw e, st')
  end.

Definition throw {S A} (e : Thrown) : M S A := fun st => (Throw e, st).

Definition lift {S A} (c : Completion A) : M S A := fun st => (c, st).

(** [try { body } catch (error) { handler error }] *)
Definition try_catch {S A} (body : M S A) (handler : Thrown -> M S A) : M S A := fun st =>
  match body st with
  | (Normal a, st') => (Normal a, st')
  | (Throw e, st') => handler e st'
  end.

(** ** Wire types (@x402/core/types) and the upto payload

    Each record lives in a module of its own, so that the fields keep
    the names they have in the source. *)

Module PaymentRequirements.
Record t : Type := mk {
  scheme : string;
  network : string;
  asset : string;
  payTo : string;
  amount : string;
  maxTimeoutSeconds : number;
  extra : option (gmap string string);
}.

(** [{ ...r, amount: a }] *)
Definition with_amount (r : t) (a : string) : t :=
  mk (scheme r) (network r) (asset r) (payTo r) a (maxTimeoutSeconds r) (extra r).
End PaymentRequirements.

(** [Partial<UptoEvmAuthorization>]: any field may be missing. *)
Module UptoEvmAuthorization.
Record t : Type := mk {
  from : option string;
  to : option string;
  value : option string;
  validAfter : option string;
  validBefore : option string;
  nonce : option string;
}.
End UptoEvmAuthorization.

(** [Partial<UptoEvmPayload>] *)
Module UptoEvmPayload.
Record t : Type := mk {
  authorization : option UptoEvmAuthorization.t;
  signature : option string;
}.
End UptoEvmPayload.

Module PaymentPayload.
Record t : Type := mk {
  x402Version : Z;
  accepted : PaymentRequirements.t;
  payload : UptoEvmPayload.t;
}.
End PaymentPayload.

Module VerifyResponse.
Record t : Type := mk {
  isValid : bool;
  invalidReason : option string;
  payer : option string;
}.
End VerifyResponse.

Module SettleResponse.
Record t : Type := mk {
  success : bool;
  errorReason : option string;
  transaction : string;
  network : string;
  payer : option string;
}.
End SettleResponse.

(** ** What the scheme takes from viem and from the signer *)

(** The result of viem's [parseSignature]. *)
Module ParsedSignature.
Record t : Type := mk {
  r : string;
  s : string;
  v : option Z;
  yParity : option Z;
}.
End ParsedSignature.

Module TransactionReceipt.
Record t : Type := mk { status : string }.
End TransactionReceipt.

(** The EIP-712 request handed to [signer.verifyTypedData]; [types] and
    [primaryType] are the constant Permit schema. *)
Module PermitTypedData.
Record t : Type := mk {
  address : string;
  domain_name : option string;
  domain_version : option string;
  domain_chainId : number;
  domain_verifyingContract : string;
  message_owner : string;
  message_spender : string;
  message_value : Z;
  message_nonce : Z;
  message_deadline : Z;
  signature : option string;
}.
End PermitTypedData.

(** [functionName] and [args] of a contract call ([permitAbi] for
    [permit], [erc20Abi] for the other two). *)
Inductive ContractCall : Type :=
| permit (owner spender : string) (value deadline : Z) (v : option Z) (r s : string)
| allowance (owner spender : string)
| transferFrom (from to : string) (value : Z).

Inductive SignerCall : Type :=
| VerifyTypedData (request : PermitTypedData.t)
| ReadContract (address : string) (call : ContractCall)
| WriteContract (address : string) (call : ContractCall)
| WaitForTransactionReceipt (hash : string).

(** [FacilitatorEvmSigner] (@x402/evm), over a world [W] that its calls
    read and change.  Every call may throw. *)
Record FacilitatorEvmSigner (W : Type) : Type := {
  verifyTypedData : PermitTypedData.t -> W -> Completion bool * W;
  readContract : string -> ContractCall -> W -> Completion Z * W;
  writeContract : string -> ContractCall -> W -> Completion string * W;
  waitForTransactionReceipt : string -> W -> Completion TransactionReceipt.t * W;
}.
Arguments verifyTypedData {W} _ _ _.
Arguments readContract {W} _ _ _ _.
Arguments writeContract {W} _ _ _ _.
Arguments waitForTransactionReceipt {W} _ _ _.

(** The built-ins and library functions whose results the code only
    passes on or tests: the clock, [Number(string)], and viem's
    EIP-55 casing (Keccak-256 based) and signature parser. *)
Class Host (W : Type) : Type := {
  Date_now : W -> Z * W;
  Number_of_string : string -> number;
  checksumAddress : string -> string;
  parseSignature : string -> Completion ParsedSignature.t;
}.

Definition TypeError (message : string) : Thrown := ThrownError "TypeError" message.
Definition InvalidAddressError : Thrown := ThrownError "InvalidAddressError" "Address is invalid.".

(** viem's [isAddress(_, { strict: false })]: the pattern
    [^0x[a-fA-F0-9]{40}$]. *)
Definition isHexDigit (c : ascii) : bool :=
  match digit_value c with Some _ => true | None => false end.

Definition isAddress (address : string) : bool :=
  match address with
  | String "0" (String "x" rest) =>
      (String.length rest =? 40)%nat && forallb isHexDigit (list_ascii_of_string rest)
  | _ => false
  end.

(** viem's [getAddress]: throws on anything that is not an address. *)
Definition getAddress `{Host W} (address : option string) : Completion string :=
  match address with
  | Some a => if isAddress a then Normal (checksumAddress a) else Throw InvalidAddressError
  | None => Throw InvalidAddressError
  end.

(** [Number(x)] for a [string | undefined]. *)
Definition Number `{Host W} (x : option string) : number :=
  match x with
  | Some s => Number_of_string s
  | None => NaN
  end.

(** [extra?.key] *)
Definition field (extra : option (gmap string string)) (key : string) : option string :=
  e ← extra; e !! key.

(** ** part_002: the upto scheme for EVM chains *)

Definition toBigInt (value : option string) : Z :=
  if negb (truthy value) then 0
  else match value with
       | Some s => match BigInt_of_string s with
                   | Some n => n
                   | None => 0
                   end
       | None => 0
       end.

(** The state of a run of the scheme: the world, and the signer calls
    made so far, oldest first. *)
Record Run (W : Type) : Type := { world : W; calls : list SignerCall }.
Arguments world {W} _.
Arguments calls {W} _.

Module UptoEvmScheme.
Section WithSigner.
Context {W : Type} `{Host W}.
Variable signer : FacilitatorEvmSigner W.

Definition call {A} (c : SignerCall) (f : W -> Completion A * W) : M (Run W) A := fun st =>
  let (a, w) := f (world st) in
  (a, {| world := w; calls := calls st ++ [c] |}).

Definition now_ms : M (Run W) Z := fun st =>
  let (ms, w) := Date_now (world st) in
  (Normal ms, {| world := w; calls := calls st |}).

Definition invalid (reason : string) (payer : option string) : VerifyResponse.t :=
  VerifyResponse.mk false (Some reason) payer.

Definition verify (payload : PaymentPayload.t) (requirements : PaymentRequirements.t)
  : M (Run W) VerifyResponse.t :=
  let uptoPayload := PaymentPayload.payload payload in
  let authorization := UptoEvmPayload.authorization uptoPayload in
  let payer := authorization ≫= UptoEvmAuthorization.from in
  if negb (String.eqb (PaymentRequirements.scheme (PaymentPayload.accepted payload)) "upto")
     || negb (String.eqb (PaymentRequirements.scheme requirements) "upto")
  then mret (invalid "unsupported_scheme" payer)
  else
  match authorization with
  | None => mret (invalid "invalid_upto_evm_payload" payer)
  | Some authorization =>
  if negb (truthy (UptoEvmPayload.signature uptoPayload))
  then mret (invalid "invalid_upto_evm_payload" payer)
  else
  let owner := UptoEvmAuthorization.from authorization in
  let spender := nullish (UptoEvmAuthorization.to authorization)
                         (Some (PaymentRequirements.payTo requirements)) in
  let nonce := UptoEvmAuthorization.nonce authorization in
  let validBefore := UptoEvmAuthorization.validBefore authorization in
  let value := UptoEvmAuthorization.value authorization in
  if negb (truthy owner) || negb (truthy spender) || negb (truthy nonce)
     || negb (truthy validBefore) || negb (truthy value)
  then mret (invalid "invalid_upto_evm_payload" payer)
  else
  ownerAddress ← lift (getAddress owner);
  spenderAddress ← lift (getAddress spender);
  if negb (String.eqb (PaymentRequirements.network (PaymentPayload.accepted payload))
                      (PaymentRequirements.network requirements))
  then mret (invalid "network_mismatch" payer)
  else
  let extra := PaymentRequirements.extra requirements in
  let name := field extra "name" in
  let version := field extra "version" in
  if negb (truthy name) || negb (truthy version)
  then mret (invalid "missing_eip712_domain" payer)
  else
  payToAddress ← lift (getAddress (Some (PaymentRequirements.payTo requirements)));
  if negb (String.eqb spenderAddress payToAddress)
  then mret (invalid "recipient_mismatch" payer)
  else
  let cap := toBigInt value in
  let requiredAmount := toBigInt (Some (PaymentRequirements.amount requirements)) in
  if cap <? requiredAmount
  then mret (invalid "cap_too_low" payer)
  else
  let maxAmountRequired :=
    toBigInt (nullish (field extra "maxAmountRequired") (field extra "maxAmount")) in
  if (maxAmountRequired >? 0) && (cap <? maxAmountRequired)
  then mret (invalid "cap_below_required_max" payer)
  else
  ms ← now_ms;
  let now := ms / 1000 in
  let deadline := toBigInt validBefore in
  if deadline <? now + 6
  then mret (invalid "authorization_expired" payer)
  else
  let chainId :=
    Number (nth_error (split ":" (PaymentRequirements.network requirements)) 1) in
  if negb (Number_isFinite chainId)
  then mret (invalid "invalid_chain_id" payer)
  else
  verifyingContract ← lift (getAddress (Some (PaymentRequirements.asset requirements)));
  let permitTypedData :=
    PermitTypedData.mk ownerAddress name version chainId verifyingContract
      ownerAddress spenderAddress cap (toBigInt nonce) deadline
      (UptoEvmPayload.signature uptoPayload) in
  returned ← try_catch
    (ok ← call (VerifyTypedData permitTypedData) (verifyTypedData signer permitTypedData);
     if negb ok
     then mret (Some (invalid "invalid_permit_signature" payer))
     else mret None)
    (fun _ => mret (Some (invalid "invalid_permit_signature" payer)));
  match returned with
  | Some response => mret response
  | None => mret (VerifyResponse.mk true None payer)
  end
  end.

Definition failed (reason transaction network : string) (payer : option string)
  : SettleResponse.t :=
  SettleResponse.mk false (Some reason) transaction network payer.

Definition settle (payload : PaymentPayload.t) (requirements : PaymentRequirements.t)
  : M (Run W) SettleResponse.t :=
  verification ← verify payload requirements;
  let network := PaymentRequirements.network (PaymentPayload.accepted payload) in
  if negb (VerifyResponse.isValid verification)
  then mret (failed (default "invalid_upto_evm_payload" (VerifyResponse.invalidReason verification))
                    "" network (VerifyResponse.payer verification))
  else
  let uptoPayload := PaymentPayload.payload payload in
  match UptoEvmPayload.authorization uptoPayload with
  | None => throw (TypeError "authorization is undefined")
  | Some authorization =>
  payer ← lift (getAddress (UptoEvmAuthorization.from authorization));
  spender ← lift (getAddress (nullish (UptoEvmAuthorization.to authorization)
                                      (Some (PaymentRequirements.payTo requirements))));
  let cap := toBigInt (UptoEvmAuthorization.value authorization) in
  let totalSpent := toBigInt (Some (PaymentRequirements.amount requirements)) in
  if totalSpent >? cap
  then mret (failed "total_exceeds_cap" "" network (Some payer))
  else
  erc20Address ← lift (getAddress (Some (PaymentRequirements.asset requirements)));
  parsedSig ← try_catch
    (parsed ← lift (match UptoEvmPayload.signature uptoPayload with
                    | Some sig => parseSignature sig
                    | None => Throw (TypeError "signature is undefined")
                    end);
     mret (Some parsed))
    (fun _ => mret None);
  match parsedSig with
  | None => mret (failed "unsupported_signature_type" "" network (Some payer))
  | Some parsedSig =>
  if negb (match ParsedSignature.v parsedSig with Some n => negb (n =? 0) | None => false end)
     && negb (bool_decide (is_Some (ParsedSignature.yParity parsedSig)))
  then mret (failed "unsupported_signature_type" "" network (Some payer))
  else
  let v := nullish (ParsedSignature.v parsedSig) (ParsedSignature.yParity parsedSig) in
  let r := ParsedSignature.r parsedSig in
  let s := ParsedSignature.s parsedSig in
  let deadline := toBigInt (UptoEvmAuthorization.validBefore authorization) in
  (* 1) Try to apply permit for the cap. *)
  returned ← try_catch
    (let request := permit payer spender cap deadline v r s in
     permitTx ← call (WriteContract erc20Address request)
                     (writeContract signer erc20Address request);
     _ ← call (WaitForTransactionReceipt permitTx)
              (waitForTransactionReceipt signer permitTx);
     mret None)
    (fun _ =>
       (* If permit fails (already used), rely on allowance. *)
       try_catch
         (let request := allowance payer spender in
          allowed ← call (ReadContract erc20Address request)
                         (readContract signer erc20Address request);
          if allowed <? totalSpent
          then mret (Some (failed "insufficient_allowance" "" network (Some payer)))
          else mret None)
         (fun _ => mret (Some (failed "permit_failed" "" network (Some payer)))));
  match returned with
  | Some response => mret response
  | None =>
  (* 2) transferFrom totalSpent to payTo. *)
  try_catch
    (payTo ← lift (getAddress (Some (PaymentRequirements.payTo requirements)));
     let request := transferFrom payer payTo totalSpent in
     tx ← call (WriteContract erc20Address request)
               (writeContract signer erc20Address request);
     receipt ← call (WaitForTransactionReceipt tx) (waitForTransactionReceipt signer tx);
     if negb (String.eqb (TransactionReceipt.status receipt) "success")
     then mret (failed "invalid_transaction_state" tx network (Some payer))
     else mret (SettleResponse.mk true None tx network (Some payer)))
    (fun _ => mret (failed "transaction_failed" "" network (Some payer)))
  end
  end
  end.

End WithSigner.
End UptoEvmScheme.

(** ** src/upto/settlement.ts: the settlement orchestrator *)

Module LastSettlement.
Record t : Type := mk {
  atMs : Z;
  reason : string;
  receipt : SettleResponse.t;
}.
End LastSettlement.

Module Session.
Inductive Status : Type := open | settling | closed.

Global Instance Status_eq_dec : EqDecision Status.
Proof. solve_decision. Defined.

Definition Status_eqb (a b : Status) : bool :=
  match a, b with
  | open, open | settling, settling | closed, closed => true
  | _, _ => false
  end.

(** Modelled from the spec: the session record of sessionStore.ts,
    which is not among the sources, with the fields the specification
    lists. *)
Record t : Type := mk {
  id : string;
  paymentPayload : PaymentPayload.t;
  paymentRequirements : PaymentRequirements.t;
  cap : Z;
  deadline : Z;
  settledTotal : Z;
  pendingSpent : Z;
  status : Status;
  lastSettlement : option LastSettlement.t;
}.

(** The assignments [session.f = x] of the orchestrator. *)
Definition set_status (x : Status) (s : t) : t :=
  mk (id s) (paymentPayload s) (paymentRequirements s) (cap s) (deadline s)
     (settledTotal s) (pendingSpent s) x (lastSettlement s).
Definition set_settledTotal (x : Z) (s : t) : t :=
  mk (id s) (paymentPayload s) (paymentRequirements s) (cap s) (deadline s)
     x (pendingSpent s) (status s) (lastSettlement s).
Definition set_pendingSpent (x : Z) (s : t) : t :=
  mk (id s) (paymentPayload s) (paymentRequirements s) (cap s) (deadline s)
     (settledTotal s) x (status s) (lastSettlement s).
Definition set_lastSettlement (x : LastSettlement.t) (s : t) : t :=
  mk (id s) (paymentPayload s) (paymentRequirements s) (cap s) (deadline s)
     (settledTotal s) (pendingSpent s) (status s) (Some x).
End Session.

Module UptoFacilitatorClient.
Record t (W : Type) : Type := mk {
  settle : PaymentPayload.t -> PaymentRequirements.t -> W -> Completion SettleResponse.t * W;
}.
Arguments settle {W} _ _ _ _.
End UptoFacilitatorClient.

(** What a settlement does to the outside: writes to the store and
    calls of the facilitator client, oldest first. *)
Inductive Effect : Type :=
| StoreSet (sessionId : string) (session : Session.t)
| ClientSettle (paymentPayload : PaymentPayload.t) (paymentRequirements : PaymentRequirements.t).

Record Engine (W : Type) : Type := {
  store : gmap string Session.t;
  outside : W;
  effects : list Effect;
}.
Arguments store {W} _.
Arguments outside {W} _.
Arguments effects {W} _.

Module Settlement.
Section WithClient.
Context {W : Type} `{Host W}.
Variable facilitatorClient : UptoFacilitatorClient.t W.

(** Modelled from the spec: the session store of sessionStore.ts, a
    mapping from session id to session; [get] is a lookup and [set]
    replaces the whole record under its id.  The orchestrator mutates
    the session it got and writes it back with [set] before it
    returns, so on a normal return the store holds the mutated
    session whether [get] hands out the stored object or a copy. *)
Definition store_get (sessionId : string) : M (Engine W) (option Session.t) := fun st =>
  (Normal (store st !! sessionId), st).

Definition store_set (sessionId : string) (session : Session.t) : M (Engine W) unit := fun st =>
  (Normal tt, {| store := <[sessionId := session]> (store st);
                 outside := outside st;
                 effects := effects st ++ [StoreSet sessionId session] |}).

Definition client_settle (paymentPayload : PaymentPayload.t)
    (paymentRequirements : PaymentRequirements.t) : M (Engine W) SettleResponse.t := fun st =>
  let (response, w) :=
    UptoFacilitatorClient.settle facilitatorClient paymentPayload paymentRequirements (outside st) in
  (response, {| store := store st;
                outside := w;
                effects := effects st ++ [ClientSettle paymentPayload paymentRequirements] |}).

Definition now_ms : M (Engine W) Z := fun st =>
  let (ms, w) := Date_now (outside st) in
  (Normal ms, {| store := store st; outside := w; effects := effects st |}).

Definition settleUptoSession (sessionId reason : string)
    (closeAfter : option bool) (deadlineBufferSec : option number) : M (Engine W) unit :=
  let closeAfter := default false closeAfter in
  let deadlineBufferSec := default (finite (60 # 1)) deadlineBufferSec in
  session ← store_get sessionId;
  match session with
  | None => mret tt
  | Some session =>
  if negb (Session.Status_eqb (Session.status session) Session.open) then mret tt
  else
  if Session.pendingSpent session <=? 0
  then
    if closeAfter
    then
      let session := Session.set_status Session.closed session in
      store_set sessionId session
    else mret tt
  else
  let session := Session.set_status Session.settling session in
  _ ← store_set sessionId session;
  let settleAmount := Session.pendingSpent session in
  let settleRequirements :=
    PaymentRequirements.with_amount (Session.paymentRequirements session)
                                    (toString settleAmount) in
  receipt ← try_catch
    (client_settle (Session.paymentPayload session) settleRequirements)
    (fun error =>
       mret (SettleResponse.mk false
               (Some (match error with
                      | ThrownError _ message => message
                      | ThrownOther => "settlement_failed"
                      end))
               ""
               (PaymentRequirements.network
                  (PaymentPayload.accepted (Session.paymentPayload session)))
               None));
  let session :=
    if SettleResponse.success receipt
    then Session.set_pendingSpent 0
           (Session.set_settledTotal (Session.settledTotal session + settleAmount) session)
    else session in
  atMs ← now_ms;
  let session := Session.set_lastSettlement (LastSettlement.mk atMs reason receipt) session in
  ms ← now_ms;
  let nowSec := ms / 1000 in
  closing ←
    (if closeAfter then mret true
     else if Session.settledTotal session >=? Session.cap session then mret true
     else buffer ← lift (BigInt_of_number deadlineBufferSec);
          mret (Session.deadline session <=? nowSec + buffer));
  let session :=
    Session.set_status (if closing : bool then Session.closed else Session.open) session in
  store_set sessionId session
  end.

End WithClient.
End Settlement.

(** ** Test doubles and the scenarios of the specification

    A simulated world with a clock and a scripted signer, to run the
    embedding on concrete inputs. *)

Module Scenario.

Record Sim : Type := {
  clock_ms : Z;
  signature_ok : option bool;      (* [None]: verifyTypedData throws *)
  permit_reverts : bool;
  allowance_left : option Z;       (* [None]: the allowance read throws *)
  transfer_throws : bool;
  receipt_status : string;
}.

Definition rpc_error : Thrown := ThrownError "Error" "rpc unavailable".

Definition lower (c : ascii) : ascii :=
  let n := N_of_ascii c in
  if ((65 <=? n) && (n <=? 90))%N then ascii_of_N (n + 32) else c.

Fixpoint lowercase (s : string) : string :=
  match s with
  | EmptyString => EmptyString
  | String c rest => String (lower c) (lowercase rest)
  end.

(** The clock does not advance; [Number] reads decimal digits; the
    casing of an address is flattened; every signature parses to
    the same [(v, r, s)]. *)
Global Instance host : Host Sim := {|
  Date_now w := (clock_ms w, w);
  Number_of_string s :=
    match digits 10 s with Some n => finite (inject_Z n) | None => NaN end;
  checksumAddress := lowercase;
  parseSignature _ := Normal (ParsedSignature.mk "0x01" "0x02" (Some 27) (Some 0));
|}.

Definition signer : FacilitatorEvmSigner Sim := {|
  verifyTypedData _ w :=
    (match signature_ok w with Some ok => Normal ok | None => Throw rpc_error end, w);
  readContract _ _ w :=
    (match allowance_left w with Some a => Normal a | None => Throw rpc_error end, w);
  writeContract _ c w :=
    (match c with
     | permit _ _ _ _ _ _ _ =>
         if permit_reverts w then Throw rpc_error else Normal "0xpermit"
     | transferFrom _ _ _ =>
         if transfer_throws w then Throw rpc_error else Normal "0xtransfer"
     | allowance _ _ => Throw rpc_error
     end, w);
  waitForTransactionReceipt _ w := (Normal (TransactionReceipt.mk (receipt_status w)), w);
|}.

(** 2023-11-14T22:13:20Z *)
Definition now_sec : Z := 1700000000.

Definition sunny : Sim := {|
  clock_ms := now_sec * 1000 + 250;
  signature_ok := Some true;
  permit_reverts := false;
  allowance_left := Some 0;
  transfer_throws := false;
  receipt_status := "success";
|}.

Definition start (w : Sim) : Run Sim := {| world := w; calls := [] |}.

Definition alice : string := "0x00000000000000000000000000000000000000aa".
Definition merchant : string := "0x00000000000000000000000000000000000000bb".
Definition mallory : string := "0x00000000000000000000000000000000000000cc".
Definition usdc : string := "0x833589fCD6eDb6E08f4c7C32D4f71b54bdA02913".

Definition requirement (amount : string) : PaymentRequirements.t :=
  PaymentRequirements.mk "upto" "eip155:8453" usdc merchant amount (finite (inject_Z 300))
    (Some (<["name" := "USD Coin"]> (<["version" := "2"]> ∅))).

Definition authorized (from to : string) (value validBefore : string)
  : UptoEvmAuthorization.t :=
  UptoEvmAuthorization.mk (Some from) (Some to) (Some value) None (Some validBefore) (Some "0").

Definition presented (a : UptoEvmAuthorization.t) : PaymentPayload.t :=
  PaymentPayload.mk 2 (requirement "250000") (UptoEvmPayload.mk (Some a) (Some "0xsigned")).

(** now + 3600 *)
Definition in_an_hour : string := "1700003600".

(** The orchestrator's side: a session with cap 1000000 under id
    ["s1"], a client that answers as scripted, and the local client,
    which hands the call to the scheme. *)
Definition metered (settled pending : Z) (status : Session.Status) : Session.t :=
  Session.mk "s1" (presented (authorized alice merchant "1000000" in_an_hour))
    (requirement "250000") 1000000 1700003600 settled pending status None.

Definition desk (s : Session.t) (w : Sim) : Engine Sim :=
  {| store := {[ "s1" := s ]}; outside := w; effects := [] |}.

Definition scripted (answer : Completion SettleResponse.t) : UptoFacilitatorClient.t Sim :=
  UptoFacilitatorClient.mk Sim (fun _ _ w => (answer, w)).

Definition localFacilitatorClient : UptoFacilitatorClient.t Sim :=
  UptoFacilitatorClient.mk Sim (fun paymentPayload paymentRequirements w =>
    let (response, st) :=
      UptoEvmScheme.settle signer paymentPayload paymentRequirements (start w) in
    (response, world st)).

Definition paid (transaction : string) : SettleResponse.t :=
  SettleResponse.mk true None transaction "eip155:8453" (Some alice).

Definition stormy : Sim := {|
  clock_ms := now_sec * 1000 + 250;
  signature_ok := Some true;
  permit_reverts := true;
  allowance_left := Some 1000000;
  transfer_throws := true;
  receipt_status := "success";
|}.

(** The permit of the session has been applied by an earlier
    settlement: it reverts, and the allowance left covers the rest. *)
Definition replayed : Sim := {|
  clock_ms := now_sec * 1000 + 250;
  signature_ok := Some true;
  permit_reverts := true;
  allowance_left := Some 700000;
  transfer_throws := false;
  receipt_status := "success";
|}.

(** Settled total, pending amount and status of session ["s1"]. *)
Definition ledger (st : Engine Sim) : option (Z * Z * Session.Status) :=
  (fun s => (Session.settledTotal s, Session.pendingSpent s, Session.status s))
    <$> store st !! "s1".

(** The contract calls among the signer calls of a run. *)
Definition contract_calls (st : Run Sim) : list ContractCall :=
  omap (fun c => match c with
                 | ReadContract _ call | WriteContract _ call => Some call
                 | _ => None
                 end) (calls st).

End Scenario.

(** ** Notions used in the statements *)

(** The session invariant of the specification. *)
Definition cap_invariant (s : Session.t) : Prop :=
  Session.settledTotal s + Session.pendingSpent s <= Session.cap s.

(** The calls of the facilitator client among some effects. *)
Definition client_calls (l : list Effect) : list (PaymentPayload.t * PaymentRequirements.t) :=
  omap (fun e => match e with
                 | ClientSettle p r => Some (p, r)
                 | StoreSet _ _ => None
                 end) l.

(** The receipt the orchestrator records for an answer of the client. *)
Definition receipt_of (s : Session.t) (answer : Completion SettleResponse.t) : SettleResponse.t :=
  match answer with
  | Normal r => r
  | Throw e =>
      SettleResponse.mk false
        (Some (match e with ThrownError _ m => m | ThrownOther => "settlement_failed" end))
        ""
        (PaymentRequirements.network (PaymentPayload.accepted (Session.paymentPayload s)))
        None
  end.

(** The session after a receipt: pending moves to settled on success. *)
Definition credited (receipt : SettleResponse.t) (s : Session.t) : Session.t :=
  if SettleResponse.success receipt
  then Session.set_pendingSpent 0
         (Session.set_settledTotal (Session.settledTotal s + Session.pendingSpent s) s)
  else s.

(** The test that decides the final status, with its short circuit. *)
Definition close_test (closeAfter : bool) (buffer : number) (s : Session.t) (nowSec : Z)
  : Completion bool :=
  if closeAfter then Normal true
  else if Session.settledTotal s >=? Session.cap s then Normal true
  else match BigInt_of_number buffer with
       | Normal b => Normal (Session.deadline s <=? nowSec + b)
       | Throw e => Throw e
       end.

Section SchemeNotions.
Context {W : Type} `{Host W}.

(** What [verify] reads from its arguments. *)
Definition authorization_of (payload : PaymentPayload.t) : option UptoEvmAuthorization.t :=
  UptoEvmPayload.authorization (PaymentPayload.payload payload).
Definition payer_of (payload : PaymentPayload.t) : option string :=
  authorization_of payload ≫= UptoEvmAuthorization.from.
Definition spender_of (payload : PaymentPayload.t) (requirements : PaymentRequirements.t)
  : option string :=
  a ← authorization_of payload;
  nullish (UptoEvmAuthorization.to a) (Some (PaymentRequirements.payTo requirements)).
Definition cap_of (payload : PaymentPayload.t) : Z :=
  toBigInt (authorization_of payload ≫= UptoEvmAuthorization.value).
Definition deadline_of (payload : PaymentPayload.t) : Z :=
  toBigInt (authorization_of payload ≫= UptoEvmAuthorization.validBefore).
Definition nonce_of (payload : PaymentPayload.t) : Z :=
  toBigInt (authorization_of payload ≫= UptoEvmAuthorization.nonce).
Definition amount_of (requirements : PaymentRequirements.t) : Z :=
  toBigInt (Some (PaymentRequirements.amount requirements)).
Definition required_max_of (requirements : PaymentRequirements.t) : Z :=
  let extra := PaymentRequirements.extra requirements in
  toBigInt (nullish (field extra "maxAmountRequired") (field extra "maxAmount")).

Definition wellformed (address : option string) : bool :=
  match address with Some a => isAddress a | None => false end.

(** [verify] gets as far as comparing the cap with the amount: the
    checks of scheme, payload, fields, network, EIP-712 domain and
    recipient pass, and the addresses read on the way are well-formed. *)
Definition reaches_amount_check (payload : PaymentPayload.t)
    (requirements : PaymentRequirements.t) : bool :=
  String.eqb (PaymentRequirements.scheme (PaymentPayload.accepted payload)) "upto"
  && String.eqb (PaymentRequirements.scheme requirements) "upto"
  && match authorization_of payload with
     | None => false
     | Some a =>
         truthy (UptoEvmPayload.signature (PaymentPayload.payload payload))
         && truthy (UptoEvmAuthorization.from a)
         && truthy (spender_of payload requirements)
         && truthy (UptoEvmAuthorization.nonce a)
         && truthy (UptoEvmAuthorization.validBefore a)
         && truthy (UptoEvmAuthorization.value a)
         && wellformed (UptoEvmAuthorization.from a)
         && wellformed (spender_of payload requirements)
         && String.eqb (PaymentRequirements.network (PaymentPayload.accepted payload))
                       (PaymentRequirements.network requirements)
         && truthy (field (PaymentRequirements.extra requirements) "name")
         && truthy (field (PaymentRequirements.extra requirements) "version")
         && isAddress (PaymentRequirements.payTo requirements)
         && match spender_of payload requirements with
            | Some spender =>
                String.eqb (checksumAddress spender)
                           (checksumAddress (PaymentRequirements.payTo requirements))
            | None => false
            end
     end.

(** [verify] gets as far as the deadline: moreover the cap covers the
    amount and, when one is set, the required maximum. *)
Definition reaches_deadline_check (payload : PaymentPayload.t)
    (requirements : PaymentRequirements.t) : bool :=
  reaches_amount_check payload requirements
  && negb (cap_of payload <? amount_of requirements)
  && negb ((required_max_of requirements >? 0)
           && (cap_of payload <? required_max_of requirements)).

(** The reasons [verify] gives. *)
Definition verify_tags : list string :=
  [ "unsupported_scheme"; "invalid_upto_evm_payload"; "network_mismatch";
    "missing_eip712_domain"; "recipient_mismatch"; "cap_too_low";
    "cap_below_required_max"; "authorization_expired"; "invalid_chain_id";
    "invalid_permit_signature" ].

(** The reason of a verify response, when it completed with one. *)
Definition verify_reason (c : Completion VerifyResponse.t) : option string :=
  match c with
  | Normal r => VerifyResponse.invalidReason r
  | Throw _ => None
  end.

(** The parsed signature carries a non-zero [v] or a [yParity]. *)
Definition has_v_or_yParity (parsed : ParsedSignature.t) : bool :=
  match ParsedSignature.v parsed with Some n => negb (n =? 0) | None => false end
  || bool_decide (is_Some (ParsedSignature.yParity parsed)).

(** The reason of a settle response, when it completed with one. *)
Definition settle_reason (c : Completion SettleResponse.t) : option string :=
  match c with
  | Normal r => SettleResponse.errorReason r
  | Throw _ => None
  end.
End SchemeNotions.

(** The permit-then-fallback algorithm, step by step as the
    specification words it; each step yields the response, the signer
    calls made and the world reached. *)
Section PermitThenFallback.
Context {W : Type}.
Variable signer : FacilitatorEvmSigner W.
Variables token owner spender payTo network : string.
Variables (cap deadline : Z) (v : option Z) (r s : string) (totalSpent : Z).

(** Call [transferFrom(owner, payTo, totalSpent)] and await the
    receipt: ["invalid_transaction_state"] with the transaction hash
    when its status is not ["success"], ["transaction_failed"] with an
    empty transaction on any throw, success otherwise. *)
Definition transfer_step (made : list SignerCall) (w : W)
  : SettleResponse.t * list SignerCall * W :=
  let request := transferFrom owner payTo totalSpent in
  let made := (made ++ [WriteContract token request])%list in
  match writeContract signer token request w with
  | (Throw _, w1) =>
      (UptoEvmScheme.failed "transaction_failed" "" network (Some owner), made, w1)
  | (Normal tx, w1) =>
      let made := (made ++ [WaitForTransactionReceipt tx])%list in
      match waitForTransactionReceipt signer tx w1 with
      | (Throw _, w2) =>
          (UptoEvmScheme.failed "transaction_failed" "" network (Some owner), made, w2)
      | (Normal receipt, w2) =>
          if String.eqb (TransactionReceipt.status receipt) "success"
          then (SettleResponse.mk true None tx network (Some owner), made, w2)
          else (UptoEvmScheme.failed "invalid_transaction_state" tx network (Some owner),
                made, w2)
      end
  end.

(** Read [allowance(owner, spender)]: ["permit_failed"] when the read
    throws, ["insufficient_allowance"] when it is below [totalSpent],
    the transfer otherwise. *)
Definition allowance_step (made : list SignerCall) (w : W)
  : SettleResponse.t * list SignerCall * W :=
  let request := allowance owner spender in
  let made := (made ++ [ReadContract token request])%list in
  match readContract signer token request w with
  | (Throw _, w1) =>
      (UptoEvmScheme.failed "permit_failed" "" network (Some owner), made, w1)
  | (Normal allowed, w1) =>
      if allowed <? totalSpent
      then (UptoEvmScheme.failed "insufficient_allowance" "" network (Some owner), made, w1)
      else transfer_step made w1
  end.

(** Call [permit(owner, spender, cap, deadline, v, r, s)] and await
    the receipt; fall back on the allowance when either throws. *)
Definition permit_then_fallback (w : W) : SettleResponse.t * list SignerCall * W :=
  let request := permit owner spender cap deadline v r s in
  match writeContract signer token request w with
  | (Throw _, w1) => allowance_step [WriteContract token request] w1
  | (Normal permitTx, w1) =>
      let made := [WriteContract token request; WaitForTransactionReceipt permitTx] in
      match waitForTransactionReceipt signer permitTx w1 with
      | (Throw _, w2) => allowance_step made w2
      | (Normal _, w2) => transfer_step made w2
      end
  end.
End PermitThenFallback.

(** Strings that trimming leaves alone. *)

(** An ASCII character that is no white space: it neither starts nor
    ends a StrWhiteSpaceChar. *)
Definition printable (c : ascii) : bool :=
  let n := N_of_ascii c in
  ((n <? 128) && negb ((9 <=? n) && (n <=? 13)) && negb (n =? 32))%N.

Definition head_is (P : ascii -> bool) (s : string) : bool :=
  match s with
  | String c _ => P c
  | EmptyString => false
  end.

Fixpoint all_are (P : ascii -> bool) (s : string) : bool :=
  match s with
  | String c rest => P c && all_are P rest
  | EmptyString => true
  end.

(** ** More notions *)

(** An optional address that, when given, is well-formed. *)
Definition absent_or_address (x : option string) : bool :=
  negb (truthy x) || wellformed x.

(** Every address [verify] and [settle] may read is well-formed: the
    owner and the spender of the authorization when given, the
    recipient and the asset of the requirements. *)
Definition addresses_wellformed (payload : PaymentPayload.t)
    (requirements : PaymentRequirements.t) : bool :=
  match authorization_of payload with
  | Some a => absent_or_address (UptoEvmAuthorization.from a)
              && absent_or_address (UptoEvmAuthorization.to a)
  | None => true
  end
  && isAddress (PaymentRequirements.payTo requirements)
  && isAddress (PaymentRequirements.asset requirements).

(** The reasons [settle] adds to those of [verify]. *)
Definition settle_tags : list string :=
  [ "unsupported_signature_type"; "insufficient_allowance"; "permit_failed";
    "invalid_transaction_state"; "transaction_failed" ].

(** The contract writes among some signer calls. *)
Definition writes (l : list SignerCall) : list (string * ContractCall) :=
  omap (fun c => match c with
                 | WriteContract address call => Some (address, call)
                 | _ => None
                 end) l.

(** The payload with the [validAfter] of its authorization replaced. *)
Definition with_validAfter (validAfter : option string) (payload : PaymentPayload.t)
  : PaymentPayload.t :=
  PaymentPayload.mk (PaymentPayload.x402Version payload) (PaymentPayload.accepted payload)
    (UptoEvmPayload.mk
       ((fun a => UptoEvmAuthorization.mk (UptoEvmAuthorization.from a)
                    (UptoEvmAuthorization.to a) (UptoEvmAuthorization.value a) validAfter
                    (UptoEvmAuthorization.validBefore a) (UptoEvmAuthorization.nonce a))
          <$> UptoEvmPayload.authorization (PaymentPayload.payload payload))
       (UptoEvmPayload.signature (PaymentPayload.payload payload))).

(** ** part_001: the exact scheme for Starknet, its metadata *)

Module StarknetConfig.
Record t : Type := mk {
  network : string;
  rpcUrl : string;
  paymasterEndpoint : string;
  paymasterApiKey : option string;
  sponsorAddress : option string;
}.
End StarknetConfig.

Module ExactStarknetScheme.

(** [{ paymasterEndpoint, ...(sponsorAddress ? { sponsorAddress } : {}) }];
    with [∪] the keys of the left operand win, as the later keys of an
    object literal do. *)
Definition getExtra (config : StarknetConfig.t) (_network : string)
  : option (gmap string string) :=
  Some ((match StarknetConfig.sponsorAddress config with
         | Some sponsor =>
             if truthy (Some sponsor) then {[ "sponsorAddress" := sponsor ]} else ∅
         | None => ∅
         end)
        ∪ {[ "paymasterEndpoint" := StarknetConfig.paymasterEndpoint config ]}).

Definition getSigners (config : StarknetConfig.t) (_network : string) : list string :=
  match StarknetConfig.sponsorAddress config with
  | Some sponsor => if truthy (Some sponsor) then [sponsor] else []
  | None => []
  end.

End ExactStarknetScheme.

(** ** examples/smokeClient.ts: the client's permit cache *)

Module PaymentRequired.
(** [resource] and [extensions], which the client copies into the
    payload as they are, are left out, as in [PaymentPayload.t]. *)
Record t : Type := mk {
  x402Version : Z;
  accepts : list PaymentRequirements.t;
}.
End PaymentRequired.

Module PermitCacheEntry.
Record t : Type := mk {
  paymentPayload : PaymentPayload.t;
  cap : Z;
  deadline : Z;
}.
End PermitCacheEntry.

(** The EIP-712 Permit the account signs; [types] and [primaryType] are
    the constant Permit schema. *)
Module Permit.
Record t : Type := mk {
  domain_name : option string;
  domain_version : option string;
  domain_chainId : number;
  domain_verifyingContract : string;
  message_owner : string;
  message_spender : string;
  message_value : Z;
  message_nonce : Z;
  message_deadline : Z;
}.
End Permit.

Module SmokeClient.

Definition Error (message : string) : Thrown := ThrownError "Error" message.
Definition SyntaxError (message : string) : Thrown := ThrownError "SyntaxError" message.

(** [BigInt(s)] for a string, with its SyntaxError. *)
Definition BigInt (s : string) : Completion Z :=
  match BigInt_of_string s with
  | Some n => Normal n
  | None => Throw (SyntaxError "Cannot convert to a BigInt")
  end.

(** [parts.join(":")], an [undefined] part printing as the empty string. *)
Definition join (sep : string) (parts : list (option string)) : string :=
  String.concat sep (map (default "") parts).

(** The calls the client makes to its account and to the chain. *)
Inductive ClientCall : Type :=
| ReadNonces (asset owner : string)
| SignTypedData (request : Permit.t).

(** The viem account ([privateKeyToAccount]) and the public client,
    over a world [W]; [nonces] is [readContract] with [noncesAbi]. *)
Record Account (W : Type) : Type := {
  address : string;
  signTypedData : Permit.t -> W -> Completion string * W;
}.
Arguments address {W} _.
Arguments signTypedData {W} _ _ _.

Record PublicClient (W : Type) : Type := {
  nonces : string -> string -> W -> Completion Z * W;
}.
Arguments nonces {W} _ _ _ _.

(** The state of the script: the world, the module-level [permitCache]
    and the calls made so far, oldest first. *)
Record Client (W : Type) : Type := {
  outside : W;
  permitCache : gmap string PermitCacheEntry.t;
  made : list ClientCall;
}.
Arguments outside {W} _.
Arguments permitCache {W} _.
Arguments made {W} _.

Section WithAccount.
Context {W : Type} `{Host W}.
Variable account : Account W.
Variable publicClient : PublicClient W.
(** [Math.floor(ms / 1000 + seconds)], computed on doubles. *)
Variable seconds_after : Z -> number -> number.

Definition now_ms : M (Client W) Z := fun st =>
  let (ms, w) := Date_now (outside st) in
  (Normal ms, {| outside := w; permitCache := permitCache st; made := made st |}).

Definition call {A} (c : ClientCall) (f : W -> Completion A * W) : M (Client W) A := fun st =>
  let (a, w) := f (outside st) in
  (a, {| outside := w; permitCache := permitCache st; made := made st ++ [c] |}).

Definition cache_get (key : string) : M (Client W) (option PermitCacheEntry.t) := fun st =>
  (Normal (permitCache st !! key), st).

Definition cache_set (key : string) (entry : PermitCacheEntry.t) : M (Client W) unit := fun st =>
  (Normal tt, {| outside := outside st;
                 permitCache := <[key := entry]> (permitCache st);
                 made := made st |}).

Definition getCacheKey (req : PaymentRequirements.t) : M (Client W) string :=
  let chainId := nth_error (split ":" (PaymentRequirements.network req)) 1 in
  asset ← lift (getAddress (Some (PaymentRequirements.asset req)));
  payer ← lift (getAddress (Some (address account)));
  payTo ← lift (getAddress (Some (PaymentRequirements.payTo req)));
  mret (join ":" [chainId; Some asset; Some payer; Some payTo]).

Definition createUptoPaymentPayload (paymentRequired : PaymentRequired.t)
  : M (Client W) PaymentPayload.t :=
  match find (fun r => String.eqb (PaymentRequirements.scheme r) "upto")
             (PaymentRequired.accepts paymentRequired) with
  | None => throw (Error "No upto requirement in accepts")
  | Some requirement =>
  let extra := PaymentRequirements.extra requirement in
  let name := field extra "name" in
  let version := field extra "version" in
  maxAmountRequired ← lift (BigInt (default (PaymentRequirements.amount requirement)
                                            (field extra "maxAmountRequired")));
  if negb (truthy name) || negb (truthy version)
  then throw (Error "Requirement missing ERC-2612 domain name/version")
  else
  key ← getCacheKey requirement;
  cached ← cache_get key;
  ms ← now_ms;
  let nowSec := ms / 1000 in
  match (match cached with
         | Some entry =>
             if (PermitCacheEntry.deadline entry >? nowSec + 30)
                && (PermitCacheEntry.cap entry >=? maxAmountRequired)
             then Some (PermitCacheEntry.paymentPayload entry)
             else None
         | None => None
         end) with
  | Some paymentPayload => mret paymentPayload
  | None =>
  owner ← lift (getAddress (Some (address account)));
  spender ← lift (getAddress (Some (PaymentRequirements.payTo requirement)));
  asset ← lift (getAddress (Some (PaymentRequirements.asset requirement)));
  let chainId :=
    Number (nth_error (split ":" (PaymentRequirements.network requirement)) 1) in
  nonce ← call (ReadNonces asset owner) (nonces publicClient asset owner);
  ms ← now_ms;
  deadline ← lift (BigInt_of_number
                     (seconds_after ms (PaymentRequirements.maxTimeoutSeconds requirement)));
  let request :=
    Permit.mk name version chainId asset owner spender maxAmountRequired nonce deadline in
  signature ← call (SignTypedData request) (signTypedData account request);
  let paymentPayload :=
    PaymentPayload.mk (PaymentRequired.x402Version paymentRequired) requirement
      (UptoEvmPayload.mk
         (Some (UptoEvmAuthorization.mk (Some owner) (Some spender)
                  (Some (toString maxAmountRequired)) None
                  (Some (toString deadline)) (Some (toString nonce))))
         (Some signature)) in
  _ ← cache_set key (PermitCacheEntry.mk paymentPayload maxAmountRequired deadline);
  mret paymentPayload
  end
  end.

End WithAccount.
End SmokeClient.

(** The Permit a verification request is about. *)
Definition permit_of (request : PermitTypedData.t) : Permit.t :=
  Permit.mk (PermitTypedData.domain_name request) (PermitTypedData.domain_version request)
    (PermitTypedData.domain_chainId request)
    (PermitTypedData.domain_verifyingContract request)
    (PermitTypedData.message_owner request) (PermitTypedData.message_spender request)
    (PermitTypedData.message_value request) (PermitTypedData.message_nonce request)
    (PermitTypedData.message_deadline request).

(** A client for the scenarios: an account that signs anything, a
    token whose nonces are all zero, a clock in whole seconds. *)
Module SmokeScenario.
Import Scenario.

Definition wallet : SmokeClient.Account Sim := {|
  SmokeClient.address := alice;
  SmokeClient.signTypedData _ w := (Normal "0xsigned", w);
|}.

Definition chain : SmokeClient.PublicClient Sim := {|
  SmokeClient.nonces _ _ w := (Normal 0, w);
|}.

Definition whole_seconds_after (ms : Z) (seconds : number) : number :=
  match seconds with
  | finite q => finite (inject_Z (ms / 1000) + q)
  | other => other
  end.

Definition offer : PaymentRequired.t := PaymentRequired.mk 2 [requirement "250000"].

Definition idle (w : Sim) : SmokeClient.Client Sim :=
  {| SmokeClient.outside := w; SmokeClient.permitCache := ∅; SmokeClient.made := [] |}.

(** The payload the client builds at [sunny]: now + 300 seconds. *)
Definition signed_offer : PaymentPayload.t :=
  PaymentPayload.mk 2 (requirement "250000")
    (UptoEvmPayload.mk (Some (authorized alice merchant "250000" "1700000300"))
       (Some "0xsigned")).

End SmokeScenario.

(** * Properties *)

(** ** Trimming: the fuel of [strip_all] is enough *)

Lemma strip_prefix_length t s rest :
  strip_prefix t s = Some rest ->
  String.length s = (String.length t + String.length rest)%nat.
Proof.
  revert s. induction t as [|a t IH]; intros s; cbn.
  - intros [= ->]. reflexivity.
  - destruct s as [|b s]; [discriminate|].
    destruct (Ascii.eqb a b); [|discriminate].
    intros Hrest. cbn. rewrite (IH _ Hrest). reflexivity.
Qed.

Lemma strip_one_shorter tokens s rest :
  Forall (fun t => t <> "") tokens ->
  strip_one tokens s = Some rest ->
  (String.length rest < String.length s)%nat.
Proof.
  induction 1 as [|t tokens Ht _ IH]; cbn; [discriminate|].
  destruct (strip_prefix t s) as [rest'|] eqn:Hstrip; [|exact IH].
  intros [= ->]. apply strip_prefix_length in Hstrip.
  destruct t; [congruence|]. cbn in Hstrip. lia.
Qed.

Lemma strip_all_done tokens fuel s :
  Forall (fun t => t <> "") tokens ->
  (String.length s <= fuel)%nat ->
  strip_one tokens (strip_all fuel tokens s) = None.
Proof.
  intros Htokens. revert s. induction fuel as [|fuel IH]; intros s Hfuel; cbn.
  - destruct s; [|cbn in Hfuel; lia].
    clear Hfuel. induction Htokens as [|t tokens Ht _ IHt]; cbn; [reflexivity|].
    destruct t; [congruence | exact IHt].
  - destruct (strip_one tokens s) as [rest|] eqn:Hone; [|exact Hone].
    apply IH. apply strip_one_shorter in Hone; [lia | exact Htokens].
Qed.

(** What [trimStart] returns starts with no white space. *)
Lemma trimStart_done s : strip_one StrWhiteSpaceChar (trimStart s) = None.
Proof.
  apply strip_all_done; [|reflexivity].
  repeat constructor; discriminate.
Qed.

Lemma rev_app_length s acc :
  String.length (String.rev_app s acc) = (String.length s + String.length acc)%nat.
Proof.
  revert acc. induction s as [|a s IH]; intros acc; cbn; [reflexivity|].
  rewrite IH. cbn. lia.
Qed.

(** ** Decimal strings: [toBigInt] reads back what [toString] prints *)

Lemma strip_one_printable s :
  head_is printable s = true ->
  strip_one StrWhiteSpaceChar s = None /\
  strip_one (map String.rev StrWhiteSpaceChar) s = None.
Proof.
  destruct s as [|c rest]; [discriminate|]. cbn [head_is].
  destruct c as [[] [] [] [] [] [] [] []]; intros Hc; vm_compute in Hc;
    try discriminate Hc; split; vm_compute; reflexivity.
Qed.

Lemma strip_all_unchanged fuel tokens s :
  strip_one tokens s = None -> strip_all fuel tokens s = s.
Proof. intros Hone. destruct fuel; cbn; [|rewrite Hone]; reflexivity. Qed.

Lemma rev_app_rev_app s acc acc' :
  String.rev_app (String.rev_app s acc) acc' = String.rev_app acc (s ++ acc').
Proof.
  revert acc acc'. induction s as [|a s IH]; intros acc acc'; [reflexivity|].
  cbn [String.rev_app]. rewrite IH. reflexivity.
Qed.

Lemma string_app_empty (s : string) : s ++ "" = s.
Proof. induction s as [|a s IH]; [reflexivity|]. change (String a (s ++ "") = String a s). rewrite IH. reflexivity. Qed.

Lemma rev_rev s : String.rev (String.rev s) = s.
Proof.
  unfold String.rev. rewrite rev_app_rev_app. cbn [String.rev_app].
  apply string_app_empty.
Qed.

(** What [trimEnd] returns ends with no white space. *)
Lemma trimEnd_done s :
  strip_one (map String.rev StrWhiteSpaceChar) (String.rev (trimEnd s)) = None.
Proof.
  unfold trimEnd. rewrite rev_rev.
  apply strip_all_done.
  - repeat constructor; discriminate.
  - unfold String.rev. rewrite rev_app_length. cbn. lia.
Qed.

Lemma head_rev_app P s acc :
  all_are P s = true ->
  s <> "" \/ head_is P acc = true ->
  head_is P (String.rev_app s acc) = true.
Proof.
  revert acc. induction s as [|a s IH]; intros acc Hall Hhead; cbn.
  - destruct Hhead as [Hne|Hacc]; [congruence | exact Hacc].
  - cbn in Hall. apply andb_true_iff in Hall as [Ha Hall].
    apply IH; [exact Hall | right; exact Ha].
Qed.

(** Trimming leaves alone a string of printable characters. *)
Lemma trim_printable s :
  s <> "" -> all_are printable s = true -> trim s = s.
Proof.
  intros Hne Hall. unfold trim, trimStart, trimEnd.
  assert (Hhead : head_is printable s = true)
    by (destruct s; [congruence | cbn in *; apply andb_true_iff in Hall; tauto]).
  rewrite (strip_all_unchanged (String.length s) StrWhiteSpaceChar s
             (proj1 (strip_one_printable s Hhead))).
  assert (Hlast : head_is printable (String.rev s) = true)
    by (apply head_rev_app; [exact Hall | left; exact Hne]).
  rewrite (strip_all_unchanged (String.length s) (map String.rev StrWhiteSpaceChar)
             (String.rev s) (proj2 (strip_one_printable _ Hlast))).
  apply rev_rev.
Qed.

Lemma string_of_uint_printable d :
  all_are printable (NilEmpty.string_of_uint d) = true.
Proof. induction d; cbn [NilEmpty.string_of_uint all_are]; try rewrite IHd; reflexivity. Qed.

Lemma digits_value_uint_acc d acc :
  digits_value 10 (Z.pos acc) (NilEmpty.string_of_uint d)
    = Some (Z.pos (Pos.of_uint_acc d acc)).
Proof.
  revert acc. induction d; intros acc; cbn [NilEmpty.string_of_uint digits_value Pos.of_uint_acc];
    [reflexivity|..];
    change (digit_value _) with (Some 0) || change (digit_value _) with (Some 1)
    || change (digit_value _) with (Some 2) || change (digit_value _) with (Some 3)
    || change (digit_value _) with (Some 4) || change (digit_value _) with (Some 5)
    || change (digit_value _) with (Some 6) || change (digit_value _) with (Some 7)
    || change (digit_value _) with (Some 8) || change (digit_value _) with (Some 9);
    cbn [Z.ltb Z.compare Pos.compare Pos.compare_cont];
    rewrite <- IHd; f_equal; lia.
Qed.

Lemma digits_value_uint d :
  digits_value 10 0 (NilEmpty.string_of_uint d) = Some (Z.of_uint d).
Proof.
  unfold Z.of_uint.
  induction d; cbn [NilEmpty.string_of_uint digits_value Pos.of_uint];
    [reflexivity|..];
    change (digit_value _) with (Some 0) || change (digit_value _) with (Some 1)
    || change (digit_value _) with (Some 2) || change (digit_value _) with (Some 3)
    || change (digit_value _) with (Some 4) || change (digit_value _) with (Some 5)
    || change (digit_value _) with (Some 6) || change (digit_value _) with (Some 7)
    || change (digit_value _) with (Some 8) || change (digit_value _) with (Some 9);
    cbn [Z.ltb Z.compare Pos.compare Pos.compare_cont Z.mul Z.add];
    [exact IHd | apply digits_value_uint_acc ..].
Qed.

Lemma BigInt_of_string_uint d :
  d <> Decimal.Nil ->
  BigInt_of_string (NilEmpty.string_of_uint d) = Some (Z.of_uint d) /\
  BigInt_of_string (String "-" (NilEmpty.string_of_uint d)) = Some (- Z.of_uint d).
Proof.
  intros Hne.
  assert (Hs : NilEmpty.string_of_uint d <> "") by (destruct d; [congruence|discriminate..]).
  pose proof (string_of_uint_printable d) as Hall.
  pose proof (digits_value_uint d) as Hdigits.
  unfold BigInt_of_string. split.
  - rewrite trim_printable by assumption.
    destruct d as [|d'|d'|d'|d'|d'|d'|d'|d'|d'|d']; [congruence|..];
      cbn [NilEmpty.string_of_uint] in *;
      [destruct d'; cbn [NilEmpty.string_of_uint] in * |..];
      lazy beta iota; unfold digits; exact Hdigits.
  - rewrite trim_printable; [|discriminate|cbn [all_are]; rewrite Hall; reflexivity].
    lazy beta iota. unfold digits.
    destruct (NilEmpty.string_of_uint d) eqn:E; [congruence|].
    rewrite Hdigits. reflexivity.
Qed.

Lemma toBigInt_parsed s n :
  s <> "" -> BigInt_of_string s = Some n -> toBigInt (Some s) = n.
Proof.
  intros Hne Hparse. unfold toBigInt, truthy. rewrite Hparse.
  destruct s; [congruence | reflexivity].
Qed.

Lemma string_of_uint_nonempty d :
  d <> Decimal.Nil ->
  NilEmpty.string_of_uint d <> "" /\
  NilZero.string_of_uint d = NilEmpty.string_of_uint d.
Proof. destruct d; [congruence | split; [discriminate | reflexivity] ..]. Qed.

(** The amount the orchestrator prints is the amount the scheme reads. *)
Lemma toBigInt_toString n : toBigInt (Some (toString n)) = n.
Proof.
  unfold toString.
  destruct n as [|p|p]; [reflexivity|..]; cbn [Z.to_int NilZero.string_of_int];
    pose proof (Unsigned.to_uint_nonnil p) as Hne;
    destruct (BigInt_of_string_uint _ Hne) as [Hpos Hneg];
    destruct (string_of_uint_nonempty _ Hne) as [Hs ->];
    unfold Z.of_uint in Hpos, Hneg; rewrite DecimalPos.Unsigned.of_to in Hpos, Hneg.
  - apply toBigInt_parsed; assumption.
  - apply toBigInt_parsed; [discriminate | exact Hneg].
Qed.



(** ** The settlement orchestrator *)

Section Orchestrator.
Context {W : Type} `{Host W}.
Variable client : UptoFacilitatorClient.t W.

Lemma settleUptoSession_absent st id reason closeAfter buf :
  store st !! id = None ->
  Settlement.settleUptoSession client id reason closeAfter buf st = (Normal tt, st).
Proof.
  intros Hget. unfold Settlement.settleUptoSession, Settlement.store_get, mbind, M_bind.
  rewrite Hget. reflexivity.
Qed.

Lemma settleUptoSession_not_open st id reason closeAfter buf s :
  store st !! id = Some s ->
  Session.status s <> Session.open ->
  Settlement.settleUptoSession client id reason closeAfter buf st = (Normal tt, st).
Proof.
  intros Hget Hst. unfold Settlement.settleUptoSession, Settlement.store_get, mbind, M_bind.
  rewrite Hget. destruct (Session.status s); [congruence | reflexivity | reflexivity].
Qed.

(** Nothing pending: the session is closed when asked to, and left
    alone otherwise. *)
Lemma settleUptoSession_idle st id reason closeAfter buf s :
  store st !! id = Some s ->
  Session.status s = Session.open ->
  Session.pendingSpent s <= 0 ->
  Settlement.settleUptoSession client id reason closeAfter buf st =
    if default false closeAfter
    then (Normal tt, {| store := <[id := Session.set_status Session.closed s]> (store st);
                        outside := outside st;
                        effects := effects st ++ [StoreSet id (Session.set_status Session.closed s)] |})
    else (Normal tt, st).
Proof.
  intros Hget Hopen Hle.
  unfold Settlement.settleUptoSession, Settlement.store_get, mbind, M_bind.
  rewrite Hget, Hopen. cbn [Session.Status_eqb negb].
  destruct (Z.leb_spec (Session.pendingSpent s) 0) as [_|Hlt]; [|lia].
  destruct (default false closeAfter); reflexivity.
Qed.

(** A settlement attempt, step by step: the lock, the call, the
    receipt, the two readings of the clock and the final write. *)
Lemma settleUptoSession_attempt st id reason closeAfter buf s c w1 atMs w2 ms w3 :
  store st !! id = Some s ->
  Session.status s = Session.open ->
  0 < Session.pendingSpent s ->
  UptoFacilitatorClient.settle client (Session.paymentPayload s)
    (PaymentRequirements.with_amount (Session.paymentRequirements s)
       (toString (Session.pendingSpent s))) (outside st) = (c, w1) ->
  Date_now w1 = (atMs, w2) ->
  Date_now w2 = (ms, w3) ->
  let s1 := Session.set_status Session.settling s in
  let receipt := receipt_of s c in
  let s2 := Session.set_lastSettlement (LastSettlement.mk atMs reason receipt)
              (credited receipt s1) in
  let asked := ClientSettle (Session.paymentPayload s)
                 (PaymentRequirements.with_amount (Session.paymentRequirements s)
                    (toString (Session.pendingSpent s))) in
  Settlement.settleUptoSession client id reason closeAfter buf st =
    match close_test (default false closeAfter) (default (finite (60 # 1)) buf) s2 (ms / 1000) with
    | Normal closing =>
        let s3 := Session.set_status (if closing then Session.closed else Session.open) s2 in
        (Normal tt, {| store := <[id := s3]> (<[id := s1]> (store st));
                       outside := w3;
                       effects := effects st ++ [StoreSet id s1; asked; StoreSet id s3] |})
    | Throw e =>
        (Throw e, {| store := <[id := s1]> (store st);
                     outside := w3;
                     effects := effects st ++ [StoreSet id s1; asked] |})
    end.
Proof.
  intros Hget Hopen Hpos Hcall Hat Hms s1 receipt s2 asked.
  unfold Settlement.settleUptoSession, Settlement.store_get, mbind, M_bind.
  rewrite Hget, Hopen. cbn [Session.Status_eqb negb].
  destruct (Z.leb_spec (Session.pendingSpent s) 0) as [Hle|_]; [lia|].
  unfold Settlement.store_set at 1.
  unfold try_catch, Settlement.client_settle.
  cbn [store outside effects Session.paymentPayload Session.set_status
       Session.paymentRequirements Session.pendingSpent].
  rewrite Hcall.
  subst s1 receipt s2 asked.
  unfold close_test, Settlement.now_ms, Settlement.store_set, lift, mret, M_ret.
  destruct c as [r|e]; cbn [store outside effects receipt_of]; rewrite Hat;
    cbn [store outside effects]; rewrite Hms; cbn [store outside effects];
    destruct (default false closeAfter); cbn [store outside effects];
    rewrite <- ?app_assoc; try reflexivity.
  all: unfold credited; cbn [Session.pendingSpent Session.set_status].
  all: match goal with |- context [Z.geb ?a ?b] => destruct (Z.geb a b) end.
  all: try destruct (BigInt_of_number _).
  all: cbn [store outside effects]; rewrite <- ?app_assoc; reflexivity.
Qed.

(** What an attempt leaves in the store under the session's id,
    whether or not the call then completes. *)
Lemma credited_sum receipt s :
  Session.cap (credited receipt s) = Session.cap s /\
  Session.settledTotal (credited receipt s) + Session.pendingSpent (credited receipt s)
    = Session.settledTotal s + Session.pendingSpent s.
Proof. unfold credited. destruct (SettleResponse.success receipt); cbn; lia. Qed.

(** The session the orchestrator holds satisfies the invariant after
    each of its assignments, so a store that hands out the stored
    object itself never shows a session that breaks it. *)
Lemma assignments_keep_cap_invariant s receipt last status :
  cap_invariant s ->
  cap_invariant (Session.set_status Session.settling s) /\
  cap_invariant (credited receipt (Session.set_status Session.settling s)) /\
  cap_invariant (Session.set_status status
                   (Session.set_lastSettlement last
                      (credited receipt (Session.set_status Session.settling s)))).
Proof.
  intros Hinv.
  pose proof (credited_sum receipt (Session.set_status Session.settling s)) as [Hcap Hsum].
  unfold cap_invariant in *. cbn in *. lia.
Qed.

Lemma settleUptoSession_other st id reason closeAfter buf sid :
  sid <> id ->
  store (snd (Settlement.settleUptoSession client id reason closeAfter buf st)) !! sid = store st !! sid.
Proof.
  intros Hne.
  destruct (store st !! id) as [s|] eqn:Hget;
    [|rewrite settleUptoSession_absent by assumption; reflexivity].
  destruct (decide (Session.status s = Session.open)) as [Hopen|Hopen];
    [|rewrite (settleUptoSession_not_open _ _ _ _ _ s) by assumption; reflexivity].
  destruct (Z_lt_le_dec 0 (Session.pendingSpent s)) as [Hpos|Hle].
  - destruct (UptoFacilitatorClient.settle client (Session.paymentPayload s)
                (PaymentRequirements.with_amount (Session.paymentRequirements s)
                   (toString (Session.pendingSpent s))) (outside st)) as [c w1] eqn:Hcall.
    destruct (Date_now w1) as [atMs w2] eqn:Hat.
    destruct (Date_now w2) as [ms w3] eqn:Hms.
    rewrite (settleUptoSession_attempt _ _ _ _ _ _ _ _ _ _ _ _ Hget Hopen Hpos Hcall Hat Hms).
    destruct (close_test _ _ _ _); cbn [snd store];
      rewrite ?lookup_insert_ne by congruence; reflexivity.
  - rewrite (settleUptoSession_idle _ _ _ _ _ s) by assumption.
    destruct (default false closeAfter); cbn [snd store];
      rewrite ?lookup_insert_ne by congruence; reflexivity.
Qed.

(** C1.  The cap invariant is preserved: a session of the store that
    satisfies [settledTotal + pendingSpent <= cap] before a call of
    [settleUptoSession] is still in the store after it, with the same
    cap and the same sum of settled and pending amounts, so that the
    invariant still holds; this is so whatever the client answers and
    however the call ends. *)
Theorem settleUptoSession_preserves_cap_invariant st id reason closeAfter buf sid s :
  store st !! sid = Some s ->
  cap_invariant s ->
  exists s',
    store (snd (Settlement.settleUptoSession client id reason closeAfter buf st)) !! sid = Some s' /\
    Session.cap s' = Session.cap s /\
    Session.settledTotal s' + Session.pendingSpent s'
      = Session.settledTotal s + Session.pendingSpent s /\
    cap_invariant s'.
Proof.
  intros Hget Hinv.
  destruct (decide (sid = id)) as [->|Hne];
    [|exists s; rewrite settleUptoSession_other by assumption; auto].
  destruct (decide (Session.status s = Session.open)) as [Hopen|Hopen];
    [|exists s; rewrite (settleUptoSession_not_open _ _ _ _ _ s) by assumption; auto].
  destruct (Z_lt_le_dec 0 (Session.pendingSpent s)) as [Hpos|Hle].
  - destruct (UptoFacilitatorClient.settle client (Session.paymentPayload s)
                (PaymentRequirements.with_amount (Session.paymentRequirements s)
                   (toString (Session.pendingSpent s))) (outside st)) as [c w1] eqn:Hcall.
    destruct (Date_now w1) as [atMs w2] eqn:Hat.
    destruct (Date_now w2) as [ms w3] eqn:Hms.
    rewrite (settleUptoSession_attempt _ _ _ _ _ _ _ _ _ _ _ _ Hget Hopen Hpos Hcall Hat Hms).
    pose proof (credited_sum (receipt_of s c) (Session.set_status Session.settling s))
      as [Hcap Hsum].
    unfold cap_invariant in *.
    destruct (close_test _ _ _ _); cbn [snd store]; rewrite lookup_insert_eq;
      eexists; (split; [reflexivity|]); cbn in *; lia.
  - rewrite (settleUptoSession_idle _ _ _ _ _ s) by assumption.
    destruct (default false closeAfter); cbn [snd store].
    + rewrite lookup_insert_eq. eexists; split; [reflexivity|]. cbn. auto.
    + exists s; auto.
Qed.



(** C4.  Only an open session is touched: when the id is absent from
    the store, or the session under it has a status other than
    [open] ([closed] or [settling]), [settleUptoSession] returns and
    leaves everything as it was: no write to the store, no call of
    the client, no field of any session changed. *)
Theorem settleUptoSession_noop_unless_open st id reason closeAfter buf :
  (store st !! id = None \/
   exists s, store st !! id = Some s /\ Session.status s <> Session.open) ->
  Settlement.settleUptoSession client id reason closeAfter buf st = (Normal tt, st).
Proof.
  intros [Habsent | (s & Hget & Hst)].
  - apply settleUptoSession_absent; assumption.
  - apply (settleUptoSession_not_open _ _ _ _ _ s); assumption.
Qed.


End Orchestrator.

(** ** The upto scheme *)

(** One step of a run of [verify] or [settle] kept in hypothesis [H]:
    case analysis on the outermost test. *)
Ltac step_in H :=
  match type of H with
  | (if ?c then _ else _) _ = _ => destruct c eqn:?
  | (if ?c then _ else _) = _ => destruct c eqn:?
  | (match ?o with Some _ => _ | None => _ end) _ = _ => destruct o eqn:?
  | (match ?o with Some _ => _ | None => _ end) = _ => destruct o eqn:?
  | (match ?c with Normal _ => _ | Throw _ => _ end) _ = _ => destruct c eqn:?
  | (match ?c with Normal _ => _ | Throw _ => _ end) = _ => destruct c eqn:?
  | context [UptoEvmScheme.verify ?s ?p ?r ?st] =>
      destruct (UptoEvmScheme.verify s p r st) as [[|] ?] eqn:?
  | context [Date_now ?w] => destruct (Date_now w) eqn:?
  | context [verifyTypedData ?s ?x ?w] => destruct (verifyTypedData s x w) as [[|] ?] eqn:?
  | context [readContract ?s ?a ?x ?w] => destruct (readContract s a x w) as [[|] ?] eqn:?
  | context [writeContract ?s ?a ?x ?w] => destruct (writeContract s a x w) as [[|] ?] eqn:?
  | context [waitForTransactionReceipt ?s ?x ?w] =>
      destruct (waitForTransactionReceipt s x w) as [[|] ?] eqn:?
  | context [match ?c with Normal _ => _ | Throw _ => _ end] => destruct c eqn:?
  | context [match ?o with Some _ => _ | None => _ end] => destruct o eqn:?
  | context [if ?c then _ else _] => destruct c eqn:?
  end; cbn beta iota in H.

(** Splits boolean equations into the facts they stand for. *)
Ltac bool_facts :=
  repeat match goal with
    | E : _ || _ = false |- _ => apply orb_false_iff in E; destruct E
    | E : _ && _ = true |- _ => apply andb_true_iff in E; destruct E
    | E : negb _ = false |- _ => apply negb_false_iff in E
    | E : negb _ = true |- _ => apply negb_true_iff in E
    end.

Section Scheme.
Context {W : Type} `{Host W}.
Variable signer : FacilitatorEvmSigner W.

(** [getAddress] answers exactly on the well-formed addresses. *)
Lemma getAddress_Normal address a :
  getAddress address = Normal a ->
  exists s, address = Some s /\ isAddress s = true /\ a = checksumAddress s.
Proof.
  unfold getAddress. destruct address as [s|]; [|discriminate].
  destruct (isAddress s) eqn:E; [|discriminate].
  intros [= <-]. eauto.
Qed.

Lemma getAddress_wellformed address :
  wellformed address = true ->
  exists s, address = Some s /\ getAddress address = Normal (checksumAddress s).
Proof.
  unfold getAddress, wellformed. destruct address as [s|]; [|discriminate].
  intros ->. eauto.
Qed.

Lemma getAddress_isAddress s :
  isAddress s = true -> getAddress (Some s) = Normal (checksumAddress s).
Proof. unfold getAddress. intros ->. reflexivity. Qed.

(** A valid verification has passed every check; its response is the
    valid one, with the payer. *)
Lemma verify_valid_inv payload requirements st r st' :
  UptoEvmScheme.verify signer payload requirements st = (Normal r, st') ->
  VerifyResponse.isValid r = true ->
  reaches_deadline_check payload requirements = true /\
  isAddress (PaymentRequirements.asset requirements) = true /\
  r = VerifyResponse.mk true None (payer_of payload).
Proof.
  intros Hrun Hvalid.
  unfold UptoEvmScheme.verify, UptoEvmScheme.invalid in Hrun.
  unfold mbind, M_bind, mret, M_ret, lift, throw, try_catch in Hrun.
  unfold reaches_deadline_check, reaches_amount_check, spender_of, payer_of, cap_of, 
    amount_of, required_max_of, authorization_of.
  unfold UptoEvmScheme.now_ms, UptoEvmScheme.call in Hrun.
  repeat (step_in Hrun; try (injection Hrun as <- <-; discriminate Hvalid); try discriminate Hrun).
  injection Hrun as <- <-.
  bool_facts.
  repeat match goal with
    | E : getAddress _ = Normal _ |- _ =>
        apply getAddress_Normal in E; destruct E as (? & ? & ? & ?)
    end.
  simplify_eq.
  split; [|split; [assumption | reflexivity]].
  cbn [mbind option_bind].
  repeat match goal with
    | E : _ = true |- _ => rewrite E
    | E : _ = false |- _ => rewrite E
    end.
  repeat match goal with E : _ = Some _ |- _ => rewrite E end.
  cbn [wellformed].
  repeat match goal with E : _ = true |- _ => rewrite E end.
  reflexivity.
Qed.

(** An invalid verification carries one of the reasons of [verify]. *)
Lemma verify_invalid_tag payload requirements st r st' :
  UptoEvmScheme.verify signer payload requirements st = (Normal r, st') ->
  VerifyResponse.isValid r = false ->
  exists tag, VerifyResponse.invalidReason r = Some tag /\ In tag verify_tags.
Proof.
  intros Hrun Hinvalid.
  unfold UptoEvmScheme.verify, UptoEvmScheme.invalid in Hrun.
  unfold mbind, M_bind, mret, M_ret, lift, throw, try_catch in Hrun.
  unfold UptoEvmScheme.now_ms, UptoEvmScheme.call in Hrun.
  repeat (step_in Hrun;
          try discriminate Hrun;
          try (injection Hrun as <- <-;
               first [ cbn in Hinvalid; discriminate Hinvalid
                     | eexists; split; [reflexivity|]; cbn; tauto ])).
Qed.

(** The only exception [verify] lets through is the one [getAddress]
    raises on a malformed address: what the signer throws is caught. *)
Lemma verify_throw_inv payload requirements st e st' :
  UptoEvmScheme.verify signer payload requirements st = (Throw e, st') ->
  e = InvalidAddressError.
Proof.
  intros Hrun.
  unfold UptoEvmScheme.verify, UptoEvmScheme.invalid in Hrun.
  unfold mbind, M_bind, mret, M_ret, lift, throw, try_catch in Hrun.
  unfold UptoEvmScheme.now_ms, UptoEvmScheme.call in Hrun.
  repeat (step_in Hrun;
          try discriminate Hrun;
          try (injection Hrun as <- <-;
               match goal with E : getAddress ?x = Throw _ |- _ =>
                 unfold getAddress in E; repeat case_match; congruence end)).
Qed.

(** What a valid verification says about the amounts. *)
Lemma reaches_deadline_check_cap payload requirements :
  reaches_deadline_check payload requirements = true ->
  amount_of requirements <= cap_of payload.
Proof.
  unfold reaches_deadline_check. intros Hreach. bool_facts.
  match goal with E : (_ <? _) = false |- _ => apply Z.ltb_ge in E end. assumption.
Qed.

(** A run of [verify] that reaches the amount checks, brought to
    that point. *)
Lemma reaches_amount_check_facts payload requirements :
  reaches_amount_check payload requirements = true ->
  exists a owner spender,
    authorization_of payload = Some a /\
    UptoEvmAuthorization.from a = Some owner /\
    nullish (UptoEvmAuthorization.to a) (Some (PaymentRequirements.payTo requirements))
      = Some spender /\
    (PaymentRequirements.scheme (PaymentPayload.accepted payload) =? "upto")%string = true /\
    (PaymentRequirements.scheme requirements =? "upto")%string = true /\
    truthy (UptoEvmPayload.signature (PaymentPayload.payload payload)) = true /\
    truthy (Some owner) = true /\
    truthy (Some spender) = true /\
    truthy (UptoEvmAuthorization.nonce a) = true /\
    truthy (UptoEvmAuthorization.validBefore a) = true /\
    truthy (UptoEvmAuthorization.value a) = true /\
    isAddress owner = true /\
    isAddress spender = true /\
    (PaymentRequirements.network (PaymentPayload.accepted payload)
       =? PaymentRequirements.network requirements)%string = true /\
    truthy (field (PaymentRequirements.extra requirements) "name") = true /\
    truthy (field (PaymentRequirements.extra requirements) "version") = true /\
    isAddress (PaymentRequirements.payTo requirements) = true /\
    (checksumAddress spender
       =? checksumAddress (PaymentRequirements.payTo requirements))%string = true.
Proof.
  unfold reaches_amount_check, spender_of. intros Hreach.
  destruct (authorization_of payload) as [a|] eqn:Ha;
    [|rewrite andb_false_r in Hreach; discriminate].
  cbn [mbind option_bind] in Hreach.
  bool_facts.
  destruct (UptoEvmAuthorization.from a) as [owner|] eqn:Hfrom; [|discriminate].
  destruct (nullish _ _) as [spender|] eqn:Hspender; [|discriminate].
  cbn [wellformed] in *.
  exists a, owner, spender. repeat split; assumption.
Qed.

(** Rewrites the run [Hrun] of [verify] up to the comparison of cap and
    amount, from the facts of [Hreach]. *)
Ltac forward_to_amounts Hreach Hrun :=
  let a := fresh "a" in
  let owner := fresh "owner" in
  let spender := fresh "spender" in
  let Ha := fresh "Ha" in
  let Hfrom := fresh "Hfrom" in
  let Hto := fresh "Hto" in
  destruct (reaches_amount_check_facts _ _ Hreach)
    as (a & owner & spender & Ha & Hfrom & Hto & ? & ? & ? & ? & ? & ? & ? & ? & ? & ? & ? & ? & ? & ? & ?);
  unfold authorization_of in Ha;
  unfold UptoEvmScheme.verify, UptoEvmScheme.invalid in Hrun;
  unfold mbind, M_bind, mret, M_ret, lift, throw, try_catch in Hrun;
  unfold UptoEvmScheme.now_ms, UptoEvmScheme.call in Hrun;
  rewrite Ha in Hrun;
  rewrite Hto, Hfrom in Hrun;
  unfold getAddress in Hrun;
  repeat match goal with E : _ = true |- _ => rewrite E in Hrun end;
  cbn [negb orb andb] in Hrun; cbn beta iota in Hrun;
  repeat match goal with E : _ = true |- _ => rewrite E in Hrun end;
  cbn [negb orb andb] in Hrun; cbn beta iota in Hrun.

(** The three answers of [verify] around the amount and the deadline. *)
Lemma verify_cap_too_low payload requirements st :
  reaches_amount_check payload requirements = true ->
  cap_of payload < amount_of requirements ->
  UptoEvmScheme.verify signer payload requirements st
    = (Normal (VerifyResponse.mk false (Some "cap_too_low") (payer_of payload)), st).
Proof.
  intros Hreach Hlt.
  destruct (UptoEvmScheme.verify signer payload requirements st) as [c st'] eqn:Hrun.
  unfold payer_of, cap_of, amount_of, authorization_of in *.
  forward_to_amounts Hreach Hrun.
  rewrite Ha in *. cbn [mbind option_bind] in *.
  apply Z.ltb_lt in Hlt. rewrite Hlt in Hrun.
  injection Hrun as <- <-. rewrite Hfrom. reflexivity.
Qed.

Lemma verify_expired payload requirements st ms w :
  reaches_deadline_check payload requirements = true ->
  Date_now (world st) = (ms, w) ->
  deadline_of payload < ms / 1000 + 6 ->
  fst (UptoEvmScheme.verify signer payload requirements st)
    = Normal (VerifyResponse.mk false (Some "authorization_expired") (payer_of payload)).
Proof.
  intros Hreach Hnow Hlt.
  destruct (UptoEvmScheme.verify signer payload requirements st) as [c st'] eqn:Hrun.
  unfold reaches_deadline_check in Hreach.
  apply andb_true_iff in Hreach as [Hreach Hmax].
  apply andb_true_iff in Hreach as [Hreach Hcap].
  apply negb_true_iff in Hmax, Hcap.
  unfold deadline_of, payer_of, cap_of, amount_of, required_max_of, authorization_of in *.
  forward_to_amounts Hreach Hrun.
  rewrite Ha in *. cbn [mbind option_bind] in *.
  rewrite Hcap, Hmax, Hnow in Hrun. cbn beta iota in Hrun.
  apply Z.ltb_lt in Hlt. rewrite Hlt in Hrun.
  injection Hrun as <- <-. cbn [fst]. rewrite Hfrom. reflexivity.
Qed.

Lemma verify_fresh payload requirements st ms w :
  reaches_deadline_check payload requirements = true ->
  Date_now (world st) = (ms, w) ->
  ms / 1000 + 6 <= deadline_of payload ->
  verify_reason (fst (UptoEvmScheme.verify signer payload requirements st))
    <> Some "authorization_expired".
Proof.
  intros Hreach Hnow Hge.
  destruct (UptoEvmScheme.verify signer payload requirements st) as [c st'] eqn:Hrun.
  unfold reaches_deadline_check in Hreach.
  apply andb_true_iff in Hreach as [Hreach Hmax].
  apply andb_true_iff in Hreach as [Hreach Hcap].
  apply negb_true_iff in Hmax, Hcap.
  unfold deadline_of, payer_of, cap_of, amount_of, required_max_of, authorization_of in *.
  forward_to_amounts Hreach Hrun.
  rewrite Ha in *. cbn [mbind option_bind] in *.
  rewrite Hcap, Hmax, Hnow in Hrun. cbn beta iota in Hrun.
  apply Z.ltb_ge in Hge. rewrite Hge in Hrun.
  repeat (step_in Hrun; try (injection Hrun as <- <-; cbn; discriminate)).
Qed.

(** Only a run that passed every earlier check can answer
    ["authorization_expired"]. *)
Lemma verify_expired_inv payload requirements st :
  verify_reason (fst (UptoEvmScheme.verify signer payload requirements st))
    = Some "authorization_expired" ->
  reaches_deadline_check payload requirements = true.
Proof.
  destruct (UptoEvmScheme.verify signer payload requirements st) as [c st'] eqn:Hrun.
  intros Hreason.
  unfold UptoEvmScheme.verify, UptoEvmScheme.invalid in Hrun.
  unfold mbind, M_bind, mret, M_ret, lift, throw, try_catch in Hrun.
  unfold reaches_deadline_check, reaches_amount_check, spender_of, payer_of, cap_of,
    amount_of, required_max_of, authorization_of.
  unfold UptoEvmScheme.now_ms, UptoEvmScheme.call in Hrun.
  repeat (step_in Hrun;
          try (injection Hrun as <- <-; discriminate Hreason)).
  injection Hrun as <- <-. clear Hreason.
  bool_facts.
  repeat match goal with
    | E : getAddress _ = Normal _ |- _ =>
        apply getAddress_Normal in E; destruct E as (? & ? & ? & ?)
    end.
  simplify_eq.
  cbn [mbind option_bind].
  repeat match goal with
    | E : _ = true |- _ => rewrite E
    | E : _ = false |- _ => rewrite E
    end.
  repeat match goal with E : _ = Some _ |- _ => rewrite E end.
  cbn [wellformed].
  repeat match goal with E : _ = true |- _ => rewrite E end.
  reflexivity.
Qed.

(** [settle] raises nothing of its own: it throws only when its
    verification does. *)
Lemma settle_throw_inv payload requirements st e st' :
  UptoEvmScheme.settle signer payload requirements st = (Throw e, st') ->
  UptoEvmScheme.verify signer payload requirements st = (Throw e, st').
Proof.
  intros Hrun.
  destruct (UptoEvmScheme.verify signer payload requirements st)
    as [[verification|e'] st1] eqn:Hverify.
  - exfalso.
    unfold UptoEvmScheme.settle, UptoEvmScheme.failed in Hrun.
    unfold mbind, M_bind, mret, M_ret, lift, throw, try_catch in Hrun.
    unfold UptoEvmScheme.call in Hrun.
    rewrite Hverify in Hrun. cbn beta iota in Hrun.
    destruct (VerifyResponse.isValid verification) eqn:Hvalid; [|discriminate Hrun].
    destruct (verify_valid_inv _ _ _ _ _ Hverify Hvalid) as (Hreach & Hasset & _).
    unfold reaches_deadline_check in Hreach.
    apply andb_true_iff in Hreach as [Hreach _].
    apply andb_true_iff in Hreach as [Hreach _].
    destruct (reaches_amount_check_facts _ _ Hreach)
      as (a & owner & spender & Ha & Hfrom & Hto & _ & _ & _ & _ & _ & _ & _ & _
          & Howner & Hspender & _ & _ & _ & HpayTo & _).
    unfold authorization_of in Ha.
    cbn [negb] in Hrun. rewrite Ha in Hrun. cbn beta iota in Hrun.
    rewrite Hfrom, Hto in Hrun.
    rewrite !getAddress_isAddress in Hrun by assumption.
    cbn beta iota in Hrun.
    repeat (step_in Hrun; cbn [world calls] in Hrun; try discriminate Hrun).
  - unfold UptoEvmScheme.settle in Hrun.
    unfold mbind, M_bind in Hrun. rewrite Hverify in Hrun.
    injection Hrun as <- <-. reflexivity.
Qed.

(** C6.  Permit-then-fallback: after a valid verification and with a
    signature that parses to [(v, r, s)], [settle] does what the
    algorithm of the specification does from the world the
    verification left: first [permit(owner, spender, cap, deadline,
    v, r, s)] on the ERC-20 and its receipt; when that throws, a read
    of [allowance(owner, spender)], answering
    ["insufficient_allowance"] below [totalSpent] and
    ["permit_failed"] when the read throws; then
    [transferFrom(owner, payTo, totalSpent)], answering
    ["invalid_transaction_state"] with the hash on a receipt that is
    not ["success"], ["transaction_failed"] with no transaction on a
    throw, and success with the hash otherwise.  Responses, signer
    calls and their order agree. *)
Theorem settle_permit_then_fallback
    payload requirements st verification st1 a owner spender sig parsed :
  UptoEvmScheme.verify signer payload requirements st = (Normal verification, st1) ->
  VerifyResponse.isValid verification = true ->
  authorization_of payload = Some a ->
  UptoEvmAuthorization.from a = Some owner ->
  nullish (UptoEvmAuthorization.to a) (Some (PaymentRequirements.payTo requirements))
    = Some spender ->
  UptoEvmPayload.signature (PaymentPayload.payload payload) = Some sig ->
  parseSignature sig = Normal parsed ->
  has_v_or_yParity parsed = true ->
  UptoEvmScheme.settle signer payload requirements st =
    let '(response, made, w) :=
      permit_then_fallback signer
        (checksumAddress (PaymentRequirements.asset requirements))
        (checksumAddress owner) (checksumAddress spender)
        (checksumAddress (PaymentRequirements.payTo requirements))
        (PaymentRequirements.network (PaymentPayload.accepted payload))
        (cap_of payload) (deadline_of payload)
        (nullish (ParsedSignature.v parsed) (ParsedSignature.yParity parsed))
        (ParsedSignature.r parsed) (ParsedSignature.s parsed)
        (amount_of requirements) (world st1) in
    (Normal response, {| world := w; calls := (calls st1 ++ made)%list |}).
Proof.
  intros Hverify Hvalid Ha Hfrom Hto Hsig Hparse Husable.
  destruct (verify_valid_inv _ _ _ _ _ Hverify Hvalid) as (Hreach & Hasset & _).
  pose proof (reaches_deadline_check_cap _ _ Hreach) as Hcap.
  unfold reaches_deadline_check in Hreach.
  apply andb_true_iff in Hreach as [Hreach _].
  apply andb_true_iff in Hreach as [Hreach _].
  destruct (reaches_amount_check_facts _ _ Hreach)
    as (a' & owner' & spender' & Ha' & Hfrom' & Hto' & _ & _ & _ & _ & _ & _ & _ & _
        & Howner & Hspender & _ & _ & _ & HpayTo & _).
  rewrite Ha in Ha'. injection Ha' as <-.
  rewrite Hfrom in Hfrom'. injection Hfrom' as <-.
  rewrite Hto in Hto'. injection Hto' as <-.
  unfold cap_of, deadline_of, amount_of, authorization_of, has_v_or_yParity in *.
  rewrite Ha in *. cbn [mbind option_bind] in *.
  destruct (UptoEvmScheme.settle signer payload requirements st) as [c st'] eqn:Hrun.
  unfold UptoEvmScheme.settle, UptoEvmScheme.failed in Hrun.
  unfold mbind, M_bind, mret, M_ret, lift, throw, try_catch in Hrun.
  unfold UptoEvmScheme.call in Hrun.
  rewrite Hverify in Hrun. cbn beta iota in Hrun.
  rewrite Hvalid, Ha in Hrun. cbn [negb] in Hrun. cbn beta iota in Hrun.
  rewrite Hfrom, Hto in Hrun.
  rewrite !getAddress_isAddress in Hrun by assumption.
  cbn beta iota in Hrun.
  apply Z.ge_le_iff in Hcap.
  assert (Hgt : (toBigInt (Some (PaymentRequirements.amount requirements))
                   >? toBigInt (UptoEvmAuthorization.value a)) = false)
    by (apply not_true_is_false; intros Hgt; apply Z.gtb_lt in Hgt; lia).
  rewrite Hgt, Hsig, Hparse in Hrun. cbn beta iota in Hrun.
  rewrite <- negb_orb, Husable in Hrun. cbn [negb] in Hrun. cbn beta iota in Hrun.
  unfold permit_then_fallback, allowance_step, transfer_step, UptoEvmScheme.failed.
  repeat (step_in Hrun; cbn [world calls] in Hrun;
          try (injection Hrun as <- <-; bool_facts;
               repeat match goal with
                 | E : (_ =? _)%string = _ |- _ => rewrite E
                 | E : (_ <? _) = _ |- _ => rewrite E
                 end;
               cbn [world calls]; rewrite <- ?app_assoc; reflexivity)).
Qed.

(** The Permit [verify] hands to the signer carries the cap, the nonce
    and the deadline as [toBigInt] reads them. *)
Lemma verify_permit_fields payload requirements st request :
  calls (snd (UptoEvmScheme.verify signer payload requirements st))
    = (calls st ++ [VerifyTypedData request])%list ->
  PermitTypedData.message_value request = cap_of payload /\
  PermitTypedData.message_nonce request = nonce_of payload /\
  PermitTypedData.message_deadline request = deadline_of payload.
Proof.
  destruct (UptoEvmScheme.verify signer payload requirements st) as [c st'] eqn:Hrun.
  cbn [snd]. intros Hcalls.
  unfold cap_of, nonce_of, deadline_of, authorization_of.
  unfold UptoEvmScheme.verify, UptoEvmScheme.invalid in Hrun.
  unfold mbind, M_bind, mret, M_ret, lift, throw, try_catch in Hrun.
  unfold UptoEvmScheme.now_ms, UptoEvmScheme.call in Hrun.
  repeat (step_in Hrun;
          try (injection Hrun as <- <-; cbn [calls] in Hcalls;
               exfalso; rewrite <- (app_nil_r (calls st)) in Hcalls at 1;
               apply app_inv_head in Hcalls; discriminate Hcalls)).
  all: injection Hrun as <- <-; cbn [calls] in Hcalls.
  all: apply app_inv_head in Hcalls; injection Hcalls as <-.
  all: cbn; repeat split; reflexivity.
Qed.

(** A run of [verify] that passes the deadline, with a chain id that
    is a number and a well-formed asset, asks the signer. *)
Lemma verify_reaches_signer payload requirements st :
  reaches_deadline_check payload requirements = true ->
  fst (Date_now (world st)) / 1000 + 6 <= deadline_of payload ->
  Number_isFinite
    (Number (nth_error (split ":" (PaymentRequirements.network requirements)) 1)) = true ->
  isAddress (PaymentRequirements.asset requirements) = true ->
  exists request,
    calls (snd (UptoEvmScheme.verify signer payload requirements st))
      = (calls st ++ [VerifyTypedData request])%list.
Proof.
  intros Hreach Hfresh Hchain Hasset.
  destruct (Date_now (world st)) as [ms w] eqn:Hnow. cbn [fst] in Hfresh.
  destruct (UptoEvmScheme.verify signer payload requirements st) as [c st'] eqn:Hrun.
  unfold reaches_deadline_check in Hreach.
  apply andb_true_iff in Hreach as [Hreach Hmax].
  apply andb_true_iff in Hreach as [Hreach Hcap].
  apply negb_true_iff in Hmax, Hcap.
  unfold deadline_of, payer_of, cap_of, amount_of, required_max_of, authorization_of in *.
  forward_to_amounts Hreach Hrun.
  rewrite Ha in *. cbn [mbind option_bind] in *.
  rewrite Hcap, Hmax, Hnow in Hrun. cbn beta iota in Hrun.
  apply Z.ltb_ge in Hfresh. rewrite Hfresh in Hrun.
  cbn [negb] in Hrun. cbn beta iota in Hrun. cbn [world calls] in Hrun.
  repeat (step_in Hrun; try (injection Hrun as <- <-; cbn [snd calls]; eauto)).
Qed.

(** C8, amended.  Saturate-to-zero parsing: [toBigInt] is total and
    yields 0 for a missing, empty or unparseable input, and [verify]
    reads every integer field through it: no exception of [verify]
    comes from a parse, and the Permit it hands to the signer carries
    the cap, the nonce and the deadline as [toBigInt] reads them, the
    nonce being zero when it is unparseable; [verify] gets that far
    whatever the nonce parses to.  Once the earlier checks pass, a cap
    of zero fails the comparison with the amount (["cap_too_low"])
    when the amount is positive, and a deadline of zero fails the
    freshness comparison (["authorization_expired"]) at any time from
    the epoch on. *)
Theorem toBigInt_saturates_to_zero payload requirements st :
  (forall value : option string,
     truthy value = false \/ (exists s, value = Some s /\ BigInt_of_string s = None) ->
     toBigInt value = 0) /\
  (reaches_amount_check payload requirements = true ->
   cap_of payload = 0 ->
   0 < amount_of requirements ->
   fst (UptoEvmScheme.verify signer payload requirements st)
     = Normal (VerifyResponse.mk false (Some "cap_too_low") (payer_of payload))) /\
  (reaches_deadline_check payload requirements = true ->
   deadline_of payload = 0 ->
   0 <= fst (Date_now (world st)) ->
   fst (UptoEvmScheme.verify signer payload requirements st)
     = Normal (VerifyResponse.mk false (Some "authorization_expired") (payer_of payload))) /\
  (forall e, fst (UptoEvmScheme.verify signer payload requirements st) = Throw e ->
     e = InvalidAddressError) /\
  (forall request,
     calls (snd (UptoEvmScheme.verify signer payload requirements st))
       = (calls st ++ [VerifyTypedData request])%list ->
     PermitTypedData.message_value request = cap_of payload /\
     PermitTypedData.message_nonce request = nonce_of payload /\
     PermitTypedData.message_deadline request = deadline_of payload /\
     (forall a nonce,
        authorization_of payload = Some a ->
        UptoEvmAuthorization.nonce a = Some nonce ->
        BigInt_of_string nonce = None ->
        PermitTypedData.message_nonce request = 0)) /\
  (reaches_deadline_check payload requirements = true ->
   fst (Date_now (world st)) / 1000 + 6 <= deadline_of payload ->
   Number_isFinite
     (Number (nth_error (split ":" (PaymentRequirements.network requirements)) 1)) = true ->
   isAddress (PaymentRequirements.asset requirements) = true ->
   exists request,
     calls (snd (UptoEvmScheme.verify signer payload requirements st))
       = (calls st ++ [VerifyTypedData request])%list).
Proof.
  assert (Hzero : forall value : option string,
            truthy value = false \/ (exists s, value = Some s /\ BigInt_of_string s = None) ->
            toBigInt value = 0).
  { intros value [Hfalsy | (s & -> & Hparse)]; unfold toBigInt.
    - rewrite Hfalsy. reflexivity.
    - rewrite Hparse. destruct (negb (truthy (Some s))); reflexivity. }
  split; [exact Hzero|]. split; [|split; [|split; [|split]]].
  - intros Hreach Hcap Hpos. rewrite verify_cap_too_low by (assumption || lia). reflexivity.
  - intros Hreach Hnone Hclock.
    destruct (Date_now (world st)) as [ms w] eqn:Hnow. cbn [fst] in Hclock.
    apply (verify_expired _ _ _ ms w); [assumption | assumption |].
    rewrite Hnone. pose proof (Z.div_pos ms 1000 Hclock ltac:(lia)). lia.
  - intros e Hthrow.
    destruct (UptoEvmScheme.verify signer payload requirements st) as [c st'] eqn:Hrun.
    cbn [fst] in Hthrow. subst c. exact (verify_throw_inv _ _ _ _ _ Hrun).
  - intros request Hcalls.
    destruct (verify_permit_fields _ _ _ _ Hcalls) as (Hvalue & Hnonce & Hdeadline).
    repeat (split; [assumption|]).
    intros a nonce Ha Hn Hparse. rewrite Hnonce. unfold nonce_of. rewrite Ha.
    cbn [mbind option_bind]. rewrite Hn. apply Hzero. right. eauto.
  - apply verify_reaches_signer.
Qed.

(** C9.  The freshness boundary: when every earlier check passes,
    [verify] answers ["authorization_expired"] (invalid, with the
    payer) exactly when the deadline parsed from [validBefore] is
    strictly below [now + 6], [now] being the clock in seconds; so
    [validBefore = now + 5] is rejected as expired and
    [validBefore = now + 7] passes this check. *)
Theorem verify_authorization_expired_iff payload requirements st ms w :
  reaches_deadline_check payload requirements = true ->
  Date_now (world st) = (ms, w) ->
  let now := ms / 1000 in
  let answer := fst (UptoEvmScheme.verify signer payload requirements st) in
  (verify_reason answer = Some "authorization_expired" <-> deadline_of payload < now + 6) /\
  (deadline_of payload < now + 6 ->
     answer = Normal (VerifyResponse.mk false (Some "authorization_expired")
                        (payer_of payload))) /\
  (deadline_of payload = now + 5 -> verify_reason answer = Some "authorization_expired") /\
  (deadline_of payload = now + 7 -> verify_reason answer <> Some "authorization_expired").
Proof.
  intros Hreach Hnow now answer.
  pose proof (verify_expired _ _ _ _ _ Hreach Hnow) as Hexpired.
  pose proof (verify_fresh _ _ _ _ _ Hreach Hnow) as Hfresh.
  fold now answer in Hexpired, Hfresh.
  split; [|split; [assumption|split]].
  - split.
    + intros Hreason. destruct (Z_lt_le_dec (deadline_of payload) (now + 6)) as [|Hge];
        [assumption | exfalso; exact (Hfresh Hge Hreason)].
    + intros Hlt. rewrite (Hexpired Hlt). reflexivity.
  - intros Heq. rewrite Hexpired by lia. reflexivity.
  - intros Heq. apply Hfresh. lia.
Qed.

(** C10.  [settle] never answers ["total_exceeds_cap"]: it runs
    [verify] first on the same payload and requirements, and [verify]
    has already answered ["cap_too_low"] when the amount parsed from
    the requirements exceeds the cap parsed from the authorization,
    which is the very comparison the branch tests again. *)
Theorem settle_never_total_exceeds_cap payload requirements st :
  settle_reason (fst (UptoEvmScheme.settle signer payload requirements st))
    <> Some "total_exceeds_cap".
Proof.
  destruct (UptoEvmScheme.settle signer payload requirements st) as [c st'] eqn:Hrun.
  unfold UptoEvmScheme.settle, UptoEvmScheme.failed in Hrun.
  unfold mbind, M_bind, mret, M_ret, lift, throw, try_catch in Hrun.
  unfold UptoEvmScheme.call in Hrun.
  step_in Hrun; [|injection Hrun as <- <-; discriminate].
  step_in Hrun.
  - (* verification failed: the reason is one of verify's *)
    injection Hrun as <- <-. cbn.
    match goal with E : negb _ = true |- _ => apply negb_true_iff in E; rename E into Hinvalid end.
    match goal with E : UptoEvmScheme.verify _ _ _ _ = _ |- _ =>
      destruct (verify_invalid_tag _ _ _ _ _ E Hinvalid) as (tag & -> & Htag) end.
    cbn in Htag. intros [= ->]. repeat destruct Htag as [Htag|Htag]; try discriminate Htag.
    exact Htag.
  - match goal with E : negb _ = false |- _ => apply negb_false_iff in E; rename E into Hvalid end.
    match goal with E : UptoEvmScheme.verify _ _ _ _ = _ |- _ =>
      destruct (verify_valid_inv _ _ _ _ _ E Hvalid) as (Hreach & _ & _) end.
    apply reaches_deadline_check_cap in Hreach.
    unfold cap_of, amount_of, authorization_of in Hreach.
    repeat (step_in Hrun;
            try (exfalso; cbn in Hreach;
                 match goal with E : (_ >? _) = true |- _ => apply Z.gtb_lt in E end; lia);
            try (injection Hrun as <- <-; cbn; discriminate)).
Qed.

End Scheme.

(** ** The properties at work on the scenarios *)

Section Runs.
Import Scenario.

(** [BigInt] of a string, on the shapes of input it tells apart. *)
Example BigInt_of_string_samples :
  map BigInt_of_string ["250000"; " 42 "; "0x10"; "-5"; ""; "1.5"; "1e6"; "12abc"; "0x"]
  = [Some 250000; Some 42; Some 16; Some (-5); Some 0; None; None; None; None].
Proof. vm_compute. reflexivity. Qed.

(** Scenario 2: the happy path of [verify]. *)
Example scenario_verify_accepts :
  fst (UptoEvmScheme.verify signer (presented (authorized alice merchant "1000000" in_an_hour))
         (requirement "250000") (start sunny))
  = Normal (VerifyResponse.mk true None (Some alice)).
Proof. vm_compute. reflexivity. Qed.

(** Scenario 3: the authorization names another recipient. *)
Example scenario_recipient_mismatch :
  fst (UptoEvmScheme.verify signer (presented (authorized alice mallory "1000000" in_an_hour))
         (requirement "250000") (start sunny))
  = Normal (VerifyResponse.mk false (Some "recipient_mismatch") (Some alice)).
Proof. vm_compute. reflexivity. Qed.

(** The cap may equal the amount, and may not be one below it. *)
Example boundary_cap_and_amount :
  verify_reason (fst (UptoEvmScheme.verify signer
                        (presented (authorized alice merchant "250000" in_an_hour))
                        (requirement "250000") (start sunny))) = None /\
  verify_reason (fst (UptoEvmScheme.verify signer
                        (presented (authorized alice merchant "249999" in_an_hour))
                        (requirement "250000") (start sunny))) = Some "cap_too_low".
Proof. split; vm_compute; reflexivity. Qed.

(** Scenario 4: three charges of 100000 settled at once, then a last
    charge settled on closing. *)
Example scenario_batched_settlement :
  ledger (snd (Settlement.settleUptoSession localFacilitatorClient "s1" "periodic" None None
                 (desk (metered 0 300000 Session.open) sunny)))
    = Some (300000, 0, Session.open) /\
  contract_calls (snd (UptoEvmScheme.settle signer
                         (presented (authorized alice merchant "1000000" in_an_hour))
                         (requirement (toString 300000)) (start sunny)))
    = [permit alice merchant 1000000 1700003600 (Some 27) "0x01" "0x02";
       transferFrom alice merchant 300000] /\
  ledger (snd (Settlement.settleUptoSession localFacilitatorClient "s1" "close" (Some true) None
                 (desk (metered 300000 50000 Session.open) sunny)))
    = Some (350000, 0, Session.closed).
Proof. repeat split; vm_compute; reflexivity. Qed.

(** Scenario 5: the permit was consumed by an earlier settlement; the
    allowance is read and the transfer goes through. *)
Example scenario_permit_replay :
  let run := UptoEvmScheme.settle signer
               (presented (authorized alice merchant "1000000" in_an_hour))
               (requirement "250000") (start replayed) in
  fst run = Normal (paid "0xtransfer") /\
  contract_calls (snd run)
    = [permit alice merchant 1000000 1700003600 (Some 27) "0x01" "0x02";
       allowance alice merchant;
       transferFrom alice merchant 250000].
Proof. split; vm_compute; reflexivity. Qed.

(** Scenario 6: the signer's writes fail; the pending amount stays for
    the next sweep and the session is open again. *)
Example scenario_failure_preserves_pending :
  ledger (snd (Settlement.settleUptoSession localFacilitatorClient "s1" "periodic" None None
                 (desk (metered 0 200000 Session.open) stormy)))
    = Some (0, 200000, Session.open).
Proof. vm_compute. reflexivity. Qed.

(** C7.  [verify] and [settle] do throw: an authorization whose
    [from] is not a 20-byte hex address makes [getAddress] raise
    viem's InvalidAddressError before any tagged response is built. *)
Theorem verify_throws_on_malformed_owner :
  let payload := presented (authorized "0x1234" merchant "1000000" in_an_hour) in
  fst (UptoEvmScheme.verify signer payload (requirement "250000") (start sunny))
    = Throw InvalidAddressError /\
  fst (UptoEvmScheme.settle signer payload (requirement "250000") (start sunny))
    = Throw InvalidAddressError.
Proof. split; vm_compute; reflexivity. Qed.

(** C8 as stated fails: an unparseable amount is read as zero, and the
    zero passes the comparison with the cap; the payment verifies. *)
Lemma unparseable_amount_passes_cap_check :
  BigInt_of_string "abc" = None /\
  toBigInt (Some "abc") = 0 /\
  fst (UptoEvmScheme.verify signer
         (presented (authorized alice merchant "1000000" in_an_hour))
         (requirement "abc") (start sunny))
    = Normal (VerifyResponse.mk true None (Some alice)).
Proof. repeat split; vm_compute; reflexivity. Qed.



Lemma settleUptoSession_preserves_cap_invariant_witness :
  let s := metered 0 300000 Session.open in
  let st := desk s sunny in
  store st !! "s1" = Some s /\
  cap_invariant s /\
  exists s',
    store (snd (Settlement.settleUptoSession localFacilitatorClient "s1" "periodic"
                  None None st)) !! "s1" = Some s' /\
    Session.cap s' = Session.cap s /\
    Session.settledTotal s' + Session.pendingSpent s'
      = Session.settledTotal s + Session.pendingSpent s /\
    cap_invariant s'.
Proof.
  intros s st.
  assert (Hget : store st !! "s1" = Some s) by (vm_compute; reflexivity).
  assert (Hinv : cap_invariant s) by (unfold cap_invariant; cbn; lia).
  split; [exact Hget|]. split; [exact Hinv|].
  exact (settleUptoSession_preserves_cap_invariant localFacilitatorClient
           st "s1" "periodic" None None "s1" s Hget Hinv).
Defined.



Lemma settleUptoSession_noop_unless_open_witness :
  let s := metered 350000 0 Session.closed in
  let st := desk s sunny in
  (store st !! "s1" = None \/
   exists s0, store st !! "s1" = Some s0 /\ Session.status s0 <> Session.open) /\
  Settlement.settleUptoSession localFacilitatorClient "s1" "idle" (Some true) None st
    = (Normal tt, st).
Proof.
  intros s st.
  assert (Hclosed : store st !! "s1" = None \/
            exists s0, store st !! "s1" = Some s0 /\ Session.status s0 <> Session.open).
  { right. exists s. split; [vm_compute; reflexivity | discriminate]. }
  split; [exact Hclosed|].
  exact (settleUptoSession_noop_unless_open localFacilitatorClient
           st "s1" "idle" (Some true) None Hclosed).
Defined.


Lemma settle_permit_then_fallback_witness :
  let a := authorized alice merchant "1000000" in_an_hour in
  let payload := presented a in
  let requirements := requirement "250000" in
  let verified := UptoEvmScheme.verify signer payload requirements (start stormy) in
  let parsed := ParsedSignature.mk "0x01" "0x02" (Some 27) (Some 0) in
  verified = (Normal (VerifyResponse.mk true None (Some alice)), snd verified) /\
  has_v_or_yParity parsed = true /\
  UptoEvmScheme.settle signer payload requirements (start stormy) =
    let '(response, made, w) :=
      permit_then_fallback signer
        (checksumAddress (PaymentRequirements.asset requirements))
        (checksumAddress alice) (checksumAddress merchant)
        (checksumAddress (PaymentRequirements.payTo requirements))
        (PaymentRequirements.network (PaymentPayload.accepted payload))
        (cap_of payload) (deadline_of payload)
        (nullish (ParsedSignature.v parsed) (ParsedSignature.yParity parsed))
        (ParsedSignature.r parsed) (ParsedSignature.s parsed)
        (amount_of requirements) (world (snd verified)) in
    (Normal response, {| world := w; calls := (calls (snd verified) ++ made)%list |}).
Proof.
  intros a payload requirements verified parsed.
  assert (Hverify : verified = (Normal (VerifyResponse.mk true None (Some alice)), snd verified))
    by (vm_compute; reflexivity).
  assert (Husable : has_v_or_yParity parsed = true) by (vm_compute; reflexivity).
  split; [exact Hverify|]. split; [exact Husable|].
  subst verified.
  assert (Hvalid : VerifyResponse.isValid (VerifyResponse.mk true None (Some alice)) = true)
    by reflexivity.
  assert (Ha : authorization_of payload = Some a) by reflexivity.
  assert (Hfrom : UptoEvmAuthorization.from a = Some alice) by reflexivity.
  assert (Hto : nullish (UptoEvmAuthorization.to a)
                  (Some (PaymentRequirements.payTo requirements)) = Some merchant)
    by reflexivity.
  assert (Hsig : UptoEvmPayload.signature (PaymentPayload.payload payload) = Some "0xsigned")
    by reflexivity.
  assert (Hparse : parseSignature "0xsigned" = Normal parsed) by reflexivity.
  exact (settle_permit_then_fallback signer payload requirements (start stormy)
           (VerifyResponse.mk true None (Some alice)) _
           a alice merchant "0xsigned" parsed
           Hverify Hvalid Ha Hfrom Hto Hsig Hparse Husable).
Defined.

Lemma toBigInt_saturates_to_zero_witness :
  let unreadable_cap := presented (authorized alice merchant "1e6" in_an_hour) in
  let unreadable_deadline := presented (authorized alice merchant "1000000" "tomorrow") in
  let unreadable_nonce :=
    presented (UptoEvmAuthorization.mk (Some alice) (Some merchant) (Some "1000000") None
                 (Some in_an_hour) (Some "abc")) in
  toBigInt (Some "1e6") = 0 /\
  fst (UptoEvmScheme.verify signer unreadable_cap (requirement "250000") (start sunny))
    = Normal (VerifyResponse.mk false (Some "cap_too_low") (Some alice)) /\
  fst (UptoEvmScheme.verify signer unreadable_deadline (requirement "250000") (start sunny))
    = Normal (VerifyResponse.mk false (Some "authorization_expired") (Some alice)) /\
  exists request,
    calls (snd (UptoEvmScheme.verify signer unreadable_nonce (requirement "250000")
                  (start sunny)))
      = (calls (start sunny) ++ [VerifyTypedData request])%list /\
    PermitTypedData.message_value request = 1000000 /\
    PermitTypedData.message_nonce request = 0 /\
    PermitTypedData.message_deadline request = 1700003600.
Proof.
  intros unreadable_cap unreadable_deadline unreadable_nonce.
  destruct (toBigInt_saturates_to_zero signer unreadable_cap (requirement "250000")
              (start sunny)) as (Hzero & Hcap & _).
  destruct (toBigInt_saturates_to_zero signer unreadable_deadline (requirement "250000")
              (start sunny)) as (_ & _ & Hdeadline & _).
  destruct (toBigInt_saturates_to_zero signer unreadable_nonce (requirement "250000")
              (start sunny)) as (_ & _ & _ & _ & Hfields & Hreaches).
  split; [|split; [|split]].
  - apply Hzero. right. exists "1e6". split; [reflexivity | vm_compute; reflexivity].
  - apply Hcap; [vm_compute; reflexivity | vm_compute; reflexivity | vm_compute; reflexivity].
  - apply Hdeadline; [vm_compute; reflexivity | vm_compute; reflexivity
                     | vm_compute; discriminate].
  - destruct Hreaches as (request & Hcalls);
      [vm_compute; reflexivity | vm_compute; discriminate
      | vm_compute; reflexivity | vm_compute; reflexivity |].
    destruct (Hfields request Hcalls) as (Hvalue & _ & Hlimit & Hnonce).
    exists request. split; [exact Hcalls|].
    split; [rewrite Hvalue; vm_compute; reflexivity|].
    split; [apply (Hnonce _ "abc" eq_refl eq_refl); vm_compute; reflexivity|].
    rewrite Hlimit. vm_compute. reflexivity.
Defined.

Lemma verify_authorization_expired_iff_witness :
  let payload := presented (authorized alice merchant "1000000" "1700000005") in
  let requirements := requirement "250000" in
  reaches_deadline_check payload requirements = true /\
  Date_now (world (start sunny)) = (clock_ms sunny, sunny) /\
  deadline_of payload = clock_ms sunny / 1000 + 5 /\
  verify_reason (fst (UptoEvmScheme.verify signer payload requirements (start sunny)))
    = Some "authorization_expired".
Proof.
  intros payload requirements.
  assert (Hreach : reaches_deadline_check payload requirements = true)
    by (vm_compute; reflexivity).
  assert (Hclock : Date_now (world (start sunny)) = (clock_ms sunny, sunny)) by reflexivity.
  assert (Hfive : deadline_of payload = clock_ms sunny / 1000 + 5)
    by (vm_compute; reflexivity).
  repeat (split; [assumption|]).
  destruct (verify_authorization_expired_iff signer payload requirements (start sunny)
              (clock_ms sunny) sunny Hreach Hclock) as (_ & _ & Hat5 & _).
  exact (Hat5 Hfive).
Defined.

End Runs.

(** * Further properties of the code *)

(** ** The settlement orchestrator *)

Section OrchestratorMore.
Context {W : Type} `{Host W}.
Variable client : UptoFacilitatorClient.t W.

(** The three ways a call can go. *)
Lemma settleUptoSession_run st id reason closeAfter buf :
  let run := Settlement.settleUptoSession client id reason closeAfter buf st in
  (run = (Normal tt, st) /\
   (store st !! id = None \/
    exists s, store st !! id = Some s /\ Session.status s <> Session.open)) \/
  (exists s,
     store st !! id = Some s /\ Session.status s = Session.open /\
     Session.pendingSpent s <= 0 /\
     run = if default false closeAfter
           then (Normal tt,
                 {| store := <[id := Session.set_status Session.closed s]> (store st);
                    outside := outside st;
                    effects := effects st ++ [StoreSet id (Session.set_status Session.closed s)] |})
           else (Normal tt, st)) \/
  (exists s c w1 atMs w2 ms w3,
     store st !! id = Some s /\ Session.status s = Session.open /\
     0 < Session.pendingSpent s /\
     UptoFacilitatorClient.settle client (Session.paymentPayload s)
       (PaymentRequirements.with_amount (Session.paymentRequirements s)
          (toString (Session.pendingSpent s))) (outside st) = (c, w1) /\
     Date_now w1 = (atMs, w2) /\
     Date_now w2 = (ms, w3) /\
     let s1 := Session.set_status Session.settling s in
     let s2 := Session.set_lastSettlement (LastSettlement.mk atMs reason (receipt_of s c))
                 (credited (receipt_of s c) s1) in
     let asked := ClientSettle (Session.paymentPayload s)
                    (PaymentRequirements.with_amount (Session.paymentRequirements s)
                       (toString (Session.pendingSpent s))) in
     run =
       match close_test (default false closeAfter) (default (finite (60 # 1)) buf) s2 (ms / 1000) with
       | Normal closing =>
           let s3 := Session.set_status (if closing then Session.closed else Session.open) s2 in
           (Normal tt, {| store := <[id := s3]> (<[id := s1]> (store st));
                          outside := w3;
                          effects := effects st ++ [StoreSet id s1; asked; StoreSet id s3] |})
       | Throw e =>
           (Throw e, {| store := <[id := s1]> (store st);
                        outside := w3;
                        effects := effects st ++ [StoreSet id s1; asked] |})
       end).
Proof.
  intros run. subst run.
  destruct (store st !! id) as [s|] eqn:Hget;
    [|left; split; [apply settleUptoSession_absent; assumption | left; reflexivity]].
  destruct (decide (Session.status s = Session.open)) as [Hopen|Hopen];
    [|left; split; [apply (settleUptoSession_not_open _ _ _ _ _ _ s); assumption
                   | right; exists s; split; [reflexivity | assumption]]].
  destruct (Z_lt_le_dec 0 (Session.pendingSpent s)) as [Hpos|Hle].
  - right; right.
    destruct (UptoFacilitatorClient.settle client (Session.paymentPayload s)
                (PaymentRequirements.with_amount (Session.paymentRequirements s)
                   (toString (Session.pendingSpent s))) (outside st)) as [c w1] eqn:Hcall.
    destruct (Date_now w1) as [atMs w2] eqn:Hat.
    destruct (Date_now w2) as [ms w3] eqn:Hms.
    exists s, c, w1, atMs, w2, ms, w3.
    repeat (split; [first [reflexivity | assumption]|]).
    apply (settleUptoSession_attempt _ _ _ _ _ _ _ _ _ _ _ _ _ Hget Hopen Hpos Hcall Hat Hms).
  - right; left. exists s.
    repeat (split; [first [reflexivity | assumption]|]).
    apply settleUptoSession_idle; assumption.
Qed.

(** X1.  A call touches one session: whatever the arguments and
    however the call ends, the store holds the same sessions under
    every id other than [sessionId], and the same set of ids; no
    session is created or removed. *)
Theorem settleUptoSession_touches_one_session st id reason closeAfter buf :
  let st' := snd (Settlement.settleUptoSession client id reason closeAfter buf st) in
  delete id (store st') = delete id (store st) /\
  dom (store st') = dom (store st).
Proof.
  intros st'. subst st'.
  destruct (settleUptoSession_run st id reason closeAfter buf)
    as [[-> _] | [(s & Hget & _ & _ & ->) | (s & c & w1 & atMs & w2 & ms & w3 & Hget & _ & _ & _ & _ & _ & ->)]].
  - split; reflexivity.
  - destruct (default false closeAfter); cbn [snd store]; [|split; reflexivity].
    split; [apply delete_insert_eq | apply dom_insert_lookup_L; rewrite Hget; eauto].
  - cbv zeta. destruct (close_test _ _ _ _); cbn [snd store].
    + rewrite !delete_insert_eq. split; [reflexivity|].
      rewrite !dom_insert_lookup_L; [reflexivity | rewrite Hget; eauto |].
      rewrite lookup_insert_eq; eauto.
    + rewrite delete_insert_eq. split; [reflexivity|].
      apply dom_insert_lookup_L. rewrite Hget; eauto.
Qed.


(** X2.  Nothing pending: for an open session whose [pendingSpent] is
    zero or negative, [settleUptoSession] returns without calling the
    facilitator client and without touching the world; the session is
    written back as [closed] when [closeAfter] is true, every other
    field as it was, and nothing at all changes otherwise. *)
Theorem settleUptoSession_nothing_pending st id reason closeAfter buf s :
  store st !! id = Some s ->
  Session.status s = Session.open ->
  Session.pendingSpent s <= 0 ->
  exists st',
    Settlement.settleUptoSession client id reason closeAfter buf st = (Normal tt, st') /\
    outside st' = outside st /\
    client_calls (effects st') = client_calls (effects st) /\
    store st' !! id
      = Some (if default false closeAfter then Session.set_status Session.closed s else s) /\
    (default false closeAfter = false -> st' = st).
Proof.
  intros Hget Hopen Hle.
  rewrite (settleUptoSession_idle _ _ _ _ _ _ s) by assumption.
  destruct (default false closeAfter); eexists; (split; [reflexivity|]); cbn [store outside effects].
  - split; [reflexivity|]. split.
    + unfold client_calls. rewrite omap_app. cbn. apply app_nil_r.
    + split; [apply lookup_insert_eq | discriminate].
  - auto.
Qed.

(** X3.  The lock: an attempt writes the session back with status
    [settling] before it calls the client, and a call that finds the
    session in that state returns without doing anything.  The
    attempt then writes the session once more, with a status other
    than [settling]; when it throws instead, the locked session is
    what the store keeps. *)
Theorem settleUptoSession_locks_before_settling st id reason closeAfter buf s :
  store st !! id = Some s ->
  Session.status s = Session.open ->
  0 < Session.pendingSpent s ->
  let locked := Session.set_status Session.settling s in
  let asked := ClientSettle (Session.paymentPayload s)
                 (PaymentRequirements.with_amount (Session.paymentRequirements s)
                    (toString (Session.pendingSpent s))) in
  (exists out st' rest,
     Settlement.settleUptoSession client id reason closeAfter buf st = (out, st') /\
     effects st' = (effects st ++ StoreSet id locked :: asked :: rest)%list /\
     match out with
     | Normal _ => exists final, rest = [StoreSet id final] /\
                                 Session.status final <> Session.settling /\
                                 store st' !! id = Some final
     | Throw _ => rest = [] /\ store st' !! id = Some locked
     end) /\
  (forall reason' closeAfter' buf' (mid : Engine W),
     store mid !! id = Some locked ->
     Settlement.settleUptoSession client id reason' closeAfter' buf' mid = (Normal tt, mid)).
Proof.
  intros Hget Hopen Hpos locked asked. split.
  - destruct (UptoFacilitatorClient.settle client (Session.paymentPayload s)
                (PaymentRequirements.with_amount (Session.paymentRequirements s)
                   (toString (Session.pendingSpent s))) (outside st)) as [c w1] eqn:Hcall.
    destruct (Date_now w1) as [atMs w2] eqn:Hat.
    destruct (Date_now w2) as [ms w3] eqn:Hms.
    rewrite (settleUptoSession_attempt _ _ _ _ _ _ _ _ _ _ _ _ _ Hget Hopen Hpos Hcall Hat Hms).
    destruct (close_test _ _ _ _) as [closing|e];
      eexists; eexists; eexists; (split; [reflexivity|]); cbn [effects store];
      (split; [reflexivity|]).
    + eexists. split; [reflexivity|]. rewrite lookup_insert_eq.
      split; [destruct closing; discriminate | reflexivity].
    + rewrite lookup_insert_eq. split; reflexivity.
  - intros reason' closeAfter' buf' mid Hmid.
    apply (settleUptoSession_not_open _ _ _ _ _ _ locked); [assumption | discriminate].
Qed.

(** X4.  The only exception: when [settleUptoSession] throws, it
    throws the RangeError of [BigInt(deadlineBufferSec)]; then a
    buffer was given, [closeAfter] is false, the session was open
    with pending charges, its settled total is below the cap, and the
    store keeps it with status [settling]. *)
Theorem settleUptoSession_throws_only_on_buffer st id reason closeAfter buf e st' :
  Settlement.settleUptoSession client id reason closeAfter buf st = (Throw e, st') ->
  BigInt_of_number (default (finite (60 # 1)) buf) = Throw e /\
  e = RangeError "not an integer" /\
  buf <> None /\
  default false closeAfter = false /\
  exists s s',
    store st !! id = Some s /\
    Session.status s = Session.open /\
    0 < Session.pendingSpent s /\
    store st' !! id = Some s' /\
    Session.status s' = Session.settling /\
    Session.settledTotal s' < Session.cap s'.
Proof.
  intros Hrun.
  destruct (settleUptoSession_run st id reason closeAfter buf)
    as [[Hrun' _] | [(s & _ & _ & _ & Hrun') | (s & c & w1 & atMs & w2 & ms & w3 & Hget & Hopen & Hpos & _ & _ & _ & Hrun')]];
    rewrite Hrun in Hrun'.
  - discriminate Hrun'.
  - destruct (default false closeAfter); discriminate Hrun'.
  - cbv zeta in Hrun'. unfold close_test in Hrun'.
    destruct (default false closeAfter); [discriminate Hrun'|].
    match type of Hrun' with context [Z.geb ?x ?y] => destruct (Z.geb_spec x y) as [Hge|Hlt] end;
      [discriminate Hrun'|].
    destruct (BigInt_of_number (default (finite (60 # 1)) buf)) as [b|e'] eqn:Hbuf;
      [discriminate Hrun'|].
    injection Hrun' as -> ->.
    split; [reflexivity|].
    assert (He : e' = RangeError "not an integer").
    { unfold BigInt_of_number in Hbuf. repeat case_match; congruence. }
    split; [assumption|].
    split; [intros ->; vm_compute in Hbuf; discriminate Hbuf|].
    split; [reflexivity|].
    exists s. eexists. repeat (split; [first [reflexivity | assumption]|]).
    cbn [store]. rewrite lookup_insert_eq. split; [reflexivity|]. split; [reflexivity|].
    unfold credited in Hlt. destruct (SettleResponse.success (receipt_of s c)); cbn in Hlt |- *; lia.
Qed.


(** X5.  No double settlement: after an attempt that the client
    answered with success, a second call for the same session,
    whatever its arguments, returns without calling the client and
    leaves the world as it was, however the first call ended.  The
    first call returns when [deadlineBufferSec] is omitted or
    integer-valued; when it returned, the second call leaves the
    totals where the first put them, the old settled total plus the
    amount settled and nothing pending; when it threw, the second
    call changes nothing at all. *)
Theorem settleUptoSession_settles_once st id reason closeAfter buf s r w1 :
  store st !! id = Some s ->
  Session.status s = Session.open ->
  0 < Session.pendingSpent s ->
  UptoFacilitatorClient.settle client (Session.paymentPayload s)
    (PaymentRequirements.with_amount (Session.paymentRequirements s)
       (toString (Session.pendingSpent s))) (outside st) = (Normal r, w1) ->
  SettleResponse.success r = true ->
  let first := Settlement.settleUptoSession client id reason closeAfter buf st in
  (forall b, BigInt_of_number (default (finite (60 # 1)) buf) = Normal b ->
     fst first = Normal tt) /\
  forall reason' closeAfter' buf',
  exists st2,
    Settlement.settleUptoSession client id reason' closeAfter' buf' (snd first)
      = (Normal tt, st2) /\
    client_calls (effects st2) = client_calls (effects (snd first)) /\
    outside st2 = outside (snd first) /\
    (fst first = Normal tt ->
     exists s2,
       store st2 !! id = Some s2 /\
       Session.settledTotal s2 = Session.settledTotal s + Session.pendingSpent s /\
       Session.pendingSpent s2 = 0) /\
    (forall e, fst first = Throw e -> st2 = snd first).
Proof.
  intros Hget Hopen Hpos Hcall Hok first. subst first.
  destruct (Date_now w1) as [atMs w2] eqn:Hat.
  destruct (Date_now w2) as [ms w3] eqn:Hms.
  rewrite (settleUptoSession_attempt _ _ _ _ _ _ _ _ _ _ _ _ _ Hget Hopen Hpos Hcall Hat Hms).
  destruct (close_test _ _ _ _) as [closing|e] eqn:Hclose; cbn [fst snd].
  - split; [reflexivity|]. intros reason' closeAfter' buf'.
    unfold credited in *. cbn [receipt_of] in *. rewrite Hok in *.
    match goal with |- context [<[id := ?x]> (<[id := ?y]> _)] => set (final := x) end.
    match goal with |- context [Settlement.settleUptoSession _ _ _ _ _ ?x] => set (st1 := x) end.
    assert (Hfinal : store st1 !! id = Some final)
      by (subst st1; cbn [store]; apply lookup_insert_eq).
    destruct closing.
    + rewrite (settleUptoSession_not_open _ _ _ _ _ _ final Hfinal) by discriminate.
      exists st1. repeat (split; [reflexivity|]).
      split; [|intros e' He'; discriminate He'].
      intros _. exists final. split; [assumption|]. split; reflexivity.
    + rewrite (settleUptoSession_idle _ _ _ _ _ _ final Hfinal) by (cbn; first [reflexivity | lia]).
      destruct (default false closeAfter').
      * eexists. split; [reflexivity|]. cbn [store outside effects].
        split; [unfold client_calls at 1; rewrite omap_app; cbn; apply app_nil_r|].
        split; [reflexivity|].
        split; [|intros e' He'; discriminate He'].
        intros _. rewrite lookup_insert_eq. eexists. split; [reflexivity|]. split; reflexivity.
      * exists st1. repeat (split; [reflexivity|]).
        split; [|intros e' He'; discriminate He'].
        intros _. exists final. split; [assumption|]. split; reflexivity.
  - split.
    + intros b Hb. exfalso. unfold close_test in Hclose. rewrite Hb in Hclose.
      destruct (default false closeAfter); [discriminate Hclose|].
      destruct (Z.geb _ _); discriminate Hclose.
    + intros reason' closeAfter' buf'.
      match goal with |- context [Settlement.settleUptoSession _ _ _ _ _ ?x] => set (st1 := x) end.
      assert (Hlocked : store st1 !! id = Some (Session.set_status Session.settling s))
        by (subst st1; cbn [store]; apply lookup_insert_eq).
      rewrite (settleUptoSession_not_open _ _ _ _ _ _ _ Hlocked) by (cbn; discriminate).
      exists st1. repeat (split; [reflexivity|]).
      split; [intros Hout; discriminate Hout | reflexivity].
Qed.


(** X7.  The receipt recorded: after an attempt that returns,
    [lastSettlement] holds the [reason] passed, the clock read right
    after the client answered, and the client's receipt as it is;
    when the client threw, the receipt built in its place reports a
    failure with an empty transaction, the network of the session's
    payload and no payer. *)
Theorem settleUptoSession_records_receipt st id reason closeAfter buf s c w1 atMs w2 st' :
  store st !! id = Some s ->
  Session.status s = Session.open ->
  0 < Session.pendingSpent s ->
  UptoFacilitatorClient.settle client (Session.paymentPayload s)
    (PaymentRequirements.with_amount (Session.paymentRequirements s)
       (toString (Session.pendingSpent s))) (outside st) = (c, w1) ->
  Date_now w1 = (atMs, w2) ->
  Settlement.settleUptoSession client id reason closeAfter buf st = (Normal tt, st') ->
  exists s' last,
    store st' !! id = Some s' /\
    Session.lastSettlement s' = Some last /\
    LastSettlement.atMs last = atMs /\
    LastSettlement.reason last = reason /\
    (forall r, c = Normal r -> LastSettlement.receipt last = r) /\
    (forall e, c = Throw e ->
       SettleResponse.success (LastSettlement.receipt last) = false /\
       SettleResponse.transaction (LastSettlement.receipt last) = "" /\
       SettleResponse.network (LastSettlement.receipt last)
         = PaymentRequirements.network (PaymentPayload.accepted (Session.paymentPayload s)) /\
       SettleResponse.payer (LastSettlement.receipt last) = None).
Proof.
  intros Hget Hopen Hpos Hcall Hat Hrun.
  destruct (Date_now w2) as [ms w3] eqn:Hms.
  rewrite (settleUptoSession_attempt _ _ _ _ _ _ _ _ _ _ _ _ _ Hget Hopen Hpos Hcall Hat Hms)
    in Hrun.
  destruct (close_test _ _ _ _) as [closing|e]; [|discriminate Hrun].
  injection Hrun as <-. cbn [store]. rewrite lookup_insert_eq.
  eexists; eexists. split; [reflexivity|]. cbn.
  split; [reflexivity|]. split; [reflexivity|]. split; [reflexivity|].
  split; [intros r ->; reflexivity | intros e ->; cbn; auto].
Qed.

(** X8.  What a call may change in a session: id, payload,
    requirements, cap and deadline never change; [settledTotal] never
    decreases; [pendingSpent] stays as it is or drops to zero. *)
Theorem settleUptoSession_session_fields st id reason closeAfter buf sid s :
  store st !! sid = Some s ->
  exists s',
    store (snd (Settlement.settleUptoSession client id reason closeAfter buf st)) !! sid = Some s' /\
    Session.id s' = Session.id s /\
    Session.paymentPayload s' = Session.paymentPayload s /\
    Session.paymentRequirements s' = Session.paymentRequirements s /\
    Session.cap s' = Session.cap s /\
    Session.deadline s' = Session.deadline s /\
    Session.settledTotal s <= Session.settledTotal s' /\
    (Session.pendingSpent s' = Session.pendingSpent s \/
     0 < Session.pendingSpent s /\ Session.pendingSpent s' = 0).
Proof.
  intros Hs.
  destruct (decide (sid = id)) as [->|Hne];
    [|exists s; rewrite settleUptoSession_other by assumption;
      repeat split; first [assumption | reflexivity | lia | auto]].
  destruct (settleUptoSession_run st id reason closeAfter buf)
    as [[-> _] | [(s0 & Hget & _ & Hle & ->) | (s0 & c & w1 & atMs & w2 & ms & w3 & Hget & _ & Hpos & _ & _ & _ & ->)]].
  - exists s. repeat split; first [assumption | reflexivity | lia | auto].
  - rewrite Hs in Hget. injection Hget as <-.
    destruct (default false closeAfter); cbn [snd store].
    + rewrite lookup_insert_eq. eexists. split; [reflexivity|]. cbn.
      repeat split; first [reflexivity | lia | auto].
    + exists s. repeat split; first [assumption | reflexivity | lia | auto].
  - rewrite Hs in Hget. injection Hget as <-. cbv zeta.
    destruct (close_test _ _ _ _); cbn [snd store]; rewrite lookup_insert_eq;
      (eexists; split; [reflexivity|]); unfold credited;
      destruct (SettleResponse.success (receipt_of s c)); cbn;
      repeat split; first [reflexivity | lia | auto].
Qed.

(** X9.  What the client is asked: a call makes at most one call of
    the client, only for an open session, with that session's payload
    and its requirements but for the amount; the amount is the
    pending amount, it is positive, and with the settled total it
    stays within the cap when the session satisfies the cap
    invariant. *)
Theorem settleUptoSession_asks_within_cap st id reason closeAfter buf :
  exists new,
    effects (snd (Settlement.settleUptoSession client id reason closeAfter buf st))
      = (effects st ++ new)%list /\
    (length (client_calls new) <= 1)%nat /\
    forall p r, In (p, r) (client_calls new) ->
      exists s,
        store st !! id = Some s /\
        Session.status s = Session.open /\
        p = Session.paymentPayload s /\
        r = PaymentRequirements.with_amount (Session.paymentRequirements s)
              (PaymentRequirements.amount r) /\
        amount_of r = Session.pendingSpent s /\
        0 < amount_of r /\
        (cap_invariant s -> Session.settledTotal s + amount_of r <= Session.cap s).
Proof.
  destruct (settleUptoSession_run st id reason closeAfter buf)
    as [[-> _] | [(s & Hget & _ & Hle & ->) | (s & c & w1 & atMs & w2 & ms & w3 & Hget & Hopen & Hpos & _ & _ & _ & ->)]].
  - exists []. cbn [snd]. rewrite app_nil_r. split; [reflexivity|]. split; [cbn; lia|].
    intros p r [].
  - destruct (default false closeAfter); cbn [snd effects].
    + eexists. split; [reflexivity|]. split; [cbn; lia|]. intros p r [].
    + exists []. rewrite app_nil_r. split; [reflexivity|]. split; [cbn; lia|]. intros p r [].
  - cbv zeta. destruct (close_test _ _ _ _); cbn [snd effects];
      (eexists; split; [reflexivity|]); (split; [cbn; lia|]);
      intros p r [[= <- <-]|[]]; exists s;
      repeat (split; [first [reflexivity | assumption]|]);
      unfold amount_of; cbn [PaymentRequirements.amount PaymentRequirements.with_amount];
      rewrite toBigInt_toString; (split; [reflexivity|]); (split; [assumption|]);
      unfold cap_invariant; lia.
Qed.

End OrchestratorMore.

(** ** The upto scheme *)

(** Unfolds a run of [verify] or of [settle] kept in hypothesis [Hrun]. *)
Ltac run_verify Hrun :=
  unfold UptoEvmScheme.verify, UptoEvmScheme.invalid in Hrun;
  unfold mbind, M_bind, mret, M_ret, lift, throw, try_catch in Hrun;
  unfold UptoEvmScheme.now_ms, UptoEvmScheme.call in Hrun.

Ltac run_settle Hrun :=
  unfold UptoEvmScheme.settle, UptoEvmScheme.failed in Hrun;
  unfold mbind, M_bind, mret, M_ret, lift, throw, try_catch in Hrun;
  unfold UptoEvmScheme.call in Hrun.

(** Brings a run of [verify] that reaches the amount checks to the
    comparison of cap and amount. *)
Ltac to_amount_checks Hreach Hrun :=
  let a := fresh "a" in
  let owner := fresh "owner" in
  let spender := fresh "spender" in
  let Ha := fresh "Ha" in
  let Hfrom := fresh "Hfrom" in
  let Hto := fresh "Hto" in
  let Hfacts := fresh "Hfacts" in
  destruct (reaches_amount_check_facts _ _ Hreach)
    as (a & owner & spender & Ha & Hfrom & Hto & Hfacts);
  do 14 (let E := fresh in destruct Hfacts as [E Hfacts]);
  unfold authorization_of in Ha;
  run_verify Hrun;
  rewrite Ha in Hrun;
  rewrite Hto, Hfrom in Hrun;
  unfold getAddress in Hrun;
  repeat match goal with E : _ = true |- _ => rewrite E in Hrun end;
  cbn [negb orb andb] in Hrun; cbn beta iota in Hrun;
  repeat match goal with E : _ = true |- _ => rewrite E in Hrun end;
  cbn [negb orb andb] in Hrun; cbn beta iota in Hrun.

Section SchemeMore.
Context {W : Type} `{Host W}.
Variable signer : FacilitatorEvmSigner W.

(** X10.  What a valid verification has checked: both schemes are
    ["upto"], the networks agree, owner, spender, recipient and asset
    are well-formed addresses, the spender is the recipient, the cap
    covers the amount and the required maximum when one is set, the
    deadline is at least six seconds after the clock, the chain id
    is a finite number, and the signer has been asked once and has
    accepted the signature over the Permit with that owner, spender,
    cap, nonce and deadline. *)
Theorem verify_valid_checks payload requirements st r st' :
  UptoEvmScheme.verify signer payload requirements st = (Normal r, st') ->
  VerifyResponse.isValid r = true ->
  exists a owner spender signature ms w,
    authorization_of payload = Some a /\
    UptoEvmAuthorization.from a = Some owner /\
    nullish (UptoEvmAuthorization.to a) (Some (PaymentRequirements.payTo requirements))
      = Some spender /\
    UptoEvmPayload.signature (PaymentPayload.payload payload) = Some signature /\
    PaymentRequirements.scheme (PaymentPayload.accepted payload) = "upto" /\
    PaymentRequirements.scheme requirements = "upto" /\
    PaymentRequirements.network (PaymentPayload.accepted payload)
      = PaymentRequirements.network requirements /\
    isAddress owner = true /\
    isAddress spender = true /\
    isAddress (PaymentRequirements.payTo requirements) = true /\
    isAddress (PaymentRequirements.asset requirements) = true /\
    checksumAddress spender = checksumAddress (PaymentRequirements.payTo requirements) /\
    amount_of requirements <= cap_of payload /\
    (0 < required_max_of requirements -> required_max_of requirements <= cap_of payload) /\
    Date_now (world st) = (ms, w) /\
    ms / 1000 + 6 <= deadline_of payload /\
    let chainId :=
      Number (nth_error (split ":" (PaymentRequirements.network requirements)) 1) in
    let request :=
      PermitTypedData.mk (checksumAddress owner)
        (field (PaymentRequirements.extra requirements) "name")
        (field (PaymentRequirements.extra requirements) "version")
        chainId
        (checksumAddress (PaymentRequirements.asset requirements))
        (checksumAddress owner) (checksumAddress spender)
        (cap_of payload) (toBigInt (UptoEvmAuthorization.nonce a)) (deadline_of payload)
        (Some signature) in
    Number_isFinite chainId = true /\
    verifyTypedData signer request w = (Normal true, world st') /\
    calls st' = (calls st ++ [VerifyTypedData request])%list /\
    r = VerifyResponse.mk true None (Some owner).
Proof.
  intros Hrun Hvalid.
  unfold UptoEvmScheme.verify, UptoEvmScheme.invalid in Hrun.
  unfold mbind, M_bind, mret, M_ret, lift, throw, try_catch in Hrun.
  unfold UptoEvmScheme.now_ms, UptoEvmScheme.call in Hrun.
  repeat (step_in Hrun; try (injection Hrun as <- <-; discriminate Hvalid); try discriminate Hrun).
  injection Hrun as <- <-.
  bool_facts.
  repeat match goal with
    | E : getAddress _ = Normal _ |- _ =>
        apply getAddress_Normal in E; destruct E as (? & ? & ? & ?)
    end.
  simplify_eq.
  destruct (UptoEvmPayload.signature (PaymentPayload.payload payload)) as [sig|] eqn:Hsig;
    [|discriminate].
  match goal with E : UptoEvmPayload.authorization _ = Some ?t |- _ => rename t into a end.
  match goal with E : UptoEvmAuthorization.from a = Some ?x |- _ => rename x into owner end.
  match goal with E : nullish _ _ = Some ?x |- _ => rename x into spender end.
  match goal with E : Date_now _ = (?z, ?w) |- _ => exists a, owner, spender, sig, z, w end.
  unfold cap_of, amount_of, deadline_of, required_max_of, authorization_of.
  repeat match goal with
    | E : (_ =? _)%string = true |- _ => apply String.eqb_eq in E
    | E : (_ <? _) = false |- _ => apply Z.ltb_ge in E
    | E : _ && _ = false |- _ => apply andb_false_iff in E
    end.
  match goal with E : UptoEvmAuthorization.from a = Some owner |- _ => rewrite E in * end.
  match goal with E : UptoEvmPayload.authorization _ = Some a |- _ => rewrite E end.
  cbn [mbind option_bind world calls] in *.
  repeat (split; [first [assumption | reflexivity | lia]|]).
  reflexivity.
Qed.

Lemma verify_calls payload requirements st :
  let st' := snd (UptoEvmScheme.verify signer payload requirements st) in
  calls st' = calls st \/
  exists request, calls st' = (calls st ++ [VerifyTypedData request])%list.
Proof.
  intros st'. subst st'.
  destruct (UptoEvmScheme.verify signer payload requirements st) as [c st'] eqn:Hrun.
  run_verify Hrun.
  repeat (step_in Hrun;
          try (injection Hrun as <- <-; cbn [snd calls]; first [left; reflexivity | right; eauto])).
Qed.

(** X11.  [verify] reads no contract and writes none: it makes at
    most one call of the signer, a [verifyTypedData] for the
    payload's signature over the cap, the nonce and the deadline of
    the authorization, with the owner as the signing address. *)
Theorem verify_asks_signer_at_most_once payload requirements st :
  exists new,
    calls (snd (UptoEvmScheme.verify signer payload requirements st))
      = (calls st ++ new)%list /\
    (new = [] \/
     exists request,
       new = [VerifyTypedData request] /\
       PermitTypedData.signature request
         = UptoEvmPayload.signature (PaymentPayload.payload payload) /\
       PermitTypedData.message_value request = cap_of payload /\
       PermitTypedData.message_deadline request = deadline_of payload /\
       PermitTypedData.message_nonce request
         = toBigInt (authorization_of payload ≫= UptoEvmAuthorization.nonce) /\
       PermitTypedData.address request = PermitTypedData.message_owner request).
Proof.
  destruct (UptoEvmScheme.verify signer payload requirements st) as [c st'] eqn:Hrun.
  unfold cap_of, deadline_of, authorization_of.
  run_verify Hrun.
  repeat (step_in Hrun;
          try (injection Hrun as <- <-; cbn [snd calls];
               first [ exists []; rewrite app_nil_r; split; [reflexivity | left; reflexivity]
                     | eexists; split; [reflexivity|]; right;
                       eexists; split; [reflexivity|]; cbn; repeat split; reflexivity ])).
Qed.

(** X12.  The scheme is checked first: [verify] answers
    ["unsupported_scheme"] exactly when the payload's accepted scheme
    or the requirements' scheme is not ["upto"], and then it returns
    at once, with the payer, whatever else the payload holds. *)
Theorem verify_unsupported_scheme payload requirements st :
  let run := UptoEvmScheme.verify signer payload requirements st in
  let mismatch := PaymentRequirements.scheme (PaymentPayload.accepted payload) <> "upto" \/
                  PaymentRequirements.scheme requirements <> "upto" in
  (verify_reason (fst run) = Some "unsupported_scheme" <-> mismatch) /\
  (mismatch ->
   run = (Normal (VerifyResponse.mk false (Some "unsupported_scheme") (payer_of payload)), st)).
Proof.
  intros run mismatch.
  assert (Hback : mismatch ->
            run = (Normal (VerifyResponse.mk false (Some "unsupported_scheme") (payer_of payload)), st)).
  { intros Hm. subst run. unfold UptoEvmScheme.verify.
    assert (Hc : negb (PaymentRequirements.scheme (PaymentPayload.accepted payload) =? "upto")%string
                 || negb (PaymentRequirements.scheme requirements =? "upto")%string = true).
    { apply orb_true_iff. destruct Hm as [Hm|Hm]; [left|right];
        apply negb_true_iff, String.eqb_neq; exact Hm. }
    rewrite Hc. reflexivity. }
  split; [split|]; [|intros Hm; rewrite (Hback Hm); reflexivity | exact Hback].
  intros Hreason. subst run mismatch.
  destruct (UptoEvmScheme.verify signer payload requirements st) as [c st'] eqn:Hrun.
  run_verify Hrun.
  step_in Hrun.
  - match goal with E : _ || _ = true |- _ =>
      apply orb_true_iff in E; destruct E as [E|E];
        [left|right]; apply negb_true_iff, String.eqb_neq in E; exact E
    end.
  - repeat (step_in Hrun; try (injection Hrun as <- <-; discriminate Hreason)).
Qed.


Lemma getAddress_Throw address e :
  getAddress address = Throw e -> wellformed address = false.
Proof.
  unfold getAddress, wellformed. destruct address as [a|]; [|reflexivity].
  destruct (isAddress a); [discriminate | reflexivity].
Qed.

Lemma verify_returns payload requirements st :
  addresses_wellformed payload requirements = true ->
  exists r, fst (UptoEvmScheme.verify signer payload requirements st) = Normal r.
Proof.
  intros Hok.
  destruct (UptoEvmScheme.verify signer payload requirements st) as [[r|e] st'] eqn:Hrun;
    [exists r; reflexivity|].
  exfalso.
  unfold addresses_wellformed, absent_or_address, authorization_of in Hok.
  run_verify Hrun.
  repeat (step_in Hrun; try discriminate Hrun).
  all: injection Hrun as <- <-.
  all: bool_facts.
  all: repeat match goal with
         | E : getAddress _ = Throw _ |- _ => apply getAddress_Throw in E
         | E : getAddress _ = Normal _ |- _ => clear E
         end.
  all: match goal with
       | E : UptoEvmPayload.authorization _ = Some ?t |- _ =>
           destruct (UptoEvmAuthorization.from t), (UptoEvmAuthorization.to t)
       end.
  all: cbn [nullish wellformed] in *.
  all: try congruence.
  all: repeat match goal with
         | E : truthy ?x = true, F : negb (truthy ?x) || _ = true |- _ =>
             rewrite E in F; cbn [negb orb] in F
         end.
  all: congruence.
Qed.


Lemma verify_payer payload requirements st r st' :
  UptoEvmScheme.verify signer payload requirements st = (Normal r, st') ->
  VerifyResponse.payer r = payer_of payload.
Proof.
  intros Hrun. unfold payer_of, authorization_of.
  run_verify Hrun.
  repeat (step_in Hrun; try discriminate Hrun;
          try (injection Hrun as <- <-; reflexivity)).
Qed.

(** X13.  With well-formed addresses neither handler throws: when
    the owner and the spender of the authorization (if given), the
    recipient and the asset are 20-byte hex addresses, [verify]
    returns a response, valid with no reason or invalid with one of
    its ten reasons, and [settle] returns a response. *)
Theorem handlers_return_on_wellformed_addresses payload requirements st :
  addresses_wellformed payload requirements = true ->
  (exists r,
     fst (UptoEvmScheme.verify signer payload requirements st) = Normal r /\
     if VerifyResponse.isValid r then VerifyResponse.invalidReason r = None
     else exists tag, VerifyResponse.invalidReason r = Some tag /\ In tag verify_tags) /\
  (exists r, fst (UptoEvmScheme.settle signer payload requirements st) = Normal r).
Proof.
  intros Hok.
  destruct (verify_returns payload requirements st Hok) as (r & Hr).
  split.
  - exists r. split; [assumption|].
    destruct (UptoEvmScheme.verify signer payload requirements st) as [c st'] eqn:Hrun.
    cbn [fst] in Hr. subst c.
    destruct (VerifyResponse.isValid r) eqn:Hvalid.
    + destruct (verify_valid_inv _ _ _ _ _ _ Hrun Hvalid) as (_ & _ & ->). reflexivity.
    + apply (verify_invalid_tag _ _ _ _ _ _ Hrun Hvalid).
  - destruct (UptoEvmScheme.settle signer payload requirements st) as [[r'|e] st'] eqn:Hrun;
      [exists r'; reflexivity|].
    apply settle_throw_inv in Hrun. rewrite Hrun in Hr. discriminate Hr.
Qed.

(** X14.  [settle] throws exactly when its verification does, with
    the same error and in the same state: the addresses it converts
    after a valid verification have all been converted by [verify]. *)
Theorem settle_throws_with_verify payload requirements st e st' :
  UptoEvmScheme.settle signer payload requirements st = (Throw e, st') <->
  UptoEvmScheme.verify signer payload requirements st = (Throw e, st').
Proof.
  split; [apply settle_throw_inv|].
  intros Hverify. unfold UptoEvmScheme.settle, mbind, M_bind. rewrite Hverify. reflexivity.
Qed.

Lemma split_without_separator sep s :
  all_are (fun c => negb (Ascii.eqb c sep)) s = true -> split sep s = [s].
Proof.
  induction s as [|c s IH]; cbn; [reflexivity|].
  intros Hall. apply andb_true_iff in Hall as [Hc Hs].
  apply negb_true_iff in Hc. rewrite Hc, (IH Hs). reflexivity.
Qed.

(** X15.  A network without a colon has no chain id: [verify] never
    accepts requirements whose network contains no [":"]. *)
Theorem verify_needs_chain_reference payload requirements st r st' :
  all_are (fun c => negb (Ascii.eqb c ":")) (PaymentRequirements.network requirements) = true ->
  UptoEvmScheme.verify signer payload requirements st = (Normal r, st') ->
  VerifyResponse.isValid r = false.
Proof.
  intros Hplain Hrun.
  run_verify Hrun.
  rewrite (split_without_separator _ _ Hplain) in Hrun.
  cbn [nth_error Number Number_isFinite negb] in Hrun.
  cbn beta iota in Hrun.
  repeat (step_in Hrun; try discriminate Hrun;
          try (injection Hrun as <- <-; reflexivity)).
Qed.

(** X16.  An authorization without [to] is spent to [payTo]:
    [verify] never answers ["recipient_mismatch"] for it. *)
Theorem verify_default_recipient payload requirements st :
  authorization_of payload ≫= UptoEvmAuthorization.to = None ->
  verify_reason (fst (UptoEvmScheme.verify signer payload requirements st))
    <> Some "recipient_mismatch".
Proof.
  intros Hto.
  destruct (UptoEvmScheme.verify signer payload requirements st) as [c st'] eqn:Hrun.
  unfold authorization_of in Hto.
  run_verify Hrun.
  repeat (step_in Hrun;
          try (injection Hrun as <- <-; cbn; discriminate)).
  exfalso.
  cbn [mbind option_bind] in Hto. rewrite Hto in *. cbn [nullish] in *.
  match goal with
  | E1 : getAddress ?x = Normal ?a, E2 : getAddress ?x = Normal ?b, E : negb (?a =? ?b)%string = true |- _ =>
      rewrite E1 in E2; injection E2 as <-
  end.
  match goal with E : negb (?a =? ?a)%string = true |- _ =>
    rewrite String.eqb_refl in E; discriminate E end.
Qed.


(** X17.  The required maximum: when the earlier checks pass and the
    cap covers the amount, [verify] answers
    ["cap_below_required_max"] exactly when the maximum read from
    [extra.maxAmountRequired], or else from [extra.maxAmount], is
    positive and above the cap; a maximum of zero (missing or
    unreadable) is not enforced. *)
Theorem verify_cap_below_required_max_iff payload requirements st :
  reaches_amount_check payload requirements = true ->
  amount_of requirements <= cap_of payload ->
  let answer := fst (UptoEvmScheme.verify signer payload requirements st) in
  (verify_reason answer = Some "cap_below_required_max" <->
   0 < required_max_of requirements /\ cap_of payload < required_max_of requirements) /\
  (0 < required_max_of requirements -> cap_of payload < required_max_of requirements ->
   answer = Normal (VerifyResponse.mk false (Some "cap_below_required_max") (payer_of payload))).
Proof.
  intros Hreach Hcap answer. subst answer.
  destruct (UptoEvmScheme.verify signer payload requirements st) as [c st'] eqn:Hrun.
  unfold payer_of, cap_of, amount_of, required_max_of, authorization_of in *.
  to_amount_checks Hreach Hrun.
  rewrite Ha in *. cbn [mbind option_bind] in *.
  apply Z.ltb_ge in Hcap. rewrite Hcap in Hrun.
  step_in Hrun.
  - injection Hrun as <- <-. cbn [fst verify_reason VerifyResponse.invalidReason].
    rewrite Hfrom.
    split; [split; [intros _; lia | reflexivity] | reflexivity].
  - split.
    + split; [|intros [? ?]; exfalso; lia].
      intros Hreason. exfalso.
      repeat (step_in Hrun; try (injection Hrun as <- <-; discriminate Hreason)).
    + intros ? ?; exfalso; lia.
Qed.


(** X18.  A rejected verification is passed on: when [verify]
    answers invalid, [settle] answers [success: false] with the same
    reason, an empty transaction, the network of the payload and the
    payer as given, and makes no call of its own. *)
Theorem settle_propagates_rejection payload requirements st r st1 :
  UptoEvmScheme.verify signer payload requirements st = (Normal r, st1) ->
  VerifyResponse.isValid r = false ->
  exists tag,
    VerifyResponse.invalidReason r = Some tag /\
    In tag verify_tags /\
    UptoEvmScheme.settle signer payload requirements st
      = (Normal (SettleResponse.mk false (Some tag) ""
                   (PaymentRequirements.network (PaymentPayload.accepted payload))
                   (payer_of payload)),
         st1).
Proof.
  intros Hverify Hinvalid.
  destruct (verify_invalid_tag _ _ _ _ _ _ Hverify Hinvalid) as (tag & Htag & Hin).
  exists tag. split; [assumption|]. split; [assumption|].
  unfold UptoEvmScheme.settle, UptoEvmScheme.failed, mbind, M_bind.
  rewrite Hverify. cbn beta iota. rewrite Hinvalid. cbn [negb].
  rewrite (verify_payer _ _ _ _ _ Hverify), Htag. reflexivity.
Qed.

(** X19.  What a success stands for: when [settle] answers
    [success: true], its last two calls were the write of
    [transferFrom(owner, payTo, amount)] on the asset and the wait
    for its receipt, whose status was ["success"]; the transaction
    returned is that write's hash, the payer is the owner, and the
    amount is within the cap of the authorization. *)
Theorem settle_success_transfers payload requirements st r st' :
  UptoEvmScheme.settle signer payload requirements st = (Normal r, st') ->
  SettleResponse.success r = true ->
  exists a owner tx before w1 w2,
    authorization_of payload = Some a /\
    UptoEvmAuthorization.from a = Some owner /\
    let token := checksumAddress (PaymentRequirements.asset requirements) in
    let request := transferFrom (checksumAddress owner)
                     (checksumAddress (PaymentRequirements.payTo requirements))
                     (amount_of requirements) in
    calls st' = (before ++ [WriteContract token request; WaitForTransactionReceipt tx])%list /\
    writeContract signer token request w1 = (Normal tx, w2) /\
    waitForTransactionReceipt signer tx w2
      = (Normal (TransactionReceipt.mk "success"), world st') /\
    amount_of requirements <= cap_of payload /\
    r = SettleResponse.mk true None tx
          (PaymentRequirements.network (PaymentPayload.accepted payload))
          (Some (checksumAddress owner)).
Proof.
  intros Hrun Hok.
  run_settle Hrun.
  step_in Hrun; [|discriminate Hrun].
  step_in Hrun; [injection Hrun as <- <-; discriminate Hok|].
  match goal with E : negb _ = false |- _ => apply negb_false_iff in E; rename E into Hvalid end.
  match goal with E : UptoEvmScheme.verify _ _ _ _ = _ |- _ =>
    destruct (verify_valid_inv _ _ _ _ _ _ E Hvalid) as (Hreach & _ & _) end.
  apply reaches_deadline_check_cap in Hreach.
  unfold cap_of, amount_of, authorization_of in *.
  repeat (step_in Hrun; cbn [world calls] in Hrun; try discriminate Hrun;
          try (injection Hrun as <- <-; discriminate Hok)).
  all: injection Hrun as <- <-.
  all: repeat match goal with
    | E : getAddress _ = Normal _ |- _ =>
        apply getAddress_Normal in E; destruct E as (? & ? & ? & ?)
    end.
  all: simplify_eq.
  all: match goal with
       | E : negb (TransactionReceipt.status ?t =? "success")%string = false |- _ =>
           apply negb_false_iff, String.eqb_eq in E; destruct t as [status]; cbn in E; subst status
       end.
  all: cbn [mbind option_bind] in Hreach.
  all: match goal with
       | Hw : writeContract signer _ (transferFrom _ _ _) ?w3 = (Normal ?tx, ?w4),
         Hr : waitForTransactionReceipt signer ?tx ?w4 = _,
         Hf : UptoEvmAuthorization.from ?t = Some ?o |- _ =>
           exists t, o, tx; eexists; exists w3, w4; cbn [world calls];
           split; [reflexivity|]; split; [exact Hf|];
           split; [rewrite <- app_assoc; reflexivity|];
           split; [exact Hw|]; split; [exact Hr|];
           split; [exact Hreach | reflexivity]
       end.
Qed.


(** X20.  The shape of a settle response: the network is the
    payload's; a success carries no reason; a failure carries one of
    the reasons of [verify] or of [settle], and an empty transaction
    unless the reason is ["invalid_transaction_state"]. *)
Theorem settle_response_shape payload requirements st r st' :
  UptoEvmScheme.settle signer payload requirements st = (Normal r, st') ->
  SettleResponse.network r = PaymentRequirements.network (PaymentPayload.accepted payload) /\
  if SettleResponse.success r
  then SettleResponse.errorReason r = None
  else exists tag,
         SettleResponse.errorReason r = Some tag /\
         In tag (verify_tags ++ settle_tags) /\
         (tag <> "invalid_transaction_state" -> SettleResponse.transaction r = "").
Proof.
  intros Hrun.
  run_settle Hrun.
  step_in Hrun; [|discriminate Hrun].
  step_in Hrun.
  - injection Hrun as <- <-. cbn.
    match goal with E : negb _ = true |- _ => apply negb_true_iff in E; rename E into Hinvalid end.
    match goal with E : UptoEvmScheme.verify _ _ _ _ = _ |- _ =>
      destruct (verify_invalid_tag _ _ _ _ _ _ E Hinvalid) as (tag & -> & Htag) end.
    split; [reflexivity|]. exists tag. cbn [default]. split; [reflexivity|].
    split; [cbn in Htag |- *; tauto | reflexivity].
  - match goal with E : negb _ = false |- _ => apply negb_false_iff in E; rename E into Hvalid end.
    match goal with E : UptoEvmScheme.verify _ _ _ _ = _ |- _ =>
      destruct (verify_valid_inv _ _ _ _ _ _ E Hvalid) as (Hreach & _ & _) end.
    apply reaches_deadline_check_cap in Hreach.
    unfold cap_of, amount_of, authorization_of in Hreach.
    repeat (step_in Hrun; cbn [world calls] in Hrun; try discriminate Hrun;
            try (exfalso; cbn in Hreach;
                 match goal with E : (_ >? _) = true |- _ => apply Z.gtb_lt in E end; lia);
            try (injection Hrun as <- <-; cbn;
                 (split; [reflexivity|]);
                 first [ reflexivity
                       | eexists; split; [reflexivity|]; split;
                         [cbn; tauto | first [reflexivity | congruence]] ])).
Qed.

Lemma writes_app l1 l2 : writes (l1 ++ l2) = (writes l1 ++ writes l2)%list.
Proof. apply omap_app. Qed.

(** X21.  What [settle] writes: nothing, or the permit for the cap
    alone, or the permit followed by one [transferFrom] of the amount
    from the owner to [payTo], both on the asset of the requirements;
    it never transfers before trying the permit, never twice, and
    never more than the cap. *)
Theorem settle_writes payload requirements st :
  exists new,
    calls (snd (UptoEvmScheme.settle signer payload requirements st))
      = (calls st ++ new)%list /\
    (writes new = [] \/
     exists a owner spender v r s,
       authorization_of payload = Some a /\
       UptoEvmAuthorization.from a = Some owner /\
       nullish (UptoEvmAuthorization.to a) (Some (PaymentRequirements.payTo requirements))
         = Some spender /\
       amount_of requirements <= cap_of payload /\
       let token := checksumAddress (PaymentRequirements.asset requirements) in
       let approve := (token, permit (checksumAddress owner) (checksumAddress spender)
                                (cap_of payload) (deadline_of payload) v r s) in
       let pay := (token, transferFrom (checksumAddress owner)
                            (checksumAddress (PaymentRequirements.payTo requirements))
                            (amount_of requirements)) in
       writes new = [approve] \/ writes new = [approve; pay]).
Proof.
  destruct (UptoEvmScheme.settle signer payload requirements st) as [c st'] eqn:Hrun.
  cbn [snd].
  run_settle Hrun.
  destruct (UptoEvmScheme.verify signer payload requirements st) as [[verification|e] st1] eqn:Hverify;
    cbn beta iota in Hrun.
  2:{ injection Hrun as <- <-.
      destruct (verify_calls payload requirements st) as [Hc|(q & Hc)];
        rewrite Hverify in Hc; cbn [snd] in Hc; rewrite Hc;
        [exists []; rewrite app_nil_r | eexists]; (split; [reflexivity|]); left; reflexivity. }
  assert (Hcalls : exists pre, calls st1 = (calls st ++ pre)%list /\ writes pre = []).
  { destruct (verify_calls payload requirements st) as [Hc|(q & Hc)];
      rewrite Hverify in Hc; cbn [snd] in Hc; rewrite Hc;
      [exists []; rewrite app_nil_r | eexists]; (split; reflexivity). }
  destruct Hcalls as (pre & Hpre & Hwrites).
  step_in Hrun.
  { injection Hrun as <- <-. exists pre. split; [assumption | left; assumption]. }
  match goal with E : negb _ = false |- _ => apply negb_false_iff in E; rename E into Hvalid end.
  destruct (verify_valid_inv _ _ _ _ _ _ Hverify Hvalid) as (Hreach & _ & _).
  apply reaches_deadline_check_cap in Hreach.
  unfold cap_of, deadline_of, amount_of, authorization_of in *.
  repeat (step_in Hrun; cbn [world calls] in Hrun; try discriminate Hrun).
  all: injection Hrun as <- <-; cbn [calls]; rewrite Hpre, <- ?app_assoc; cbn [app].
  all: try (eexists; split; [reflexivity|]; left; rewrite ?writes_app, Hwrites; reflexivity).
  all: repeat match goal with
    | E : getAddress _ = Normal _ |- _ =>
        apply getAddress_Normal in E; destruct E as (? & ? & ? & ?)
    end.
  all: simplify_eq.
  all: cbn [mbind option_bind] in Hreach.
  all: eexists; (split; [reflexivity|]); right.
  all: repeat eexists; try eassumption.
  all: rewrite ?writes_app, Hwrites; cbn.
  all: first [left; reflexivity | right; reflexivity].
Qed.


(** X22.  [validAfter] is never read: replacing it in the
    authorization changes nothing in what [verify] and [settle] do
    and answer. *)
Theorem handlers_ignore_validAfter payload requirements st validAfter :
  UptoEvmScheme.verify signer (with_validAfter validAfter payload) requirements st
    = UptoEvmScheme.verify signer payload requirements st /\
  UptoEvmScheme.settle signer (with_validAfter validAfter payload) requirements st
    = UptoEvmScheme.settle signer payload requirements st.
Proof.
  assert (Hverify : forall st0,
            UptoEvmScheme.verify signer (with_validAfter validAfter payload) requirements st0
            = UptoEvmScheme.verify signer payload requirements st0).
  { intros st0. destruct payload as [version accepted [[a|] signature]]; reflexivity. }
  split; [apply Hverify|].
  unfold UptoEvmScheme.settle, mbind, M_bind. rewrite Hverify.
  destruct payload as [version accepted [[a|] signature]]; reflexivity.
Qed.


(** X23.  The amount matters to [verify] only through its
    comparison with the cap: requirements that differ in the amount
    alone, and fall on the same side of the cap, get the same answer
    with the same calls.  So the requirements the orchestrator builds
    for a pending amount within the cap verify exactly as the
    session's own requirements do. *)
Theorem verify_reads_amount_for_cap_only payload requirements amount st :
  let asked := PaymentRequirements.with_amount requirements amount in
  ((cap_of payload <? amount_of asked) = (cap_of payload <? amount_of requirements) ->
   UptoEvmScheme.verify signer payload asked st
     = UptoEvmScheme.verify signer payload requirements st) /\
  (forall pending,
     amount = toString pending ->
     pending <= cap_of payload ->
     amount_of requirements <= cap_of payload ->
     UptoEvmScheme.verify signer payload asked st
       = UptoEvmScheme.verify signer payload requirements st).
Proof.
  intros asked.
  assert (Hsame : (cap_of payload <? amount_of asked) = (cap_of payload <? amount_of requirements) ->
                  UptoEvmScheme.verify signer payload asked st
                  = UptoEvmScheme.verify signer payload requirements st).
  { subst asked. unfold cap_of, amount_of, authorization_of.
    destruct requirements as [scheme network asset payTo amount0 timeout extra].
    cbn [PaymentRequirements.with_amount PaymentRequirements.amount PaymentRequirements.scheme
         PaymentRequirements.network PaymentRequirements.asset PaymentRequirements.payTo
         PaymentRequirements.maxTimeoutSeconds PaymentRequirements.extra].
    intros Hcmp.
    unfold UptoEvmScheme.verify, UptoEvmScheme.invalid.
    unfold mbind, M_bind, mret, M_ret, lift, throw, try_catch.
    unfold UptoEvmScheme.now_ms, UptoEvmScheme.call.
    cbn [PaymentRequirements.with_amount PaymentRequirements.amount PaymentRequirements.scheme
         PaymentRequirements.network PaymentRequirements.asset PaymentRequirements.payTo
         PaymentRequirements.maxTimeoutSeconds PaymentRequirements.extra].
    destruct (UptoEvmPayload.authorization (PaymentPayload.payload payload)) as [a|];
      [|reflexivity].
    cbn [mbind option_bind] in Hcmp.
    repeat (first [ reflexivity
                  | rewrite Hcmp; reflexivity
                  | match goal with
                    | |- (if ?c then _ else _) _ = _ => destruct c
                    | |- match ?c with Normal _ => _ | Throw _ => _ end = _ => destruct c
                    end; cbn beta iota ]). }
  split; [exact Hsame|].
  intros pending -> Hpending Hamount. apply Hsame.
  subst asked. unfold amount_of at 1.
  cbn [PaymentRequirements.with_amount PaymentRequirements.amount].
  rewrite toBigInt_toString.
  transitivity false; [|symmetry]; apply Z.ltb_ge; assumption.
Qed.

End SchemeMore.

(** ** Decimal strings, the Starknet metadata and the smoke client *)

Lemma toString_parses n :
  toString n <> "" /\ BigInt_of_string (toString n) = Some n.
Proof.
  unfold toString.
  destruct n as [|p|p]; [split; [discriminate | reflexivity]|..];
    cbn [Z.to_int NilZero.string_of_int];
    pose proof (Unsigned.to_uint_nonnil p) as Hne;
    destruct (BigInt_of_string_uint _ Hne) as [Hpos Hneg];
    destruct (string_of_uint_nonempty _ Hne) as [Hs ->];
    unfold Z.of_uint in Hpos, Hneg; rewrite DecimalPos.Unsigned.of_to in Hpos, Hneg.
  - split; assumption.
  - split; [discriminate | exact Hneg].
Qed.

(** X24.  Decimal round trip: the decimal string of any bigint,
    negative ones included, is not empty, and [BigInt] and [toBigInt]
    read it back as the same integer. *)
Theorem toBigInt_reads_back_toString n :
  toString n <> "" /\
  BigInt_of_string (toString n) = Some n /\
  toBigInt (Some (toString n)) = n.
Proof.
  destruct (toString_parses n) as [Htext Hparse].
  split; [exact Htext|]. split; [exact Hparse|].
  apply toBigInt_parsed; assumption.
Qed.

Section Starknet.

(** X25.  The Starknet scheme's metadata: [getExtra] always carries
    [paymasterEndpoint] and carries [sponsorAddress] exactly when
    [getSigners] lists it, which is when the configured sponsor
    address is not empty; it has no other key, so neither the RPC
    URL nor the paymaster key is exposed. *)
Theorem ExactStarknetScheme_supported_metadata config network :
  exists extra,
    ExactStarknetScheme.getExtra config network = Some extra /\
    extra !! "paymasterEndpoint" = Some (StarknetConfig.paymasterEndpoint config) /\
    extra !! "sponsorAddress" = head (ExactStarknetScheme.getSigners config network) /\
    (forall key, key <> "paymasterEndpoint" -> key <> "sponsorAddress" -> extra !! key = None) /\
    (ExactStarknetScheme.getSigners config network = [] <->
     truthy (StarknetConfig.sponsorAddress config) = false) /\
    (forall signer, In signer (ExactStarknetScheme.getSigners config network) ->
       StarknetConfig.sponsorAddress config = Some signer /\ signer <> "").
Proof.
  unfold ExactStarknetScheme.getExtra, ExactStarknetScheme.getSigners.
  eexists. split; [reflexivity|].
  destruct (StarknetConfig.sponsorAddress config) as [sponsor|]; cbn [truthy].
  - destruct (String.eqb_spec sponsor "") as [->|Hne]; cbn [negb head].
    + rewrite (left_id_L ∅ (∪)).
      split; [apply lookup_singleton_eq|].
      split; [apply lookup_singleton_ne; discriminate|].
      split; [intros key Hkey _; apply lookup_singleton_ne; congruence|].
      split; [tauto | intros signer []].
    + split; [rewrite lookup_union_r; [apply lookup_singleton_eq
                                      | apply lookup_singleton_ne; discriminate]|].
      split; [rewrite lookup_union_l'; [apply lookup_singleton_eq
                                       | rewrite lookup_singleton_eq; eauto]|].
      split.
      { intros key Hendpoint Hsponsor. apply lookup_union_None_2;
          apply lookup_singleton_ne; congruence. }
      split; [split; discriminate|].
      intros signer [<-|[]]. split; [reflexivity | assumption].
  - rewrite (left_id_L ∅ (∪)). cbn [head].
    split; [apply lookup_singleton_eq|].
    split; [apply lookup_singleton_ne; discriminate|].
    split; [intros key Hkey _; apply lookup_singleton_ne; congruence|].
    split; [tauto | intros signer []].
Qed.

End Starknet.

Ltac client_step H :=
  match type of H with
  | context [SmokeClient.nonces ?c ?a ?o ?w] =>
      destruct (SmokeClient.nonces c a o w) as [[?|?] ?] eqn:?
  | context [SmokeClient.signTypedData ?c ?r ?w] =>
      destruct (SmokeClient.signTypedData c r w) as [[?|?] ?] eqn:?
  | _ => step_in H
  end; cbn beta iota in H.

Section Client.
Context {W : Type} `{Host W}.
Variable account : SmokeClient.Account W.
Variable publicClient : SmokeClient.PublicClient W.
Variable seconds_after : Z -> number -> number.

Lemma createUptoPaymentPayload_Normal paymentRequired st p st' :
  SmokeClient.createUptoPaymentPayload account publicClient seconds_after paymentRequired st
    = (Normal p, st') ->
  exists requirement max ms w,
    find (fun r => String.eqb (PaymentRequirements.scheme r) "upto")
         (PaymentRequired.accepts paymentRequired) = Some requirement /\
    let extra := PaymentRequirements.extra requirement in
    SmokeClient.BigInt (default (PaymentRequirements.amount requirement)
                                (field extra "maxAmountRequired")) = Normal max /\
    truthy (field extra "name") = true /\
    truthy (field extra "version") = true /\
    isAddress (PaymentRequirements.asset requirement) = true /\
    isAddress (SmokeClient.address account) = true /\
    isAddress (PaymentRequirements.payTo requirement) = true /\
    Date_now (SmokeClient.outside st) = (ms, w) /\
    let asset := checksumAddress (PaymentRequirements.asset requirement) in
    let owner := checksumAddress (SmokeClient.address account) in
    let spender := checksumAddress (PaymentRequirements.payTo requirement) in
    let key := SmokeClient.join ":"
                 [nth_error (split ":" (PaymentRequirements.network requirement)) 1;
                  Some asset; Some owner; Some spender] in
    ((exists entry,
        SmokeClient.permitCache st !! key = Some entry /\
        ms / 1000 + 30 < PermitCacheEntry.deadline entry /\
        max <= PermitCacheEntry.cap entry /\
        p = PermitCacheEntry.paymentPayload entry /\
        st' = {| SmokeClient.outside := w;
                 SmokeClient.permitCache := SmokeClient.permitCache st;
                 SmokeClient.made := SmokeClient.made st |}) \/
     (exists nonce w1 ms2 w2 deadline signature w3,
        SmokeClient.nonces publicClient asset owner w = (Normal nonce, w1) /\
        Date_now w1 = (ms2, w2) /\
        BigInt_of_number
          (seconds_after ms2 (PaymentRequirements.maxTimeoutSeconds requirement))
          = Normal deadline /\
        let request :=
          Permit.mk (field extra "name") (field extra "version")
            (Number (nth_error (split ":" (PaymentRequirements.network requirement)) 1))
            asset owner spender max nonce deadline in
        SmokeClient.signTypedData account request w2 = (Normal signature, w3) /\
        p = PaymentPayload.mk (PaymentRequired.x402Version paymentRequired) requirement
              (UptoEvmPayload.mk
                 (Some (UptoEvmAuthorization.mk (Some owner) (Some spender)
                          (Some (toString max)) None
                          (Some (toString deadline)) (Some (toString nonce))))
                 (Some signature)) /\
        st' = {| SmokeClient.outside := w3;
                 SmokeClient.permitCache :=
                   <[key := PermitCacheEntry.mk p max deadline]> (SmokeClient.permitCache st);
                 SmokeClient.made :=
                   SmokeClient.made st
                   ++ [SmokeClient.ReadNonces asset owner; SmokeClient.SignTypedData request] |})).
Proof.
  intros Hrun.
  unfold SmokeClient.createUptoPaymentPayload, SmokeClient.getCacheKey in Hrun.
  unfold mbind, M_bind, mret, M_ret, lift, throw in Hrun.
  unfold SmokeClient.now_ms, SmokeClient.call, SmokeClient.cache_get, SmokeClient.cache_set in Hrun.
  repeat (client_step Hrun; cbn [SmokeClient.outside SmokeClient.permitCache SmokeClient.made] in Hrun;
          try discriminate Hrun).
  all: injection Hrun as <- <-.
  all: bool_facts.
  all: repeat match goal with
         | E : getAddress _ = Normal _ |- _ =>
             apply getAddress_Normal in E; destruct E as (? & ? & ? & ?)
         end.
  all: simplify_eq.
  all: match goal with
       | E : Date_now (SmokeClient.outside _) = (?ms, ?w), F : SmokeClient.BigInt _ = Normal ?max |- _ =>
           eexists; exists max, ms, w
       end.
  all: split; [reflexivity|]; cbv zeta.
  all: repeat (split; [first [assumption | reflexivity]|]).
  - left.
    match goal with E : match ?o with Some _ => _ | None => _ end = Some _ |- _ =>
      destruct o as [entry|] eqn:Hentry; [|discriminate E];
      destruct (_ && _) eqn:Hfresh in E; [|discriminate E];
      injection E as <-
    end.
    exists entry. split; [reflexivity|].
    apply andb_true_iff in Hfresh as [Hdeadline Hcap].
    split; [lia|]. split; [lia|]. split; reflexivity.
  - right.
    match goal with
    | Hn : SmokeClient.nonces _ _ _ _ = (Normal ?nonce, ?w1),
      Hd : Date_now ?w1 = (?ms2, ?w2),
      Hb : BigInt_of_number _ = Normal ?deadline,
      Hs : SmokeClient.signTypedData _ _ ?w2 = (Normal ?sig, ?w3) |- _ =>
        exists nonce, w1, ms2, w2, deadline, sig, w3
    end.
    repeat (split; [first [assumption | reflexivity]|]).
    rewrite <- app_assoc. reflexivity.
Qed.

Lemma verify_request (signer : FacilitatorEvmSigner W) payload requirements st request :
  calls (snd (UptoEvmScheme.verify signer payload requirements st))
    = (calls st ++ [VerifyTypedData request])%list ->
  exists a owner spender,
    authorization_of payload = Some a /\
    UptoEvmAuthorization.from a = Some owner /\
    nullish (UptoEvmAuthorization.to a) (Some (PaymentRequirements.payTo requirements))
      = Some spender /\
    request =
      PermitTypedData.mk (checksumAddress owner)
        (field (PaymentRequirements.extra requirements) "name")
        (field (PaymentRequirements.extra requirements) "version")
        (Number (nth_error (split ":" (PaymentRequirements.network requirements)) 1))
        (checksumAddress (PaymentRequirements.asset requirements))
        (checksumAddress owner) (checksumAddress spender)
        (cap_of payload) (toBigInt (UptoEvmAuthorization.nonce a)) (deadline_of payload)
        (UptoEvmPayload.signature (PaymentPayload.payload payload)).
Proof.
  destruct (UptoEvmScheme.verify signer payload requirements st) as [c st'] eqn:Hrun.
  cbn [snd]. intros Hcalls.
  unfold cap_of, deadline_of, authorization_of.
  run_verify Hrun.
  repeat (step_in Hrun;
          try (injection Hrun as <- <-; cbn [calls] in Hcalls;
               exfalso; rewrite <- (app_nil_r (calls st)) in Hcalls at 1;
               apply app_inv_head in Hcalls; discriminate Hcalls)).
  all: injection Hrun as <- <-; cbn [calls] in Hcalls.
  all: apply app_inv_head in Hcalls; injection Hcalls as <-.
  all: repeat match goal with
         | E : getAddress _ = Normal _ |- _ =>
             apply getAddress_Normal in E; destruct E as (? & ? & ? & ?)
         end.
  all: simplify_eq.
  all: cbn [mbind option_bind].
  all: eexists; eexists; eexists; repeat (split; [first [eassumption | reflexivity]|]); reflexivity.
Qed.

(** X26.  The client's payload is one the facilitator understands.
    A payload that [createUptoPaymentPayload] has just signed (not
    one taken from the cache), verified against the requirement it
    was made for, passes every check of [verify] before the amounts;
    its cap is the requirement's amount, or its
    [extra.maxAmountRequired] when given; and the Permit [verify]
    hands to the signer is the very Permit the account signed, with
    the account as the signing address.  The signature returned by
    the account is taken not to be empty, and checksummed addresses
    to keep their form under a second checksumming, as viem's do. *)
Theorem createUptoPaymentPayload_verifies paymentRequired st p st' :
  SmokeClient.createUptoPaymentPayload account publicClient seconds_after paymentRequired st
    = (Normal p, st') ->
  SmokeClient.made st' <> SmokeClient.made st ->
  let requirement := PaymentPayload.accepted p in
  let owner := checksumAddress (SmokeClient.address account) in
  let spender := checksumAddress (PaymentRequirements.payTo requirement) in
  isAddress owner = true -> checksumAddress owner = owner ->
  isAddress spender = true -> checksumAddress spender = spender ->
  truthy (UptoEvmPayload.signature (PaymentPayload.payload p)) = true ->
  find (fun r => String.eqb (PaymentRequirements.scheme r) "upto")
       (PaymentRequired.accepts paymentRequired) = Some requirement /\
  reaches_amount_check p requirement = true /\
  (field (PaymentRequirements.extra requirement) "maxAmountRequired" = None ->
   cap_of p = amount_of requirement) /\
  (is_Some (field (PaymentRequirements.extra requirement) "maxAmountRequired") ->
   cap_of p = required_max_of requirement) /\
  exists signed before,
    SmokeClient.made st' = (before ++ [SmokeClient.SignTypedData signed])%list /\
    Permit.message_value signed = cap_of p /\
    Permit.message_deadline signed = deadline_of p /\
    forall (signer : FacilitatorEvmSigner W) (checking : Run W) request,
      calls (snd (UptoEvmScheme.verify signer p requirement checking))
        = (calls checking ++ [VerifyTypedData request])%list ->
      permit_of request = signed /\
      PermitTypedData.address request = Permit.message_owner signed /\
      PermitTypedData.signature request = UptoEvmPayload.signature (PaymentPayload.payload p).
Proof.
  intros Hrun Hfresh requirement owner spender Howner Hcanonical Hspender Hcanonical' Hsigned.
  destruct (createUptoPaymentPayload_Normal _ _ _ _ Hrun)
    as (requirement' & max & ms & w & Hfind & Hmax & Hname & Hversion & Hasset & Haccount
        & HpayTo & Hnow & Hpath).
  cbv zeta in Hmax, Hpath.
  destruct Hpath as [(entry & _ & _ & _ & _ & ->) | Hpath]; [exfalso; apply Hfresh; reflexivity|].
  destruct Hpath as (nonce & w1 & ms2 & w2 & deadline & signature & w3 & Hnonce & Hnow2
                     & Hdeadline & Hsign & Hp & Hst').
  assert (Hrequirement : requirement = requirement') by (subst requirement; rewrite Hp; reflexivity).
  clearbody requirement. subst requirement'.
  subst owner spender.
  set (owner := checksumAddress (SmokeClient.address account)) in *.
  set (spender := checksumAddress (PaymentRequirements.payTo requirement)) in *.
  destruct (toString_parses max) as [Hmax_text Hmax_parse].
  destruct (toString_parses nonce) as [Hnonce_text Hnonce_parse].
  destruct (toString_parses deadline) as [Hdeadline_text Hdeadline_parse].
  assert (Hcap : cap_of p = max)
    by (rewrite Hp; unfold cap_of, authorization_of; cbn; apply toBigInt_toString).
  assert (Hvalid_before : deadline_of p = deadline)
    by (rewrite Hp; unfold deadline_of, authorization_of; cbn; apply toBigInt_toString).
  split; [exact Hfind|].
  split.
  { apply find_some in Hfind as [_ Hscheme].
    assert (Htruthy : forall s, s <> "" -> truthy (Some s) = true).
    { intros s0 Hs0. cbn. apply negb_true_iff, String.eqb_neq. exact Hs0. }
    assert (Hnonempty : forall a, isAddress a = true -> a <> "") by (intros a Ha ->; vm_compute in Ha; discriminate Ha).
    unfold reaches_amount_check, spender_of, authorization_of.
    rewrite Hp in Hsigned |- *.
    cbn [PaymentPayload.accepted PaymentPayload.payload UptoEvmPayload.authorization
         UptoEvmPayload.signature UptoEvmAuthorization.from UptoEvmAuthorization.to
         UptoEvmAuthorization.nonce UptoEvmAuthorization.validBefore
         UptoEvmAuthorization.value mbind option_bind nullish wellformed] in Hsigned |- *.
    rewrite Hscheme, Hsigned, !Htruthy by auto.
    rewrite Howner, Hspender, String.eqb_refl, Hname, Hversion, HpayTo.
    fold spender. rewrite Hcanonical', String.eqb_refl. reflexivity. }
  split.
  { intros Habsent. rewrite Hcap. rewrite Habsent in Hmax. cbn [from_option id] in Hmax.
    unfold SmokeClient.BigInt in Hmax. unfold amount_of, toBigInt. cbn beta iota. revert Hmax.
    destruct (BigInt_of_string (PaymentRequirements.amount requirement)) as [n|] eqn:Hparse;
      intros Hmax; [|discriminate Hmax].
    injection Hmax as <-.
    destruct (truthy (Some (PaymentRequirements.amount requirement))) eqn:Hamount;
      cbn [negb]; [reflexivity|].
    apply negb_false_iff, String.eqb_eq in Hamount. rewrite Hamount in Hparse.
    vm_compute in Hparse. congruence. }
  split.
  { intros [text Htext]. rewrite Hcap. rewrite Htext in Hmax. cbn [from_option id] in Hmax.
    unfold SmokeClient.BigInt in Hmax. unfold required_max_of. rewrite Htext.
    cbn [nullish]. unfold toBigInt. cbn beta iota. revert Hmax.
    destruct (BigInt_of_string text) as [n|] eqn:Hparse; intros Hmax; [|discriminate Hmax].
    injection Hmax as <-.
    destruct (truthy (Some text)) eqn:Hgiven; cbn [negb]; [reflexivity|].
    apply negb_false_iff, String.eqb_eq in Hgiven. rewrite Hgiven in Hparse.
    vm_compute in Hparse. congruence. }
  eexists.
  exists (SmokeClient.made st
          ++ [SmokeClient.ReadNonces (checksumAddress (PaymentRequirements.asset requirement))
                owner])%list.
  split; [rewrite Hst'; cbn [SmokeClient.made]; rewrite <- app_assoc; reflexivity|].
  cbn [Permit.message_value Permit.message_deadline Permit.message_owner].
  split; [symmetry; exact Hcap|]. split; [symmetry; exact Hvalid_before|].
  intros signer checking request Hcalls.
  destruct (verify_request signer _ _ _ _ Hcalls)
    as (a & owner' & spender' & Ha & Hfrom & Hto & ->).
  rewrite Hcap, Hvalid_before.
  rewrite Hp in Ha |- *. unfold authorization_of in Ha. cbn in Ha. injection Ha as <-.
  cbn in Hfrom, Hto. injection Hfrom as <-. injection Hto as <-.
  unfold permit_of.
  cbn [PermitTypedData.domain_name PermitTypedData.domain_version PermitTypedData.domain_chainId
       PermitTypedData.domain_verifyingContract PermitTypedData.message_owner
       PermitTypedData.message_spender PermitTypedData.message_value
       PermitTypedData.message_nonce PermitTypedData.message_deadline
       PermitTypedData.address PermitTypedData.signature
       UptoEvmAuthorization.nonce PaymentPayload.payload UptoEvmPayload.signature].
  fold owner spender. rewrite Hcanonical, Hcanonical', toBigInt_toString.
  split; [reflexivity|]. split; reflexivity.
Qed.


(** X27.  The permit is reused: once a payload has been signed for
    an offer, asking again for the same offer while the deadline is
    more than 30 seconds away returns the same payload from the
    cache, with no nonce read and no new signature. *)
Theorem createUptoPaymentPayload_reuses_permit paymentRequired st p st1 ms w :
  SmokeClient.createUptoPaymentPayload account publicClient seconds_after paymentRequired st
    = (Normal p, st1) ->
  SmokeClient.made st1 <> SmokeClient.made st ->
  Date_now (SmokeClient.outside st1) = (ms, w) ->
  ms / 1000 + 30 < deadline_of p ->
  SmokeClient.createUptoPaymentPayload account publicClient seconds_after paymentRequired st1
    = (Normal p, {| SmokeClient.outside := w;
                    SmokeClient.permitCache := SmokeClient.permitCache st1;
                    SmokeClient.made := SmokeClient.made st1 |}).
Proof.
  intros Hrun Hfresh Hclock Hvalid.
  destruct (createUptoPaymentPayload_Normal _ _ _ _ Hrun)
    as (requirement & max & ms0 & w0 & Hfind & Hmax & Hname & Hversion & Hasset & Haccount
        & HpayTo & Hnow & Hpath).
  cbv zeta in Hmax, Hpath.
  destruct Hpath as [(entry & _ & _ & _ & _ & ->) | Hpath]; [exfalso; apply Hfresh; reflexivity|].
  destruct Hpath as (nonce & w1 & ms2 & w2 & deadline & signature & w3 & Hnonce & Hnow2
                     & Hdeadline & Hsign & Hp & Hst').
  assert (Hvalid_before : deadline_of p = deadline)
    by (rewrite Hp; unfold deadline_of, authorization_of; cbn; apply toBigInt_toString).
  rewrite Hvalid_before in Hvalid.
  destruct (SmokeClient.createUptoPaymentPayload account publicClient seconds_after
              paymentRequired st1) as [c st2] eqn:Hagain.
  unfold SmokeClient.createUptoPaymentPayload, SmokeClient.getCacheKey in Hagain.
  unfold mbind, M_bind, mret, M_ret, lift, throw in Hagain.
  unfold SmokeClient.now_ms, SmokeClient.call, SmokeClient.cache_get, SmokeClient.cache_set
    in Hagain.
  rewrite Hfind in Hagain. cbn beta iota in Hagain.
  rewrite Hmax in Hagain. cbn beta iota in Hagain.
  rewrite Hname, Hversion in Hagain. cbn [negb orb] in Hagain. cbn beta iota in Hagain.
  rewrite !getAddress_isAddress in Hagain by assumption. cbn beta iota in Hagain.
  rewrite Hclock in Hagain. cbn beta iota in Hagain.
  assert (Hentry : SmokeClient.permitCache st1
                   !! SmokeClient.join ":"
                        [nth_error (split ":" (PaymentRequirements.network requirement)) 1;
                         Some (checksumAddress (PaymentRequirements.asset requirement));
                         Some (checksumAddress (SmokeClient.address account));
                         Some (checksumAddress (PaymentRequirements.payTo requirement))]
                   = Some (PermitCacheEntry.mk p max deadline))
    by (rewrite Hst'; cbn [SmokeClient.permitCache]; apply lookup_insert_eq).
  cbn [SmokeClient.permitCache SmokeClient.outside SmokeClient.made] in Hagain.
  rewrite Hentry in Hagain.
  cbn [PermitCacheEntry.deadline PermitCacheEntry.cap PermitCacheEntry.paymentPayload] in Hagain.
  assert (Hlater : (deadline >? ms / 1000 + 30) = true) by (apply Z.gtb_lt; lia).
  assert (Hcovers : (max >=? max) = true) by (apply Z.geb_le; lia).
  rewrite Hlater, Hcovers in Hagain. cbn [andb] in Hagain. cbn beta iota in Hagain.
  symmetry. exact Hagain.
Qed.

(** X28.  The cache changes only with a fresh signature.  A call that
    throws leaves [permitCache] as it was.  A call that returns a
    payload either took it from the cache, and then it has made no
    call, the cache is as it was and the payload is that of an entry
    the cache held; or it has had it signed, and then the calls made
    are one read of the nonce and one [signTypedData], whose
    signature the payload carries, over a Permit with the cap, the
    nonce and the deadline the payload states, and the cache is the
    old one with that payload stored under one key, with the cap and
    the deadline that the payload's own [value] and [validBefore]
    parse to. *)
Theorem createUptoPaymentPayload_cache paymentRequired st :
  let run := SmokeClient.createUptoPaymentPayload account publicClient seconds_after
               paymentRequired st in
  (forall e, fst run = Throw e ->
     SmokeClient.permitCache (snd run) = SmokeClient.permitCache st) /\
  (forall p, fst run = Normal p ->
     (SmokeClient.made (snd run) = SmokeClient.made st /\
      SmokeClient.permitCache (snd run) = SmokeClient.permitCache st /\
      exists key entry,
        SmokeClient.permitCache st !! key = Some entry /\
        PermitCacheEntry.paymentPayload entry = p) \/
     (exists key asset owner request signature w w',
        SmokeClient.made (snd run)
          = (SmokeClient.made st
             ++ [SmokeClient.ReadNonces asset owner; SmokeClient.SignTypedData request])%list /\
        SmokeClient.signTypedData account request w = (Normal signature, w') /\
        UptoEvmPayload.signature (PaymentPayload.payload p) = Some signature /\
        Permit.message_value request = cap_of p /\
        Permit.message_nonce request = nonce_of p /\
        Permit.message_deadline request = deadline_of p /\
        SmokeClient.permitCache (snd run)
          = <[key := PermitCacheEntry.mk p (cap_of p) (deadline_of p)]>
              (SmokeClient.permitCache st))).
Proof.
  intros run. subst run.
  destruct (SmokeClient.createUptoPaymentPayload account publicClient seconds_after
              paymentRequired st) as [[p|e] st'] eqn:Hrun; cbn [fst snd].
  - split; [intros e He; discriminate He|].
    intros p' [= <-].
    destruct (createUptoPaymentPayload_Normal _ _ _ _ Hrun)
      as (requirement & max & ms0 & w0 & _ & _ & _ & _ & _ & _ & _ & _ & Hpath).
    cbv zeta in Hpath.
    destruct Hpath as [(entry & Hentry & _ & _ & Hp & ->) | Hpath].
    + left. cbn [SmokeClient.made SmokeClient.permitCache].
      split; [reflexivity|]. split; [reflexivity|].
      eexists; exists entry. split; [exact Hentry | symmetry; exact Hp].
    + destruct Hpath
        as (nonce & w1 & ms2 & w2 & deadline & signature & w3 & _ & _ & _ & Hsign & Hp & Hst').
      right.
      assert (Hcap : cap_of p = max)
        by (rewrite Hp; unfold cap_of, authorization_of; cbn; apply toBigInt_toString).
      assert (Hnonce : nonce_of p = nonce)
        by (rewrite Hp; unfold nonce_of, authorization_of; cbn; apply toBigInt_toString).
      assert (Hvalid_before : deadline_of p = deadline)
        by (rewrite Hp; unfold deadline_of, authorization_of; cbn; apply toBigInt_toString).
      rewrite Hst'. cbn [SmokeClient.made SmokeClient.permitCache].
      rewrite Hcap, Hnonce, Hvalid_before.
      eexists; eexists; eexists; eexists; exists signature, w2, w3.
      split; [reflexivity|]. split; [exact Hsign|].
      split; [rewrite Hp; reflexivity|].
      repeat (split; [reflexivity|]). reflexivity.
  - split; [|intros p Hp; discriminate Hp].
    intros e' _.
    unfold SmokeClient.createUptoPaymentPayload, SmokeClient.getCacheKey in Hrun.
    unfold mbind, M_bind, mret, M_ret, lift, throw in Hrun.
    unfold SmokeClient.now_ms, SmokeClient.call, SmokeClient.cache_get, SmokeClient.cache_set in Hrun.
    repeat (client_step Hrun;
            cbn [SmokeClient.outside SmokeClient.permitCache SmokeClient.made] in Hrun;
            try discriminate Hrun;
            try (injection Hrun as <- <-; reflexivity)).
Qed.

End Client.

(** ** The further properties at work on the scenarios *)

Section MoreRuns.
Import Scenario.

Lemma settleUptoSession_nothing_pending_witness :
  let s := metered 300000 0 Session.open in
  let st := desk s sunny in
  store st !! "s1" = Some s /\
  Session.status s = Session.open /\
  Session.pendingSpent s <= 0 /\
  exists st',
    Settlement.settleUptoSession localFacilitatorClient "s1" "close" (Some true) None st
      = (Normal tt, st') /\
    client_calls (effects st') = [] /\
    store st' !! "s1" = Some (Session.set_status Session.closed s).
Proof.
  intros s st.
  assert (Hget : store st !! "s1" = Some s) by (vm_compute; reflexivity).
  assert (Hopen : Session.status s = Session.open) by reflexivity.
  assert (Hle : Session.pendingSpent s <= 0) by (cbn; lia).
  repeat (split; [assumption|]).
  destruct (settleUptoSession_nothing_pending localFacilitatorClient
              st "s1" "close" (Some true) None s Hget Hopen Hle)
    as (st' & Hrun & _ & Hcalls & Hs' & _).
  exists st'. split; [exact Hrun|]. split; [exact Hcalls | exact Hs'].
Defined.

Lemma settleUptoSession_locks_before_settling_witness :
  let s := metered 0 300000 Session.open in
  let st := desk s sunny in
  store st !! "s1" = Some s /\
  Session.status s = Session.open /\
  0 < Session.pendingSpent s /\
  forall mid : Engine Sim,
    store mid !! "s1" = Some (Session.set_status Session.settling s) ->
    Settlement.settleUptoSession localFacilitatorClient "s1" "periodic" None None mid
      = (Normal tt, mid).
Proof.
  intros s st.
  assert (Hget : store st !! "s1" = Some s) by (vm_compute; reflexivity).
  assert (Hopen : Session.status s = Session.open) by reflexivity.
  assert (Hpos : 0 < Session.pendingSpent s) by (cbn; lia).
  repeat (split; [assumption|]).
  destruct (settleUptoSession_locks_before_settling localFacilitatorClient
              st "s1" "periodic" None None s Hget Hopen Hpos) as [_ Hlocked].
  exact (Hlocked "periodic" None None).
Defined.

Lemma settleUptoSession_throws_only_on_buffer_witness :
  let s := metered 0 200000 Session.open in
  let st := desk s sunny in
  let run := Settlement.settleUptoSession (scripted (Throw rpc_error)) "s1" "periodic"
               None (Some (finite (3 # 2))) st in
  run = (Throw (RangeError "not an integer"), snd run) /\
  BigInt_of_number (finite (3 # 2)) = Throw (RangeError "not an integer") /\
  exists s', store (snd run) !! "s1" = Some s' /\ Session.status s' = Session.settling.
Proof.
  intros s st run.
  assert (Hrun : run = (Throw (RangeError "not an integer"), snd run))
    by (vm_compute; reflexivity).
  split; [exact Hrun|].
  destruct (settleUptoSession_throws_only_on_buffer (scripted (Throw rpc_error))
              st "s1" "periodic" None (Some (finite (3 # 2))) _ _ Hrun)
    as (Hbuf & _ & _ & _ & s0 & s' & _ & _ & _ & Hs' & Hstatus & _).
  split; [exact Hbuf|]. exists s'. split; assumption.
Defined.

Lemma settleUptoSession_settles_once_witness :
  let s := metered 0 300000 Session.open in
  let st := desk s sunny in
  let first := Settlement.settleUptoSession localFacilitatorClient "s1" "periodic"
                 None None st in
  store st !! "s1" = Some s /\
  Session.status s = Session.open /\
  0 < Session.pendingSpent s /\
  UptoFacilitatorClient.settle localFacilitatorClient (Session.paymentPayload s)
    (PaymentRequirements.with_amount (Session.paymentRequirements s)
       (toString (Session.pendingSpent s))) (outside st)
    = (Normal (paid "0xtransfer"), sunny) /\
  SettleResponse.success (paid "0xtransfer") = true /\
  fst first = Normal tt /\
  exists st2 s2,
    Settlement.settleUptoSession localFacilitatorClient "s1" "close" (Some true) None (snd first)
      = (Normal tt, st2) /\
    client_calls (effects st2) = client_calls (effects (snd first)) /\
    store st2 !! "s1" = Some s2 /\
    Session.settledTotal s2 = 300000 /\
    Session.pendingSpent s2 = 0.
Proof.
  intros s st first.
  assert (Hget : store st !! "s1" = Some s) by (vm_compute; reflexivity).
  assert (Hopen : Session.status s = Session.open) by reflexivity.
  assert (Hpos : 0 < Session.pendingSpent s) by (cbn; lia).
  assert (Hcall : UptoFacilitatorClient.settle localFacilitatorClient (Session.paymentPayload s)
            (PaymentRequirements.with_amount (Session.paymentRequirements s)
               (toString (Session.pendingSpent s))) (outside st)
            = (Normal (paid "0xtransfer"), sunny))
    by (vm_compute; reflexivity).
  assert (Hok : SettleResponse.success (paid "0xtransfer") = true) by reflexivity.
  repeat (split; [assumption|]).
  subst first.
  destruct (settleUptoSession_settles_once localFacilitatorClient
              st "s1" "periodic" None None s (paid "0xtransfer") sunny
              Hget Hopen Hpos Hcall Hok)
    as [Hreturns Hsecond].
  assert (Hfirst : fst (Settlement.settleUptoSession localFacilitatorClient "s1" "periodic"
                          None None st) = Normal tt)
    by (apply (Hreturns 60); vm_compute; reflexivity).
  split; [exact Hfirst|].
  destruct (Hsecond "close" (Some true) None)
    as (st2 & Hrun & Hcalls & _ & Hcredited & _).
  destruct (Hcredited Hfirst) as (s2 & Hs2 & Hsettled & Hpending).
  exists st2, s2.
  split; [exact Hrun|]. split; [exact Hcalls|]. split; [exact Hs2|].
  split; [exact Hsettled | exact Hpending].
Defined.


Lemma settleUptoSession_records_receipt_witness :
  let s := metered 0 300000 Session.open in
  let st := desk s sunny in
  let run := Settlement.settleUptoSession localFacilitatorClient "s1" "periodic"
               None None st in
  store st !! "s1" = Some s /\
  Session.status s = Session.open /\
  0 < Session.pendingSpent s /\
  UptoFacilitatorClient.settle localFacilitatorClient (Session.paymentPayload s)
    (PaymentRequirements.with_amount (Session.paymentRequirements s)
       (toString (Session.pendingSpent s))) (outside st)
    = (Normal (paid "0xtransfer"), sunny) /\
  Date_now sunny = (clock_ms sunny, sunny) /\
  run = (Normal tt, snd run) /\
  exists s' last,
    store (snd run) !! "s1" = Some s' /\
    Session.lastSettlement s' = Some last /\
    LastSettlement.atMs last = clock_ms sunny /\
    LastSettlement.reason last = "periodic" /\
    LastSettlement.receipt last = paid "0xtransfer".
Proof.
  intros s st run.
  assert (Hget : store st !! "s1" = Some s) by (vm_compute; reflexivity).
  assert (Hopen : Session.status s = Session.open) by reflexivity.
  assert (Hpos : 0 < Session.pendingSpent s) by (cbn; lia).
  assert (Hcall : UptoFacilitatorClient.settle localFacilitatorClient (Session.paymentPayload s)
            (PaymentRequirements.with_amount (Session.paymentRequirements s)
               (toString (Session.pendingSpent s))) (outside st)
            = (Normal (paid "0xtransfer"), sunny))
    by (vm_compute; reflexivity).
  assert (Hclock : Date_now sunny = (clock_ms sunny, sunny)) by reflexivity.
  assert (Hrun : run = (Normal tt, snd run)) by (vm_compute; reflexivity).
  repeat (split; [assumption|]).
  destruct (settleUptoSession_records_receipt localFacilitatorClient
              st "s1" "periodic" None None s (Normal (paid "0xtransfer")) sunny
              (clock_ms sunny) sunny (snd run) Hget Hopen Hpos Hcall Hclock Hrun)
    as (s' & last & Hs' & Hlast & HatMs & Hreason & Hreceipt & _).
  exists s', last. repeat (split; [assumption|]). exact (Hreceipt _ eq_refl).
Defined.

Lemma settleUptoSession_session_fields_witness :
  let s := metered 0 300000 Session.open in
  let st := desk s sunny in
  store st !! "s1" = Some s /\
  exists s',
    store (snd (Settlement.settleUptoSession localFacilitatorClient "s1" "periodic"
                  None None st)) !! "s1" = Some s' /\
    Session.cap s' = 1000000 /\
    Session.deadline s' = 1700003600 /\
    0 <= Session.settledTotal s' /\
    Session.pendingSpent s' <= 300000.
Proof.
  intros s st.
  assert (Hget : store st !! "s1" = Some s) by (vm_compute; reflexivity).
  split; [exact Hget|].
  destruct (settleUptoSession_session_fields localFacilitatorClient
              st "s1" "periodic" None None "s1" s Hget)
    as (s' & Hs' & _ & _ & _ & Hcap & Hdeadline & Hsettled & Hpending).
  exists s'. repeat (split; [assumption|]).
  destruct Hpending as [->|[_ ->]]; cbn; lia.
Defined.

Lemma verify_valid_checks_witness :
  let payload := presented (authorized alice merchant "1000000" in_an_hour) in
  let requirements := requirement "250000" in
  let run := UptoEvmScheme.verify signer payload requirements (start sunny) in
  run = (Normal (VerifyResponse.mk true None (Some alice)), snd run) /\
  exists request,
    calls (snd run) = [VerifyTypedData request] /\
    PermitTypedData.message_value request = 1000000 /\
    PermitTypedData.message_deadline request = 1700003600.
Proof.
  intros payload requirements run.
  assert (Hrun : run = (Normal (VerifyResponse.mk true None (Some alice)), snd run))
    by (vm_compute; reflexivity).
  split; [exact Hrun|].
  subst run.
  pose proof (verify_valid_checks signer payload requirements (start sunny)
                (VerifyResponse.mk true None (Some alice)) _ Hrun eq_refl) as Hchecks.
  destruct Hchecks
    as (a & owner & spender & signature & ms & w & Ha & _ & _ & _ & _ & _ & _ & _ & _ & _
        & _ & _ & _ & _ & _ & _ & _ & _ & Hcalls & _).
  eexists. split; [exact Hcalls|].
  injection Ha as <-. split; vm_compute; reflexivity.
Defined.

Lemma handlers_return_on_wellformed_addresses_witness :
  let payload := presented (authorized alice mallory "1000000" in_an_hour) in
  let requirements := requirement "250000" in
  addresses_wellformed payload requirements = true /\
  (exists r, fst (UptoEvmScheme.verify signer payload requirements (start sunny)) = Normal r) /\
  (exists r, fst (UptoEvmScheme.settle signer payload requirements (start sunny)) = Normal r).
Proof.
  intros payload requirements.
  assert (Hok : addresses_wellformed payload requirements = true) by (vm_compute; reflexivity).
  split; [exact Hok|].
  destruct (handlers_return_on_wellformed_addresses signer payload requirements (start sunny) Hok)
    as [(r & Hr & _) Hsettle].
  split; [exists r; exact Hr | exact Hsettle].
Defined.

Lemma verify_needs_chain_reference_witness :
  let requirements :=
    PaymentRequirements.mk "upto" "base" usdc merchant "250000" (finite (inject_Z 300))
      (Some (<["name" := "USD Coin"]> (<["version" := "2"]> ∅))) in
  let payload :=
    PaymentPayload.mk 2 requirements
      (UptoEvmPayload.mk (Some (authorized alice merchant "1000000" in_an_hour))
         (Some "0xsigned")) in
  let run := UptoEvmScheme.verify signer payload requirements (start sunny) in
  let answer := VerifyResponse.mk false (Some "invalid_chain_id") (Some alice) in
  all_are (fun c => negb (Ascii.eqb c ":")) (PaymentRequirements.network requirements) = true /\
  run = (Normal answer, snd run) /\
  VerifyResponse.isValid answer = false.
Proof.
  intros requirements payload run answer.
  assert (Hplain : all_are (fun c => negb (Ascii.eqb c ":"))
                     (PaymentRequirements.network requirements) = true)
    by (vm_compute; reflexivity).
  assert (Hrun : run = (Normal answer, snd run)) by (vm_compute; reflexivity).
  repeat (split; [assumption|]).
  exact (verify_needs_chain_reference signer payload requirements (start sunny) _ _ Hplain Hrun).
Defined.

Lemma verify_default_recipient_witness :
  let payload :=
    PaymentPayload.mk 2 (requirement "250000")
      (UptoEvmPayload.mk
         (Some (UptoEvmAuthorization.mk (Some alice) None (Some "1000000") None
                  (Some in_an_hour) (Some "0")))
         (Some "0xsigned")) in
  authorization_of payload ≫= UptoEvmAuthorization.to = None /\
  verify_reason (fst (UptoEvmScheme.verify signer payload (requirement "250000") (start sunny)))
    <> Some "recipient_mismatch".
Proof.
  intros payload.
  assert (Hto : authorization_of payload ≫= UptoEvmAuthorization.to = None) by reflexivity.
  split; [exact Hto|].
  exact (verify_default_recipient signer payload (requirement "250000") (start sunny) Hto).
Defined.

Lemma verify_cap_below_required_max_iff_witness :
  let requirements :=
    PaymentRequirements.mk "upto" "eip155:8453" usdc merchant "250000" (finite (inject_Z 300))
      (Some (<["name" := "USD Coin"]> (<["version" := "2"]>
               (<["maxAmountRequired" := "2000000"]> ∅)))) in
  let payload :=
    PaymentPayload.mk 2 requirements
      (UptoEvmPayload.mk (Some (authorized alice merchant "1000000" in_an_hour))
         (Some "0xsigned")) in
  reaches_amount_check payload requirements = true /\
  amount_of requirements <= cap_of payload /\
  0 < required_max_of requirements /\
  cap_of payload < required_max_of requirements /\
  fst (UptoEvmScheme.verify signer payload requirements (start sunny))
    = Normal (VerifyResponse.mk false (Some "cap_below_required_max") (payer_of payload)).
Proof.
  intros requirements payload.
  assert (Hreach : reaches_amount_check payload requirements = true)
    by (vm_compute; reflexivity).
  assert (Hcap : amount_of requirements <= cap_of payload) by (vm_compute; discriminate).
  assert (Hpos : 0 < required_max_of requirements) by (vm_compute; reflexivity).
  assert (Hlow : cap_of payload < required_max_of requirements) by (vm_compute; reflexivity).
  repeat (split; [assumption|]).
  destruct (verify_cap_below_required_max_iff signer payload requirements (start sunny)
              Hreach Hcap) as [_ Hanswer].
  exact (Hanswer Hpos Hlow).
Defined.

Lemma settle_propagates_rejection_witness :
  let payload := presented (authorized alice mallory "1000000" in_an_hour) in
  let requirements := requirement "250000" in
  let rejection := VerifyResponse.mk false (Some "recipient_mismatch") (Some alice) in
  UptoEvmScheme.verify signer payload requirements (start sunny)
    = (Normal rejection, start sunny) /\
  VerifyResponse.isValid rejection = false /\
  exists tag,
    In tag verify_tags /\
    UptoEvmScheme.settle signer payload requirements (start sunny)
      = (Normal (SettleResponse.mk false (Some tag) "" "eip155:8453" (Some alice)),
         start sunny).
Proof.
  intros payload requirements rejection.
  assert (Hverify : UptoEvmScheme.verify signer payload requirements (start sunny)
                    = (Normal rejection, start sunny)) by (vm_compute; reflexivity).
  assert (Hinvalid : VerifyResponse.isValid rejection = false) by reflexivity.
  repeat (split; [assumption|]).
  destruct (settle_propagates_rejection signer payload requirements (start sunny) _ _
              Hverify Hinvalid) as (tag & _ & Hin & Hsettle).
  exists tag. split; [exact Hin | exact Hsettle].
Defined.

Lemma settle_success_transfers_witness :
  let payload := presented (authorized alice merchant "1000000" in_an_hour) in
  let requirements := requirement "250000" in
  let run := UptoEvmScheme.settle signer payload requirements (start sunny) in
  run = (Normal (paid "0xtransfer"), snd run) /\
  SettleResponse.success (paid "0xtransfer") = true /\
  exists tx before,
    calls (snd run)
      = (before ++ [WriteContract (checksumAddress usdc)
                      (transferFrom (checksumAddress alice) (checksumAddress merchant) 250000);
                    WaitForTransactionReceipt tx])%list.
Proof.
  intros payload requirements run.
  assert (Hrun : run = (Normal (paid "0xtransfer"), snd run)) by (vm_compute; reflexivity).
  assert (Hok : SettleResponse.success (paid "0xtransfer") = true) by reflexivity.
  repeat (split; [assumption|]).
  destruct (settle_success_transfers signer payload requirements (start sunny) _ _ Hrun Hok)
    as (a & owner & tx & before & w1 & w2 & Ha & Hfrom & Hcalls & _).
  injection Ha as <-. injection Hfrom as <-.
  exists tx, before. exact Hcalls.
Defined.

Lemma settle_response_shape_witness :
  let payload := presented (authorized alice merchant "1000000" in_an_hour) in
  let requirements := requirement "250000" in
  let run := UptoEvmScheme.settle signer payload requirements (start stormy) in
  let failure := SettleResponse.mk false (Some "transaction_failed") "" "eip155:8453"
                   (Some alice) in
  run = (Normal failure, snd run) /\
  exists tag,
    SettleResponse.errorReason failure = Some tag /\
    In tag (verify_tags ++ settle_tags)%list.
Proof.
  intros payload requirements run failure.
  assert (Hrun : run = (Normal failure, snd run)) by (vm_compute; reflexivity).
  split; [exact Hrun|].
  destruct (settle_response_shape signer payload requirements (start stormy) _ _ Hrun)
    as (_ & tag & Htag & Hin & _).
  exists tag. split; assumption.
Defined.

Lemma verify_reads_amount_for_cap_only_witness :
  let payload := presented (authorized alice merchant "1000000" in_an_hour) in
  let requirements := requirement "250000" in
  300000 <= cap_of payload /\
  amount_of requirements <= cap_of payload /\
  UptoEvmScheme.verify signer payload
    (PaymentRequirements.with_amount requirements (toString 300000)) (start sunny)
    = UptoEvmScheme.verify signer payload requirements (start sunny).
Proof.
  intros payload requirements.
  assert (Hpending : 300000 <= cap_of payload) by (vm_compute; discriminate).
  assert (Hamount : amount_of requirements <= cap_of payload) by (vm_compute; discriminate).
  split; [exact Hpending|]. split; [exact Hamount|].
  destruct (verify_reads_amount_for_cap_only signer payload requirements (toString 300000)
              (start sunny)) as [_ Hsettlement].
  exact (Hsettlement 300000 eq_refl Hpending Hamount).
Defined.

End MoreRuns.

Section ClientRuns.
Import Scenario SmokeScenario.

Lemma createUptoPaymentPayload_verifies_witness :
  let run := SmokeClient.createUptoPaymentPayload wallet chain whole_seconds_after offer
               (idle sunny) in
  run = (Normal signed_offer, snd run) /\
  SmokeClient.made (snd run) <> SmokeClient.made (idle sunny) /\
  isAddress (checksumAddress alice) = true /\
  checksumAddress (checksumAddress alice) = checksumAddress alice /\
  isAddress (checksumAddress merchant) = true /\
  checksumAddress (checksumAddress merchant) = checksumAddress merchant /\
  reaches_amount_check signed_offer (requirement "250000") = true /\
  cap_of signed_offer = amount_of (requirement "250000").
Proof.
  intros run.
  assert (Hrun : run = (Normal signed_offer, snd run)) by (vm_compute; reflexivity).
  assert (Hfresh : SmokeClient.made (snd run) <> SmokeClient.made (idle sunny))
    by (vm_compute; discriminate).
  assert (Howner : isAddress (checksumAddress alice) = true) by (vm_compute; reflexivity).
  assert (Hcanonical : checksumAddress (checksumAddress alice) = checksumAddress alice)
    by (vm_compute; reflexivity).
  assert (Hspender : isAddress (checksumAddress merchant) = true) by (vm_compute; reflexivity).
  assert (Hcanonical' : checksumAddress (checksumAddress merchant) = checksumAddress merchant)
    by (vm_compute; reflexivity).
  split; [exact Hrun|]. split; [exact Hfresh|]. split; [exact Howner|].
  split; [exact Hcanonical|]. split; [exact Hspender|]. split; [exact Hcanonical'|].
  subst run.
  destruct (createUptoPaymentPayload_verifies wallet chain whole_seconds_after offer
              (idle sunny) signed_offer _ Hrun Hfresh
              Howner Hcanonical Hspender Hcanonical' eq_refl)
    as (_ & Hreach & Hcap & _).
  split; [exact Hreach | exact (Hcap eq_refl)].
Defined.

Lemma createUptoPaymentPayload_reuses_permit_witness :
  let run := SmokeClient.createUptoPaymentPayload wallet chain whole_seconds_after offer
               (idle sunny) in
  run = (Normal signed_offer, snd run) /\
  SmokeClient.made (snd run) <> SmokeClient.made (idle sunny) /\
  Date_now (SmokeClient.outside (snd run)) = (clock_ms sunny, sunny) /\
  clock_ms sunny / 1000 + 30 < deadline_of signed_offer /\
  SmokeClient.createUptoPaymentPayload wallet chain whole_seconds_after offer (snd run)
    = (Normal signed_offer,
       {| SmokeClient.outside := sunny;
          SmokeClient.permitCache := SmokeClient.permitCache (snd run);
          SmokeClient.made := SmokeClient.made (snd run) |}).
Proof.
  intros run.
  assert (Hrun : run = (Normal signed_offer, snd run)) by (vm_compute; reflexivity).
  assert (Hfresh : SmokeClient.made (snd run) <> SmokeClient.made (idle sunny))
    by (vm_compute; discriminate).
  assert (Hclock : Date_now (SmokeClient.outside (snd run)) = (clock_ms sunny, sunny))
    by (vm_compute; reflexivity).
  assert (Hvalid : clock_ms sunny / 1000 + 30 < deadline_of signed_offer)
    by (vm_compute; reflexivity).
  split; [exact Hrun|]. split; [exact Hfresh|]. split; [exact Hclock|]. split; [exact Hvalid|].
  subst run.
  exact (createUptoPaymentPayload_reuses_permit wallet chain whole_seconds_after offer
           (idle sunny) signed_offer _ (clock_ms sunny) sunny
           Hrun Hfresh Hclock Hvalid).
Defined.

Lemma createUptoPaymentPayload_cache_witness :
  let run := SmokeClient.createUptoPaymentPayload wallet chain whole_seconds_after offer
               (idle sunny) in
  fst run = Normal signed_offer /\
  exists key asset owner request,
    SmokeClient.made (snd run)
      = [SmokeClient.ReadNonces asset owner; SmokeClient.SignTypedData request] /\
    Permit.message_value request = 250000 /\
    Permit.message_nonce request = 0 /\
    Permit.message_deadline request = 1700000300 /\
    SmokeClient.permitCache (snd run)
      = <[key := PermitCacheEntry.mk signed_offer 250000 1700000300]> ∅.
Proof.
  intros run.
  assert (Hfirst : fst run = Normal signed_offer) by (vm_compute; reflexivity).
  split; [exact Hfirst|]. subst run.
  destruct (createUptoPaymentPayload_cache wallet chain whole_seconds_after offer (idle sunny))
    as [_ Hreturned].
  assert (Hcap : cap_of signed_offer = 250000) by (vm_compute; reflexivity).
  assert (Hnonce : nonce_of signed_offer = 0) by (vm_compute; reflexivity).
  assert (Hlimit : deadline_of signed_offer = 1700000300) by (vm_compute; reflexivity).
  destruct (Hreturned signed_offer Hfirst)
    as [(_ & _ & key & entry & Hentry & _)
       | (key & asset & owner & request & signature & w & w'
          & Hmade & _ & _ & Hv & Hn & Hd & Hcache)].
  - cbn [idle SmokeClient.permitCache] in Hentry.
    rewrite lookup_empty in Hentry. discriminate Hentry.
  - rewrite Hcap in Hv, Hcache. rewrite Hnonce in Hn. rewrite Hlimit in Hd, Hcache.
    exists key, asset, owner, request.
    split; [exact Hmade|]. split; [exact Hv|]. split; [exact Hn|]. split; [exact Hd|].
    exact Hcache.
Defined.

End ClientRuns.
